(** * gocb: option encoding, error enhancement and the cluster's client registry

    A shallow embedding of the Go sources

      - [searchquery_options.go]   ([SearchOptions.toMap], [Connect],
        [parseExtraConnStrOptions] and the [Cluster] methods [Bucket],
        [takeClusterClient], [getClient], [randomClient], [Close],
        [clusterOrRandomClient], the provider getters, [Users], [Buckets] and
        the flag for enhanced prepared statements),
      - [analyticsquery_options.go] ([AnalyticsOptions.toMap]),
      - [error_wrapping.go]         ([maybeEnhanceCoreErr] and its wrappers),

    followed by the properties the specification states about them, and by
    further properties of the code.

    Conventions of the embedding:
      - a Go [map[string]T] is a [gmap string T]; a map, slice or pointer that
        may be [nil] is an [option];
      - a Go [error] interface value is an [option error], [None] being [nil];
      - a function returning [(T, error)] returns a pair of options, so that
        "returns [nil, err]" is a statement about the first component;
      - [for k, v := range m] visits the entries of [m] in an order chosen by
        the runtime: the order is a parameter ([RangeOrder]) about which only
        "it enumerates the entries of the map" is known;
      - clients are objects on a heap, referred to by address, and every call
        into the transport is recorded in a log. *)

From stdpp Require Import gmap strings list fin_maps.

#[local] Set Warnings "-register-all,-clear-no-such-hyp".
#[local] Open Scope Z_scope.
#[local] Open Scope string_scope.

(** ** Iteration order of [range] over a map *)

(** The runtime picks the order anew for every loop.  Here the order is a
    function of the map: no function below ranges twice over one map in a way
    that depends on the order, so nothing is lost, and every property is
    proved for all such functions. *)

Class RangeOrder := {
  range_order : ∀ V : Type, gmap string V → list (string * V);
  range_order_perm : ∀ (V : Type) (m : gmap string V),
    range_order V m ≡ₚ map_to_list m
}.
Arguments range_order {_ _} m.

(** [for k, v := range m { st = body k v st }] *)
Definition range {R : RangeOrder} {V S : Type}
    (m : gmap string V) (body : string → V → S → S) (st : S) : S :=
  foldl (λ acc kv, body kv.1 kv.2 acc) st (range_order m).

(** Ranging over a map that may be [nil]: a [nil] map has no entries. *)
Definition range_nilable {R : RangeOrder} {V S : Type}
    (m : option (gmap string V)) (body : string → V → S → S) (st : S) : S :=
  match m with
  | Some m => range m body st
  | None => st
  end.

(** One admissible order, used to run the code on concrete inputs. *)
Definition canonical_order : RangeOrder :=
  {| range_order := λ V m, map_to_list m;
     range_order_perm := λ V m, Permutation_refl (map_to_list m) |}.

(** Another admissible order: the reverse of the former. *)
Definition reversed_order : RangeOrder :=
  {| range_order := λ V m, reverse (map_to_list m);
     range_order_perm := λ V m, reverse_Permutation (map_to_list m) |}.

(** ** Durations ([time.Duration] counts nanoseconds in an [int64]) *)

Definition Duration := Z.
Definition Millisecond : Duration := 1000000.
Definition Second : Duration := 1000 * Millisecond.

(** ** Errors *)

(** The transport's error types (package [gocbcore]).  They are declared
    outside this repository; the fields are those [maybeEnhanceCoreErr] reads. *)
Module gocbcore.

(** A retry reason is identified by its description string. *)
Record RetryReason := { Description : string }.

Module ViewErrorDesc.
Record t := { SourceNode : string; Message : string }.
End ViewErrorDesc.

Module N1QLErrorDesc.
Record t := { Code : Z; Message : string }.
End N1QLErrorDesc.

Module AnalyticsErrorDesc.
Record t := { Code : Z; Message : string }.
End AnalyticsErrorDesc.

Module KeyValueError.
Record t {E : Type} := {
  InnerError : option E;
  StatusCode : Z;
  BucketName : string;
  ScopeName : string;
  CollectionName : string;
  CollectionID : Z;
  ErrorName : string;
  ErrorDescription : string;
  Opaque : Z;
  Context : string;
  Ref : string;
  RetryReasons : list RetryReason;
  RetryAttempts : Z
}.
Arguments t : clear implicits.
End KeyValueError.

Module ViewError.
Record t {E : Type} := {
  InnerError : option E;
  DesignDocumentName : string;
  ViewName : string;
  Errors : list ViewErrorDesc.t;
  Endpoint : string;
  RetryReasons : list RetryReason;
  RetryAttempts : Z
}.
Arguments t : clear implicits.
End ViewError.

Module N1QLError.
Record t {E : Type} := {
  InnerError : option E;
  Statement : string;
  ClientContextID : string;
  Errors : list N1QLErrorDesc.t;
  Endpoint : string;
  RetryReasons : list RetryReason;
  RetryAttempts : Z
}.
Arguments t : clear implicits.
End N1QLError.

Module AnalyticsError.
Record t {E : Type} := {
  InnerError : option E;
  Statement : string;
  ClientContextID : string;
  Errors : list AnalyticsErrorDesc.t;
  Endpoint : string;
  RetryReasons : list RetryReason;
  RetryAttempts : Z
}.
Arguments t : clear implicits.
End AnalyticsError.

Module HTTPError.
Record t {E : Type} := {
  InnerError : option E;
  UniqueID : string;
  Endpoint : string;
  RetryReasons : list RetryReason;
  RetryAttempts : Z
}.
Arguments t : clear implicits.
End HTTPError.

End gocbcore.

(** The domain's retry reason, again identified by its description. *)
Record RetryReason := { Description : string }.

Module ViewErrorDesc.
Record t := { SourceNode : string; Message : string }.
End ViewErrorDesc.

Module QueryErrorDesc.
Record t := { Code : Z; Message : string }.
End QueryErrorDesc.

Module AnalyticsErrorDesc.
Record t := { Code : Z; Message : string }.
End AnalyticsErrorDesc.

Module KeyValueError.
Record t {E : Type} := {
  InnerError : option E;
  StatusCode : Z;
  BucketName : string;
  ScopeName : string;
  CollectionName : string;
  CollectionID : Z;
  ErrorName : string;
  ErrorDescription : string;
  Opaque : Z;
  Context : string;
  Ref : string;
  RetryReasons : list RetryReason;
  RetryAttempts : Z
}.
Arguments t : clear implicits.
End KeyValueError.

Module ViewError.
Record t {E : Type} := {
  InnerError : option E;
  DesignDocumentName : string;
  ViewName : string;
  Errors : list ViewErrorDesc.t;
  Endpoint : string;
  RetryReasons : list RetryReason;
  RetryAttempts : Z
}.
Arguments t : clear implicits.
End ViewError.

Module QueryError.
Record t {E : Type} := {
  InnerError : option E;
  Statement : string;
  ClientContextID : string;
  Errors : list QueryErrorDesc.t;
  Endpoint : string;
  RetryReasons : list RetryReason;
  RetryAttempts : Z
}.
Arguments t : clear implicits.
End QueryError.

Module AnalyticsError.
Record t {E : Type} := {
  InnerError : option E;
  Statement : string;
  ClientContextID : string;
  Errors : list AnalyticsErrorDesc.t;
  Endpoint : string;
  RetryReasons : list RetryReason;
  RetryAttempts : Z
}.
Arguments t : clear implicits.
End AnalyticsError.

Module HTTPError.
Record t {E : Type} := {
  InnerError : option E;
  UniqueID : string;
  Endpoint : string;
  RetryReasons : list RetryReason;
  RetryAttempts : Z
}.
Arguments t : clear implicits.
End HTTPError.

(** The dynamic type of a non-nil [error] value.  [errors_New] and
    [fmt_Errorf] are the plain errors of [errors.New] and [fmt.Errorf];
    [invalidArgumentsError] is what [makeInvalidArgumentsError] builds;
    [transportError] stands for any other error a collaborator hands back. *)
Inductive error : Type :=
  | errors_New (msg : string)
  | fmt_Errorf (msg : string)
  | invalidArgumentsError (msg : string)
  | transportError (what : string)
  | core_KeyValueError (e : gocbcore.KeyValueError.t error)
  | core_ViewError (e : gocbcore.ViewError.t error)
  | core_N1QLError (e : gocbcore.N1QLError.t error)
  | core_AnalyticsError (e : gocbcore.AnalyticsError.t error)
  | core_HTTPError (e : gocbcore.HTTPError.t error)
  | gocb_KeyValueError (e : KeyValueError.t error)
  | gocb_ViewError (e : ViewError.t error)
  | gocb_QueryError (e : QueryError.t error)
  | gocb_AnalyticsError (e : AnalyticsError.t error)
  | gocb_HTTPError (e : HTTPError.t error).

(** Modelled from the spec: [makeInvalidArgumentsError] is declared in a file
    that is not part of the sources at hand; the spec's taxonomy has a
    dedicated invalid-arguments error, which this constructor builds. *)
Definition makeInvalidArgumentsError (message : string) : error :=
  invalidArgumentsError message.

(** Whether an error is of the invalid-arguments type. *)
Definition isInvalidArguments (e : error) : bool :=
  match e with
  | invalidArgumentsError _ => true
  | _ => false
  end.

(** ** Values of type [interface{}] that end up in a parameter map *)

(** [cbsearch.Sort], [cbsearch.Facet] and [uuid.UUID] are declared outside the
    sources at hand and are never inspected by the encoders: they are handles. *)
Record Sort := { sort_repr : string }.
Record Facet := { facet_repr : string }.
Record UUID := { uuid_repr : string }.

Inductive value : Type :=
  | VNil
  | VInt (n : Z)
  | VBool (b : bool)
  | VString (s : string)
  | VStrings (l : option (list string))      (* []string *)
  | VSorts (l : option (list Sort))          (* []cbsearch.Sort *)
  | VFacet (f : Facet)                       (* cbsearch.Facet *)
  | VUUID (u : UUID)                         (* uuid.UUID *)
  | VSlice (l : option (list value))         (* []interface{} *)
  | VMap (m : gmap string value).            (* map[string]interface{} *)

(** A parameter map, [map[string]interface{}]. *)
Abbreviation params := (gmap string value).

(** [*MutationState]; the type and its method [toSearchMutationState] live
    outside the sources at hand.  The state is represented by the vector-clock
    payload the method produces from it. *)
Record MutationState := { toSearchMutationState : value }.

(** ** [searchquery_options.go]: search options *)

Definition SearchHighlightStyle := string.
Definition DefaultHighlightStyle : SearchHighlightStyle := "".
Definition HTMLHighlightStyle : SearchHighlightStyle := "html".
Definition AnsiHightlightStyle : SearchHighlightStyle := "ansi".

Definition SearchScanConsistency := Z.
Definition searchScanConsistencyNotSet : SearchScanConsistency := 0.
Definition SearchScanConsistencyNotBounded : SearchScanConsistency := 1.

Module SearchHighlightOptions.
Record t := {
  Style : SearchHighlightStyle;
  Fields : option (list string)
}.
End SearchHighlightOptions.

Module SearchOptions.

(** [Timeout], [RetryStrategy] and [parentSpan] are not read by [toMap];
    they are kept as plain data. *)
Record t := {
  ScanConsistency : SearchScanConsistency;
  Limit : Z;
  Skip : Z;
  Explain : bool;
  Highlight : option SearchHighlightOptions.t;
  Fields : option (list string);
  Sort : option (list Sort);
  Facets : option (gmap string Facet);
  ConsistentWith : option MutationState;
  Raw : option params;
  Timeout : Duration;
  RetryStrategy : option string;
  parentSpan : option string
}.

(** [SearchOptions{}], and setting the fields the encoder branches on. *)
Definition zero : t :=
  {| ScanConsistency := 0; Limit := 0; Skip := 0; Explain := false;
     Highlight := None; Fields := None; Sort := None; Facets := None;
     ConsistentWith := None; Raw := None; Timeout := 0;
     RetryStrategy := None; parentSpan := None |}.

Definition with_consistency (level : SearchScanConsistency)
    (token : option MutationState) (opts : t) : t :=
  {| ScanConsistency := level; Limit := Limit opts; Skip := Skip opts;
     Explain := Explain opts; Highlight := Highlight opts;
     Fields := Fields opts; Sort := Sort opts; Facets := Facets opts;
     ConsistentWith := token; Raw := Raw opts; Timeout := Timeout opts;
     RetryStrategy := RetryStrategy opts; parentSpan := parentSpan opts |}.

Definition with_Limit_Raw (limit : Z) (raw : option params) (opts : t) : t :=
  {| ScanConsistency := ScanConsistency opts; Limit := limit; Skip := Skip opts;
     Explain := Explain opts; Highlight := Highlight opts;
     Fields := Fields opts; Sort := Sort opts; Facets := Facets opts;
     ConsistentWith := ConsistentWith opts; Raw := raw; Timeout := Timeout opts;
     RetryStrategy := RetryStrategy opts; parentSpan := parentSpan opts |}.

(** The local variables of [toMap] at its final [return]. *)
Record locals := { data : params; ctl : option params }.

(** [if ctl == nil { ctl = make(...) }; ctl["consistency"] = consistency] *)
Definition set_consistency (ctl : option params) (consistency : params)
    : option params :=
  let ctl := match ctl with None => Some ∅ | Some c => Some c end in
  (<["consistency" := VMap consistency]>) <$> ctl.

(** The body of [toMap] up to its final [return data, nil]: either the error
    of an early [return nil, err], or the locals at the end. *)
Definition toMap_body {R : RangeOrder} (opts : t) : error + locals :=
  let data : params := ∅ in
  let data := <["size" := VInt (Limit opts)]> data in
  let data := <["from" := VInt (Skip opts)]> data in
  let data := <["explain" := VBool (Explain opts)]> data in
  let data := <["fields" := VStrings (Fields opts)]> data in
  let data := <["sort" := VSorts (Sort opts)]> data in
  let data :=
    match Highlight opts with
    | Some h =>
        let highlight : params := ∅ in
        let highlight :=
          <["style" := VString (SearchHighlightOptions.Style h)]> highlight in
        let highlight :=
          <["fields" := VStrings (SearchHighlightOptions.Fields h)]> highlight in
        <["highlight" := VMap highlight]> data
    | None => data
    end in
  let data :=
    match Facets opts with
    | Some fs =>
        let facets : params :=
          range fs (λ k v facets, <[k := VFacet v]> facets) ∅ in
        <["facets" := VMap facets]> data
    | None => data
    end in
  if bool_decide (ScanConsistency opts ≠ 0) && bool_decide (ConsistentWith opts ≠ None)
  then inl (makeInvalidArgumentsError
              "ScanConsistency and ConsistentWith must be used exclusively")
  else
    let ctl : option params := None in
    let ctl_or_err : error + option params :=
      if bool_decide (ScanConsistency opts ≠ searchScanConsistencyNotSet) then
        let consistency : params := ∅ in
        if bool_decide (ScanConsistency opts = SearchScanConsistencyNotBounded) then
          let consistency := <["level" := VString "not_bounded"]> consistency in
          inr (set_consistency ctl consistency)
        else inl (makeInvalidArgumentsError "unexpected consistency option")
      else inr ctl in
    match ctl_or_err with
    | inl err => inl err
    | inr ctl =>
        let ctl :=
          match ConsistentWith opts with
          | Some ms =>
              let consistency : params := ∅ in
              let consistency := <["level" := VString "at_plus"]> consistency in
              let consistency :=
                <["vectors" := toSearchMutationState ms]> consistency in
              set_consistency ctl consistency
          | None => ctl
          end in
        let data :=
          range_nilable (Raw opts) (λ k v data, <[k := v]> data) data in
        inr {| data := data; ctl := ctl |}
    end.

(** [func (opts *SearchOptions) toMap() (map[string]interface{}, error)] *)
Definition toMap {R : RangeOrder} (opts : t) : option params * option error :=
  match toMap_body opts with
  | inl err => (None, Some err)
  | inr l => (Some (data l), None)
  end.

End SearchOptions.

(** ** [analyticsquery_options.go]: analytics options *)

(** [strings.HasPrefix(key, "$")] *)
Definition HasPrefix (s pre : string) : bool := String.prefix pre s.

(** The first statement of the loop over the named parameters:
    [if !strings.HasPrefix(key, "$") { key = "$" + key }]. *)
Definition dollarKey (key : string) : string :=
  if negb (HasPrefix key "$") then "$" ++ key else key.

Module AnalyticsOptions.

(** [Context] and [Serializer] are not read by [toMap]. *)
Record t := {
  ServerSideTimeout : Duration;
  Context : option string;
  ClientContextID : string;
  Raw : option params;
  Priority : bool;
  PositionalParameters : option (list value);
  NamedParameters : option params;
  ReadOnly : bool;
  Serializer : option string
}.

(** [AnalyticsOptions{}], and setting the fields the encoder branches on. *)
Definition zero : t :=
  {| ServerSideTimeout := 0; Context := None; ClientContextID := "";
     Raw := None; Priority := false; PositionalParameters := None;
     NamedParameters := None; ReadOnly := false; Serializer := None |}.

Definition with_parameters (positional : option (list value))
    (named : option params) (opts : t) : t :=
  {| ServerSideTimeout := ServerSideTimeout opts; Context := Context opts;
     ClientContextID := ClientContextID opts; Raw := Raw opts;
     Priority := Priority opts; PositionalParameters := positional;
     NamedParameters := named; ReadOnly := ReadOnly opts;
     Serializer := Serializer opts |}.

Definition with_Raw_ReadOnly (raw : option params) (readOnly : bool) (opts : t)
    : t :=
  {| ServerSideTimeout := ServerSideTimeout opts; Context := Context opts;
     ClientContextID := ClientContextID opts; Raw := raw;
     Priority := Priority opts;
     PositionalParameters := PositionalParameters opts;
     NamedParameters := NamedParameters opts; ReadOnly := readOnly;
     Serializer := Serializer opts |}.

(** [func (opts *AnalyticsOptions) toMap(statement string)
       (map[string]interface{}, error)].

    [fresh] is the identifier [uuid.New()] hands out when it is called;
    [Duration_String] is [time.Duration]'s [String] method, which belongs to
    the Go library and is left uninterpreted. *)
Definition toMap {R : RangeOrder} (Duration_String : Duration → string)
    (fresh : UUID) (opts : t) (statement : string)
    : option params * option error :=
  let execOpts : params := ∅ in
  let execOpts := <["statement" := VString statement]> execOpts in
  let execOpts :=
    if bool_decide (ServerSideTimeout opts ≠ 0)
    then <["timeout" := VString (Duration_String (ServerSideTimeout opts))]> execOpts
    else execOpts in
  let execOpts :=
    if bool_decide (ClientContextID opts = "")
    then <["client_context_id" := VUUID fresh]> execOpts
    else <["client_context_id" := VString (ClientContextID opts)]> execOpts in
  let execOpts :=
    if Priority opts then <["priority" := VInt (-1)]> execOpts else execOpts in
  if bool_decide (PositionalParameters opts ≠ None)
     && bool_decide (NamedParameters opts ≠ None)
  then (None, Some (errors_New
                      "Positional and named parameters must be used exclusively"))
  else
    let execOpts :=
      match PositionalParameters opts with
      | Some args => <["args" := VSlice (Some args)]> execOpts
      | None => execOpts
      end in
    let execOpts :=
      range_nilable (NamedParameters opts)
        (λ key value execOpts,
           let key := dollarKey key in
           <[key := value]> execOpts)
        execOpts in
    let execOpts :=
      range_nilable (Raw opts) (λ k v execOpts, <[k := v]> execOpts) execOpts in
    let execOpts :=
      if ReadOnly opts then <["readonly" := VBool true]> execOpts else execOpts in
    (Some execOpts, None).

End AnalyticsOptions.

(** ** [error_wrapping.go]: error enhancement *)

(** Modelled from the spec: [translateCoreRetryReasons] is declared in a file
    that is not part of the sources at hand.  The spec has the transport's
    retry-reason list re-expressed as the domain's retry-reason type,
    string for string. *)
Definition translateCoreRetryReasons (reasons : list gocbcore.RetryReason)
    : list RetryReason :=
  (λ r, {| Description := gocbcore.Description r |}) <$> reasons.

(** Modelled from the spec: [translateCoreViewErrorDesc],
    [translateCoreQueryErrorDesc] and [translateCoreAnalyticsErrorDesc] are
    declared in files that are not part of the sources at hand.  The spec has
    each inner list of structured sub-errors re-expressed, element by element,
    as the corresponding domain sub-error type. *)
Definition translateCoreViewErrorDesc (descs : list gocbcore.ViewErrorDesc.t)
    : list ViewErrorDesc.t :=
  (λ d, {| ViewErrorDesc.SourceNode := gocbcore.ViewErrorDesc.SourceNode d;
           ViewErrorDesc.Message := gocbcore.ViewErrorDesc.Message d |}) <$> descs.

(** Modelled from the spec: as [translateCoreViewErrorDesc], for the
    sub-errors of a query error. *)
Definition translateCoreQueryErrorDesc (descs : list gocbcore.N1QLErrorDesc.t)
    : list QueryErrorDesc.t :=
  (λ d, {| QueryErrorDesc.Code := gocbcore.N1QLErrorDesc.Code d;
           QueryErrorDesc.Message := gocbcore.N1QLErrorDesc.Message d |}) <$> descs.

(** Modelled from the spec: as [translateCoreViewErrorDesc], for the
    sub-errors of an analytics error. *)
Definition translateCoreAnalyticsErrorDesc
    (descs : list gocbcore.AnalyticsErrorDesc.t) : list AnalyticsErrorDesc.t :=
  (λ d, {| AnalyticsErrorDesc.Code := gocbcore.AnalyticsErrorDesc.Code d;
           AnalyticsErrorDesc.Message := gocbcore.AnalyticsErrorDesc.Message d |})
  <$> descs.

(** [func maybeEnhanceCoreErr(err error) error]: a chain of type assertions
    on the dynamic type of [err]; a [nil] error matches none of them. *)
Definition maybeEnhanceCoreErr (err : option error) : option error :=
  match err with
  | Some (core_KeyValueError kvErr) =>
      Some (gocb_KeyValueError {|
        KeyValueError.InnerError := gocbcore.KeyValueError.InnerError kvErr;
        KeyValueError.StatusCode := gocbcore.KeyValueError.StatusCode kvErr;
        KeyValueError.BucketName := gocbcore.KeyValueError.BucketName kvErr;
        KeyValueError.ScopeName := gocbcore.KeyValueError.ScopeName kvErr;
        KeyValueError.CollectionName := gocbcore.KeyValueError.CollectionName kvErr;
        KeyValueError.CollectionID := gocbcore.KeyValueError.CollectionID kvErr;
        KeyValueError.ErrorName := gocbcore.KeyValueError.ErrorName kvErr;
        KeyValueError.ErrorDescription :=
          gocbcore.KeyValueError.ErrorDescription kvErr;
        KeyValueError.Opaque := gocbcore.KeyValueError.Opaque kvErr;
        KeyValueError.Context := gocbcore.KeyValueError.Context kvErr;
        KeyValueError.Ref := gocbcore.KeyValueError.Ref kvErr;
        KeyValueError.RetryReasons :=
          translateCoreRetryReasons (gocbcore.KeyValueError.RetryReasons kvErr);
        KeyValueError.RetryAttempts := gocbcore.KeyValueError.RetryAttempts kvErr
      |})
  | Some (core_ViewError viewErr) =>
      Some (gocb_ViewError {|
        ViewError.InnerError := gocbcore.ViewError.InnerError viewErr;
        ViewError.DesignDocumentName :=
          gocbcore.ViewError.DesignDocumentName viewErr;
        ViewError.ViewName := gocbcore.ViewError.ViewName viewErr;
        ViewError.Errors :=
          translateCoreViewErrorDesc (gocbcore.ViewError.Errors viewErr);
        ViewError.Endpoint := gocbcore.ViewError.Endpoint viewErr;
        ViewError.RetryReasons :=
          translateCoreRetryReasons (gocbcore.ViewError.RetryReasons viewErr);
        ViewError.RetryAttempts := gocbcore.ViewError.RetryAttempts viewErr
      |})
  | Some (core_N1QLError queryErr) =>
      Some (gocb_QueryError {|
        QueryError.InnerError := gocbcore.N1QLError.InnerError queryErr;
        QueryError.Statement := gocbcore.N1QLError.Statement queryErr;
        QueryError.ClientContextID := gocbcore.N1QLError.ClientContextID queryErr;
        QueryError.Errors :=
          translateCoreQueryErrorDesc (gocbcore.N1QLError.Errors queryErr);
        QueryError.Endpoint := gocbcore.N1QLError.Endpoint queryErr;
        QueryError.RetryReasons :=
          translateCoreRetryReasons (gocbcore.N1QLError.RetryReasons queryErr);
        QueryError.RetryAttempts := gocbcore.N1QLError.RetryAttempts queryErr
      |})
  | Some (core_AnalyticsError analyticsErr) =>
      Some (gocb_AnalyticsError {|
        AnalyticsError.InnerError :=
          gocbcore.AnalyticsError.InnerError analyticsErr;
        AnalyticsError.Statement := gocbcore.AnalyticsError.Statement analyticsErr;
        AnalyticsError.ClientContextID :=
          gocbcore.AnalyticsError.ClientContextID analyticsErr;
        AnalyticsError.Errors :=
          translateCoreAnalyticsErrorDesc
            (gocbcore.AnalyticsError.Errors analyticsErr);
        AnalyticsError.Endpoint := gocbcore.AnalyticsError.Endpoint analyticsErr;
        AnalyticsError.RetryReasons :=
          translateCoreRetryReasons
            (gocbcore.AnalyticsError.RetryReasons analyticsErr);
        AnalyticsError.RetryAttempts :=
          gocbcore.AnalyticsError.RetryAttempts analyticsErr
      |})
  | Some (core_HTTPError httpErr) =>
      Some (gocb_HTTPError {|
        HTTPError.InnerError := gocbcore.HTTPError.InnerError httpErr;
        HTTPError.UniqueID := gocbcore.HTTPError.UniqueID httpErr;
        HTTPError.Endpoint := gocbcore.HTTPError.Endpoint httpErr;
        HTTPError.RetryReasons :=
          translateCoreRetryReasons (gocbcore.HTTPError.RetryReasons httpErr);
        HTTPError.RetryAttempts := gocbcore.HTTPError.RetryAttempts httpErr
      |})
  | _ => err
  end.

(** Whether an error value has one of the five transport shapes. *)
Definition isCoreErr (err : option error) : bool :=
  match err with
  | Some (core_KeyValueError _) | Some (core_ViewError _)
  | Some (core_N1QLError _) | Some (core_AnalyticsError _)
  | Some (core_HTTPError _) => true
  | _ => false
  end.

(** ** A state monad for the stateful code *)

Definition M (S A : Type) : Type := S → A * S.

#[export] Instance M_ret {S : Type} : MRet (M S) := λ A a s, (a, s).

#[export] Instance M_bind {S : Type} : MBind (M S) :=
  λ A B k m s, let '(a, s') := m s in k a s'.

Definition get {S : Type} : M S S := λ s, (s, s).

Definition modify {S : Type} (f : S → S) : M S unit := λ s, (tt, f s).

(** [when err != nil { body err }] *)
Definition whenSome {S E : Type} (o : option E) (body : E → M S unit) : M S unit :=
  match o with
  | Some e => body e
  | None => mret tt
  end.

(** ** Clients, the heap they live on, and the transport behind them *)

(** A [client] interface value that is not [nil] is the address of a client
    object; a possibly-[nil] client is an [option client]. *)
Definition client := nat.

Module clientStateBlock.
Record t := { BucketName : string }.
End clientStateBlock.

(** What the cluster code can observe of a client object. *)
Record clientObj := {
  clientSb : clientStateBlock.t;
  bootstrapErr : option error;
  isConnected : bool;
  gcccp : bool
}.

Module ThresholdLoggingOptions.
Record t := { ServerDurationDisabled : bool }.
End ThresholdLoggingOptions.

Inductive requestTracer : Type :=
  | noopTracer
  | thresholdLoggingTracer (opts : option ThresholdLoggingOptions.t).

(** Calls that leave the cluster code, with the result that came back. *)
Inductive event : Type :=
  | EvNewClient (c : client) (sb : clientStateBlock.t)
  | EvBuildConfig (c : client) (r : option error)
  | EvConnect (c : client) (r : option error)
  | EvSelectBucket (c : client) (bucketName : string) (r : option error)
  | EvClose (c : client) (r : option error)
  | EvLogWarnf (format : string) (err : error)
  | EvTracerAddRef (t : requestTracer)
  | EvTracerDecRef (t : requestTracer).

Record world := {
  heap : gmap client clientObj;
  log : list event
}.

Module ConnSpec.
Record t := { Options : gmap string (list string) }.
End ConnSpec.

(** The collaborators of the cluster code: the connection-string parser, the
    Go library's integer parser, the identity hash of a client state block and
    the outcome of every call into the transport, which may depend on all
    that happened before (the log), and what a close does to the connection.
    Nothing is assumed about them. *)
Class Env := {
  gocbconnstr_Parse : string → ConnSpec.t + error;
  strconv_ParseInt : string → option Z;
  Hash : clientStateBlock.t → string;
  buildConfig_outcome : list event → client → option error;
  connect_outcome : list event → client → option error;
  connect_gcccp : list event → client → bool;
  selectBucket_outcome : list event → client → string → option error;
  close_outcome : list event → client → option error;
  close_effect : list event → client → clientObj → clientObj
}.

Definition set_heap (h : gmap client clientObj) (w : world) : world :=
  {| heap := h; log := log w |}.

Definition emit (ev : event) : M world unit :=
  modify (λ w, {| heap := heap w; log := log w ++ [ev] |}).

Definition update_client (c : client) (f : clientObj → clientObj) : M world unit :=
  modify (λ w, set_heap (alter f c (heap w)) w).

(** Modelled from the spec: the client implementation ([newClient] and the
    methods of the [client] interface) is declared in files that are not part
    of the sources at hand.  A connection is created unconnected; a successful
    connect makes it connected; a bootstrap error is stored on the connection
    and read back from it; the other calls only reach the transport. *)
Definition newClient (sb : clientStateBlock.t) : M world client :=
  λ w,
    let c : client := fresh (dom (heap w)) in
    let obj := {| clientSb := sb; bootstrapErr := None;
                  isConnected := false; gcccp := false |} in
    (c, {| heap := <[c := obj]> (heap w); log := log w ++ [EvNewClient c sb] |}).

(** Modelled from the spec: [buildConfiguration], a call into the transport
    that succeeds or fails. *)
Definition client_buildConfig {E : Env} (c : client) : M world (option error) :=
  w ← get;
  let r := buildConfig_outcome (log w) c in
  emit (EvBuildConfig c r);;
  mret r.

(** Modelled from the spec: [connect], a call into the transport; success
    makes the connection connected and settles whether it supports
    cluster-level operations. *)
Definition client_connect {E : Env} (c : client) : M world (option error) :=
  w ← get;
  let r := connect_outcome (log w) c in
  let g := connect_gcccp (log w) c in
  emit (EvConnect c r);;
  (if bool_decide (r = None)
   then update_client c (λ o, {| clientSb := clientSb o;
                                 bootstrapErr := bootstrapErr o;
                                 isConnected := true; gcccp := g |})
   else mret tt);;
  mret r.

(** Modelled from the spec: [selectBucket(name)], a call into the transport
    that succeeds or fails. *)
Definition client_selectBucket {E : Env} (c : client) (bucketName : string)
    : M world (option error) :=
  w ← get;
  let r := selectBucket_outcome (log w) c bucketName in
  emit (EvSelectBucket c bucketName r);;
  mret r.

(** Modelled from the spec: [close], a call into the transport that
    succeeds or fails.  The spec makes closed a terminal state of a
    connection; what closing does to the connection object is the
    transport's ([close_effect]), and nothing is assumed about it. *)
Definition client_close {E : Env} (c : client) : M world (option error) :=
  w ← get;
  let r := close_outcome (log w) c in
  emit (EvClose c r);;
  update_client c (close_effect (log w) c);;
  mret r.

(** Modelled from the spec: the bootstrap error is stored on the connection
    ([setBootstrapError]) and surfaced verbatim ([getBootstrapError]). *)
Definition client_setBootstrapError (c : client) (err : error) : M world unit :=
  update_client c (λ o, {| clientSb := clientSb o; bootstrapErr := Some err;
                           isConnected := isConnected o; gcccp := gcccp o |}).

(** Modelled from the spec: [bootstrapError], [None] when none is recorded. *)
Definition client_getBootstrapError (c : client) (w : world) : option error :=
  heap w !! c ≫= bootstrapErr.

(** Modelled from the spec: [isConnected]. *)
Definition client_connected (c : client) (w : world) : bool :=
  from_option isConnected false (heap w !! c).

(** Modelled from the spec: [supportsClusterLevelOperations]. *)
Definition client_supportsGCCCP (c : client) (w : world) : bool :=
  from_option gcccp false (heap w !! c).

(** Modelled from the spec: logging and the tracer's reference counting are
    declared elsewhere; they are side effects, recorded as events. *)
Definition logWarnf (format : string) (err : error) : M world unit :=
  emit (EvLogWarnf format err).

Definition tracerAddRef (t : requestTracer) : M world unit :=
  emit (EvTracerAddRef t).

Definition tracerDecRef (t : requestTracer) : M world unit :=
  emit (EvTracerDecRef t).

(** ** [searchquery_options.go], second part: the cluster *)

(** Interfaces and configuration blocks the cluster only stores; they are
    declared in files that are not part of the sources at hand, and only the
    constructors [Connect] calls are given. *)
Inductive Transcoder : Type :=
  | JSONTranscoder
  | customTranscoder (name : string).

Inductive RetryStrategy : Type :=
  | BestEffortRetryStrategy (calculator : option string)
  | customRetryStrategy (name : string).

Record retryStrategyWrapper := { wrapped : RetryStrategy }.
Record CircuitBreakerConfig := { circuitBreaker_repr : string }.
Record Authenticator := { authenticator_repr : string }.
Record queryCacheEntry := { queryCacheEntry_repr : string }.
Record bucketOptions := { bucketOptions_repr : string }.
Record ClusterCloseOptions := { }.

Definition NewJSONTranscoder : Transcoder := JSONTranscoder.
Definition NewBestEffortRetryStrategy (calculator : option string) : RetryStrategy :=
  BestEffortRetryStrategy calculator.
Definition newRetryStrategyWrapper (s : RetryStrategy) : retryStrategyWrapper :=
  {| wrapped := s |}.
Definition newThresholdLoggingTracer (opts : option ThresholdLoggingOptions.t)
    : requestTracer :=
  thresholdLoggingTracer opts.

Module stateBlock.
Record t := {
  clientStateBlock : clientStateBlock.t;
  ConnectTimeout : Duration;
  QueryTimeout : Duration;
  AnalyticsTimeout : Duration;
  SearchTimeout : Duration;
  ViewTimeout : Duration;
  KvTimeout : Duration;
  DuraTimeout : Duration;
  DuraPollTimeout : Duration;
  Transcoder : Transcoder;
  UseMutationTokens : bool;
  ManagementTimeout : Duration;
  RetryStrategyWrapper : retryStrategyWrapper;
  OrphanLoggerEnabled : bool;
  OrphanLoggerInterval : Duration;
  OrphanLoggerSampleSize : Z;
  UseServerDurations : bool;
  Tracer : option requestTracer;
  CircuitBreakerConfig : CircuitBreakerConfig
}.

(** The four timeouts a connection string may override, the tracer that
    [Close] resets, and the bucket name: the only fields written after the
    block has been built. *)
Definition with_overrides (sb : t) (csb : clientStateBlock.t)
    (query analytics search view : Duration) (tracer : option requestTracer) : t :=
  {| clientStateBlock := csb;
     ConnectTimeout := ConnectTimeout sb;
     QueryTimeout := query;
     AnalyticsTimeout := analytics;
     SearchTimeout := search;
     ViewTimeout := view;
     KvTimeout := KvTimeout sb;
     DuraTimeout := DuraTimeout sb;
     DuraPollTimeout := DuraPollTimeout sb;
     Transcoder := Transcoder sb;
     UseMutationTokens := UseMutationTokens sb;
     ManagementTimeout := ManagementTimeout sb;
     RetryStrategyWrapper := RetryStrategyWrapper sb;
     OrphanLoggerEnabled := OrphanLoggerEnabled sb;
     OrphanLoggerInterval := OrphanLoggerInterval sb;
     OrphanLoggerSampleSize := OrphanLoggerSampleSize sb;
     UseServerDurations := UseServerDurations sb;
     Tracer := tracer;
     CircuitBreakerConfig := CircuitBreakerConfig sb |}.

Definition set_QueryTimeout (d : Duration) (sb : t) : t :=
  with_overrides sb (clientStateBlock sb) d (AnalyticsTimeout sb)
    (SearchTimeout sb) (ViewTimeout sb) (Tracer sb).
Definition set_AnalyticsTimeout (d : Duration) (sb : t) : t :=
  with_overrides sb (clientStateBlock sb) (QueryTimeout sb) d
    (SearchTimeout sb) (ViewTimeout sb) (Tracer sb).
Definition set_SearchTimeout (d : Duration) (sb : t) : t :=
  with_overrides sb (clientStateBlock sb) (QueryTimeout sb) (AnalyticsTimeout sb)
    d (ViewTimeout sb) (Tracer sb).
Definition set_ViewTimeout (d : Duration) (sb : t) : t :=
  with_overrides sb (clientStateBlock sb) (QueryTimeout sb) (AnalyticsTimeout sb)
    (SearchTimeout sb) d (Tracer sb).
Definition set_Tracer (tr : option requestTracer) (sb : t) : t :=
  with_overrides sb (clientStateBlock sb) (QueryTimeout sb) (AnalyticsTimeout sb)
    (SearchTimeout sb) (ViewTimeout sb) tr.
Definition set_clientStateBlock (csb : clientStateBlock.t) (sb : t) : t :=
  with_overrides sb csb (QueryTimeout sb) (AnalyticsTimeout sb)
    (SearchTimeout sb) (ViewTimeout sb) (Tracer sb).
End stateBlock.

Module ClusterOptions.
Record t := {
  Authenticator : option Authenticator;
  ConnectTimeout : Duration;
  KVTimeout : Duration;
  ViewTimeout : Duration;
  QueryTimeout : Duration;
  AnalyticsTimeout : Duration;
  SearchTimeout : Duration;
  ManagementTimeout : Duration;
  Transcoder : option Transcoder;
  DisableMutationTokens : bool;
  RetryStrategy : option RetryStrategy;
  OrphanLoggerDisabled : bool;
  OrphanLoggerInterval : Duration;
  OrphanLoggerSampleSize : Z;
  ThresholdLoggerDisabled : bool;
  ThresholdLoggingOptions : option ThresholdLoggingOptions.t;
  CircuitBreakerConfig : CircuitBreakerConfig
}.

(** [ClusterOptions{}], and setting the search and management timeouts. *)
Definition zero : t :=
  {| Authenticator := None; ConnectTimeout := 0; KVTimeout := 0;
     ViewTimeout := 0; QueryTimeout := 0; AnalyticsTimeout := 0;
     SearchTimeout := 0; ManagementTimeout := 0; Transcoder := None;
     DisableMutationTokens := false; RetryStrategy := None;
     OrphanLoggerDisabled := false; OrphanLoggerInterval := 0;
     OrphanLoggerSampleSize := 0; ThresholdLoggerDisabled := false;
     ThresholdLoggingOptions := None;
     CircuitBreakerConfig := {| circuitBreaker_repr := "" |} |}.

Definition with_timeouts (search management : Duration) (opts : t) : t :=
  {| Authenticator := Authenticator opts;
     ConnectTimeout := ConnectTimeout opts; KVTimeout := KVTimeout opts;
     ViewTimeout := ViewTimeout opts; QueryTimeout := QueryTimeout opts;
     AnalyticsTimeout := AnalyticsTimeout opts;
     SearchTimeout := search; ManagementTimeout := management;
     Transcoder := Transcoder opts;
     DisableMutationTokens := DisableMutationTokens opts;
     RetryStrategy := RetryStrategy opts;
     OrphanLoggerDisabled := OrphanLoggerDisabled opts;
     OrphanLoggerInterval := OrphanLoggerInterval opts;
     OrphanLoggerSampleSize := OrphanLoggerSampleSize opts;
     ThresholdLoggerDisabled := ThresholdLoggerDisabled opts;
     ThresholdLoggingOptions := ThresholdLoggingOptions opts;
     CircuitBreakerConfig := CircuitBreakerConfig opts |}.
End ClusterOptions.

Module Cluster.
(** The two locks are left out: the embedding runs one call at a time. *)
Record t := {
  cSpec : ConnSpec.t;
  auth : option Authenticator;
  connections : gmap string client;
  clusterClient : option client;
  queryCache : gmap string queryCacheEntry;
  sb : stateBlock.t;
  supportsEnhancedStatements : Z;
  supportsGCCCP : bool
}.

Definition set_connections (conns : gmap string client) (c : t) : t :=
  {| cSpec := cSpec c; auth := auth c; connections := conns;
     clusterClient := clusterClient c; queryCache := queryCache c; sb := sb c;
     supportsEnhancedStatements := supportsEnhancedStatements c;
     supportsGCCCP := supportsGCCCP c |}.

Definition set_clusterClient (cli : option client) (c : t) : t :=
  {| cSpec := cSpec c; auth := auth c; connections := connections c;
     clusterClient := cli; queryCache := queryCache c; sb := sb c;
     supportsEnhancedStatements := supportsEnhancedStatements c;
     supportsGCCCP := supportsGCCCP c |}.

Definition set_sb (b : stateBlock.t) (c : t) : t :=
  {| cSpec := cSpec c; auth := auth c; connections := connections c;
     clusterClient := clusterClient c; queryCache := queryCache c; sb := b;
     supportsEnhancedStatements := supportsEnhancedStatements c;
     supportsGCCCP := supportsGCCCP c |}.

Definition set_supportsGCCCP (g : bool) (c : t) : t :=
  {| cSpec := cSpec c; auth := auth c; connections := connections c;
     clusterClient := clusterClient c; queryCache := queryCache c; sb := sb c;
     supportsEnhancedStatements := supportsEnhancedStatements c;
     supportsGCCCP := g |}.
End Cluster.

(** [int64] wrap-around, for [time.Duration(val) * time.Millisecond]. *)
Definition wrap64 (z : Z) : Z := (z + 2 ^ 63) `mod` 2 ^ 64 - 2 ^ 63.

(** The closure [fetchOption] of [parseExtraConnStrOptions]: the last value
    given for an option, if any. *)
Definition fetchOption (spec : ConnSpec.t) (name : string) : option string :=
  last (default [] (ConnSpec.Options spec !! name)).

(** One stanza of [parseExtraConnStrOptions]: [inl] is [return
    fmt.Errorf(...)], [inr sb] is falling through to the next stanza. *)
Definition parseTimeoutOption {E : Env} (spec : ConnSpec.t) (name : string)
    (set : Duration → stateBlock.t → stateBlock.t) (sb : stateBlock.t)
    : error + stateBlock.t :=
  match fetchOption spec name with
  | Some valStr =>
      match strconv_ParseInt valStr with
      | None => inl (fmt_Errorf (name ++ " option must be a number"))
      | Some val => inr (set (wrap64 (val * Millisecond)) sb)
      end
  | None => inr sb
  end.

(** Running the next stanza unless an earlier one returned its error; the
    timeouts that earlier stanzas stored stay stored. *)
Definition and_then (r : stateBlock.t * option error)
    (k : stateBlock.t → error + stateBlock.t) : stateBlock.t * option error :=
  match r with
  | (sb, Some err) => (sb, Some err)
  | (sb, None) =>
      match k sb with
      | inl err => (sb, Some err)
      | inr sb' => (sb', None)
      end
  end.

(** [func (c *Cluster) parseExtraConnStrOptions(spec gocbconnstr.ConnSpec) error];
    the receiver is updated in place, also when a later stanza fails. *)
Definition parseExtraConnStrOptions {E : Env} (spec : ConnSpec.t) (c : Cluster.t)
    : Cluster.t * option error :=
  let '(sb, err) :=
    and_then
      (and_then
         (and_then
            (and_then (Cluster.sb c, None)
               (parseTimeoutOption spec "n1ql_timeout"
                  stateBlock.set_QueryTimeout))
            (parseTimeoutOption spec "analytics_timeout"
               stateBlock.set_AnalyticsTimeout))
         (parseTimeoutOption spec "search_timeout" stateBlock.set_SearchTimeout))
      (parseTimeoutOption spec "view_timeout" stateBlock.set_ViewTimeout) in
  (Cluster.set_sb sb c, err).

(** [func Connect(connStr string, opts ClusterOptions)], returning a pointer
    to the new cluster, or an error. *)
Definition Connect {E : Env} (connStr : string) (opts : ClusterOptions.t)
    : M world (option Cluster.t * option error) :=
  match gocbconnstr_Parse connStr with
  | inr err => mret (None, Some err)
  | inl connSpec =>
      let connectTimeout := 10000 * Millisecond in
      let kvTimeout := 2500 * Millisecond in
      let viewTimeout := 75000 * Millisecond in
      let queryTimeout := 75000 * Millisecond in
      let analyticsTimeout := 75000 * Millisecond in
      let searchTimeout := 75000 * Millisecond in
      let managementTimeout := 75000 * Millisecond in
      let connectTimeout :=
        if bool_decide (ClusterOptions.ConnectTimeout opts > 0)
        then ClusterOptions.ConnectTimeout opts else connectTimeout in
      let kvTimeout :=
        if bool_decide (ClusterOptions.KVTimeout opts > 0)
        then ClusterOptions.KVTimeout opts else kvTimeout in
      let viewTimeout :=
        if bool_decide (ClusterOptions.ViewTimeout opts > 0)
        then ClusterOptions.ViewTimeout opts else viewTimeout in
      let queryTimeout :=
        if bool_decide (ClusterOptions.QueryTimeout opts > 0)
        then ClusterOptions.QueryTimeout opts else queryTimeout in
      let analyticsTimeout :=
        if bool_decide (ClusterOptions.AnalyticsTimeout opts > 0)
        then ClusterOptions.AnalyticsTimeout opts else analyticsTimeout in
      let searchTimeout :=
        if bool_decide (ClusterOptions.SearchTimeout opts > 0)
        then ClusterOptions.SearchTimeout opts else searchTimeout in
      let managementTimeout :=
        if bool_decide (ClusterOptions.ManagementTimeout opts > 0)
        then ClusterOptions.SearchTimeout opts else managementTimeout in
      let opts_Transcoder :=
        default NewJSONTranscoder (ClusterOptions.Transcoder opts) in
      let opts_RetryStrategy :=
        default (NewBestEffortRetryStrategy None)
          (ClusterOptions.RetryStrategy opts) in
      let useServerDurations := true in
      let '(initialTracer, useServerDurations) :=
        if ClusterOptions.ThresholdLoggerDisabled opts
        then (noopTracer, useServerDurations)
        else
          (newThresholdLoggingTracer (ClusterOptions.ThresholdLoggingOptions opts),
           match ClusterOptions.ThresholdLoggingOptions opts with
           | Some tlo =>
               if ThresholdLoggingOptions.ServerDurationDisabled tlo
               then false else useServerDurations
           | None => useServerDurations
           end) in
      tracerAddRef initialTracer;;
      let cluster := {|
        Cluster.cSpec := connSpec;
        Cluster.auth := ClusterOptions.Authenticator opts;
        Cluster.connections := ∅;
        Cluster.clusterClient := None;
        Cluster.queryCache := ∅;
        Cluster.sb := {|
          stateBlock.clientStateBlock := {| clientStateBlock.BucketName := "" |};
          stateBlock.ConnectTimeout := connectTimeout;
          stateBlock.QueryTimeout := queryTimeout;
          stateBlock.AnalyticsTimeout := analyticsTimeout;
          stateBlock.SearchTimeout := searchTimeout;
          stateBlock.ViewTimeout := viewTimeout;
          stateBlock.KvTimeout := kvTimeout;
          stateBlock.DuraTimeout := 40000 * Millisecond;
          stateBlock.DuraPollTimeout := 100 * Millisecond;
          stateBlock.Transcoder := opts_Transcoder;
          stateBlock.UseMutationTokens :=
            negb (ClusterOptions.DisableMutationTokens opts);
          stateBlock.ManagementTimeout := managementTimeout;
          stateBlock.RetryStrategyWrapper :=
            newRetryStrategyWrapper opts_RetryStrategy;
          stateBlock.OrphanLoggerEnabled :=
            negb (ClusterOptions.OrphanLoggerDisabled opts);
          stateBlock.OrphanLoggerInterval :=
            ClusterOptions.OrphanLoggerInterval opts;
          stateBlock.OrphanLoggerSampleSize :=
            ClusterOptions.OrphanLoggerSampleSize opts;
          stateBlock.UseServerDurations := useServerDurations;
          stateBlock.Tracer := Some initialTracer;
          stateBlock.CircuitBreakerConfig :=
            ClusterOptions.CircuitBreakerConfig opts
        |};
        Cluster.supportsEnhancedStatements := 0;
        Cluster.supportsGCCCP := false
      |} in
      match parseExtraConnStrOptions connSpec cluster with
      | (_, Some err) => mret (None, Some err)
      | (cluster, None) =>
          let csb := {| clientStateBlock.BucketName := "" |} in
          cli ← newClient csb;
          err ← client_buildConfig cli;
          match err with
          | Some err => mret (None, Some err)
          | None =>
              err ← client_connect cli;
              match err with
              | Some err => mret (None, Some err)
              | None =>
                  w ← get;
                  let cluster := Cluster.set_clusterClient (Some cli) cluster in
                  let cluster :=
                    Cluster.set_supportsGCCCP (client_supportsGCCCP cli w)
                      cluster in
                  mret (Some cluster, None)
              end
          end
      end
  end.

(** The state the cluster's methods run in: the receiver and the world. *)
Record cstate := { this : Cluster.t; wld : world }.

Definition liftW {A : Type} (m : M world A) : M cstate A :=
  λ s, let '(a, w) := m (wld s) in (a, {| this := this s; wld := w |}).

Definition modify_this (f : Cluster.t → Cluster.t) : M cstate unit :=
  modify (λ s, {| this := f (this s); wld := wld s |}).

(** A loop over a list that carries local variables [a] through the
    iterations, and [for k, v := range m] written with it. *)
Fixpoint foldM {S A X : Type} (body : X → A → M S A) (xs : list X) (a : A)
    : M S A :=
  match xs with
  | [] => mret a
  | x :: xs => a ← body x a; foldM body xs a
  end.

Definition rangeM {R : RangeOrder} {V S A : Type} (m : gmap string V)
    (body : string → V → A → M S A) (a : A) : M S A :=
  foldM (λ kv, body kv.1 kv.2) (range_order m) a.

Module Bucket.
Record t := {
  sb : stateBlock.t;
  cachedClient : option client
}.
End Bucket.

(** Modelled from the spec: [newBucket], [Bucket.hash] and
    [Bucket.cacheClient] are declared in files that are not part of the
    sources at hand.  A bucket's connection identity is derived from its
    bucket name and the configuration it inherits from the cluster; the
    registry is keyed by the hash of that identity ([Hash]). *)
Definition newBucket (sb : stateBlock.t) (bucketName : string)
    (opts : bucketOptions) : Bucket.t :=
  {| Bucket.sb :=
       stateBlock.set_clientStateBlock
         {| clientStateBlock.BucketName := bucketName |} sb;
     Bucket.cachedClient := None |}.

(** Modelled from the spec: [Bucket.hash], the identity hash of the bucket's
    client state block, the same that [getClient] computes with [sb.Hash()]. *)
Definition Bucket_hash {E : Env} (b : Bucket.t) : string :=
  Hash (stateBlock.clientStateBlock (Bucket.sb b)).

(** Modelled from the spec: [Bucket.cacheClient] hands the connection to the
    bucket. *)
Definition Bucket_cacheClient (cli : client) (b : Bucket.t) : Bucket.t :=
  {| Bucket.sb := Bucket.sb b; Bucket.cachedClient := Some cli |}.

(** [func (c *Cluster) takeClusterClient() client] *)
Definition Cluster_takeClusterClient : M cstate (option client) :=
  s ← get;
  match Cluster.clusterClient (this s) with
  | Some cli =>
      modify_this (Cluster.set_clusterClient None);;
      mret (Some cli)
  | None => mret None
  end.

(** [func (c *Cluster) getClient(sb *clientStateBlock) client] *)
Definition Cluster_getClient {E : Env} (sb : clientStateBlock.t)
    : M cstate client :=
  s ← get;
  let hash := Hash sb in
  match Cluster.connections (this s) !! hash with
  | Some cli => mret cli
  | None => liftW (newClient sb)
  end.

(** [func (c *Cluster) Bucket(bucketName string, opts *bucketOptions)],
    returning a pointer to the bucket. *)
Definition Cluster_Bucket {E : Env} (bucketName : string)
    (opts : option bucketOptions) : M cstate Bucket.t :=
  let opts := default {| bucketOptions_repr := "" |} opts in
  s ← get;
  let b := newBucket (Cluster.sb (this s)) bucketName opts in
  cli ← Cluster_takeClusterClient;
  cli ← match cli with
        | None =>
            cli ← Cluster_getClient (stateBlock.clientStateBlock (Bucket.sb b));
            err ← liftW (client_buildConfig cli);
            match err with
            | None =>
                err ← liftW (client_connect cli);
                whenSome err (λ err, liftW (client_setBootstrapError cli err))
            | Some err => liftW (client_setBootstrapError cli err)
            end;;
            mret cli
        | Some cli =>
            err ← liftW (client_selectBucket cli bucketName);
            whenSome err (λ err, liftW (client_setBootstrapError cli err));;
            mret cli
        end;
  modify_this (λ c,
    Cluster.set_connections (<[Bucket_hash b := cli]> (Cluster.connections c)) c);;
  mret (Bucket_cacheClient cli b).

(** The loop of [randomClient]: [break] on the first connected client,
    otherwise remember the first bootstrap error that is not [nil]. *)
Fixpoint randomClient_loop (w : world) (conns : list (string * client))
    (randomClient : option client) (firstError : option error)
    : option client * option error :=
  match conns with
  | [] => (randomClient, firstError)
  | (_, c) :: conns =>
      if client_connected c w then (Some c, firstError)
      else if bool_decide (firstError = None)
      then randomClient_loop w conns randomClient (client_getBootstrapError c w)
      else randomClient_loop w conns randomClient firstError
  end.

(** [func (c *Cluster) randomClient() (client, error)]; it only reads. *)
Definition Cluster_randomClient {R : RangeOrder} (s : cstate)
    : option client * option error :=
  if bool_decide (size (Cluster.connections (this s)) = 0%nat)
  then (None, Some (errors_New "not connected to cluster"))
  else
    let '(randomClient, firstError) :=
      randomClient_loop (wld s) (range_order (Cluster.connections (this s)))
        None None in
    match randomClient with
    | None =>
        match firstError with
        | None => (None, Some (errors_New "not connected to cluster"))
        | Some firstError => (None, Some firstError)
        end
    | Some randomClient => (Some randomClient, None)
    end.

(** [func (c *Cluster) clusterOrRandomClient() (client, error)]; it only
    reads. *)
Definition Cluster_clusterOrRandomClient {R : RangeOrder} (s : cstate)
    : option client * option error :=
  match Cluster.clusterClient (this s) with
  | None =>
      let '(cli, err) := Cluster_randomClient s in
      match err with
      | Some err => (None, Some err)
      | None => (cli, None)
      end
  | Some cli =>
      if negb (client_supportsGCCCP cli (wld s))
      then (None, Some (errors_New
              "cluster-level operations not supported due to cluster version"))
      else (Some cli, None)
  end.

(** The body shared by the two close sites of [Close]: close, and on failure
    warn and overwrite [overallErr]. *)
Definition close_and_note {E : Env} (format : string) (conn : client)
    (overallErr : option error) : M cstate (option error) :=
  err ← liftW (client_close conn);
  match err with
  | Some err => liftW (logWarnf format err);; mret (Some err)
  | None => mret overallErr
  end.

(** The body of the loop of [Close]: close the connection, then delete its
    entry from the registry. *)
Definition Close_step {E : Env} (key : string) (conn : client)
    (overallErr : option error) : M cstate (option error) :=
  overallErr ←
    close_and_note "Failed to close a client in cluster close: %s"
      conn overallErr;
  modify_this (λ c,
    Cluster.set_connections (delete key (Cluster.connections c)) c);;
  mret overallErr.

(** [func (c *Cluster) Close(opts *ClusterCloseOptions) error].  The loop
    deletes the entry it is visiting; Go's [range] still visits every other
    entry of the map exactly once. *)
Definition Cluster_Close {R : RangeOrder} {E : Env}
    (opts : option ClusterCloseOptions) : M cstate (option error) :=
  let overallErr : option error := None in
  s ← get;
  overallErr ←
    rangeM (Cluster.connections (this s)) Close_step overallErr;
  s ← get;
  overallErr ←
    match Cluster.clusterClient (this s) with
    | Some clusterClient =>
        close_and_note "Failed to close cluster client in cluster close: %s"
          clusterClient overallErr
    | None => mret overallErr
    end;
  s ← get;
  match stateBlock.Tracer (Cluster.sb (this s)) with
  | Some tracer =>
      liftW (tracerDecRef tracer);;
      modify_this (λ c,
        Cluster.set_sb (stateBlock.set_Tracer None (Cluster.sb c)) c)
  | None => mret tt
  end;;
  mret overallErr.

(** ** [searchquery_options.go], second part: the remaining methods *)

(** [func (c *Cluster) authenticator() Authenticator] and
    [func (c *Cluster) connSpec() gocbconnstr.ConnSpec] *)
Definition Cluster_authenticator (c : Cluster.t) : option Authenticator :=
  Cluster.auth c.

Definition Cluster_connSpec (c : Cluster.t) : ConnSpec.t := Cluster.cSpec c.

(** The five services a connection hands out a provider for, and a provider
    handle: the connection it belongs to and the service it serves. *)
Inductive service : Type :=
  | diagnosticsService
  | queryService
  | analyticsService
  | searchService
  | httpService.

Record provider := { provider_client : client; provider_service : service }.

(** Whether a connection can supply the provider of a service in a given
    world, [None] meaning that it can; nothing is assumed about it. *)
Class ProviderEnv := {
  getProvider_outcome : service → client → world → option error
}.

(** Modelled from the spec: the per-service provider getters of a connection
    are declared in files that are not part of the sources at hand; each
    returns either a provider handle or an error. *)
Definition client_getProvider {P : ProviderEnv} (svc : service) (cli : client)
    (w : world) : option provider * option error :=
  match getProvider_outcome svc cli w with
  | Some err => (None, Some err)
  | None => (Some {| provider_client := cli; provider_service := svc |}, None)
  end.

(** How a call ends: it returns, or it panics (here: a method called on a
    [nil] interface value). *)
Inductive outcome (A : Type) : Type :=
  | Returned (a : A)
  | Panicked.
Arguments Returned {A} a.
Arguments Panicked {A}.

(** The body the five provider getters of the cluster share, [svc] being the
    getter of the connection that is called on [cli]. *)
Definition Cluster_getProvider {R : RangeOrder} {P : ProviderEnv} (svc : service)
    (s : cstate) : outcome (option provider * option error) :=
  let '(cli, err) := Cluster_clusterOrRandomClient s in
  match err with
  | Some err => Returned (None, Some err)
  | None =>
      match cli with
      | None => Panicked
      | Some cli =>
          let '(provider, err) := client_getProvider svc cli (wld s) in
          match err with
          | Some err => Returned (None, Some err)
          | None => Returned (provider, None)
          end
      end
  end.

(** [func (c *Cluster) getDiagnosticsProvider() (diagnosticsProvider, error)]
    and its four siblings. *)
Definition Cluster_getDiagnosticsProvider {R : RangeOrder} {P : ProviderEnv} :=
  Cluster_getProvider diagnosticsService.
Definition Cluster_getQueryProvider {R : RangeOrder} {P : ProviderEnv} :=
  Cluster_getProvider queryService.
Definition Cluster_getAnalyticsProvider {R : RangeOrder} {P : ProviderEnv} :=
  Cluster_getProvider analyticsService.
Definition Cluster_getSearchProvider {R : RangeOrder} {P : ProviderEnv} :=
  Cluster_getProvider searchService.
Definition Cluster_getHTTPProvider {R : RangeOrder} {P : ProviderEnv} :=
  Cluster_getProvider httpService.

(** [func (c *Cluster) supportsEnhancedPreparedStatements() bool] and
    [func (c *Cluster) setSupportsEnhancedPreparedStatements(supports bool)];
    the atomic load and store are a read and a write of the field. *)
Definition Cluster_supportsEnhancedPreparedStatements (c : Cluster.t) : bool :=
  bool_decide (Cluster.supportsEnhancedStatements c > 0).

Definition Cluster_setSupportsEnhancedPreparedStatements (supports : bool)
    (c : Cluster.t) : Cluster.t :=
  {| Cluster.cSpec := Cluster.cSpec c; Cluster.auth := Cluster.auth c;
     Cluster.connections := Cluster.connections c;
     Cluster.clusterClient := Cluster.clusterClient c;
     Cluster.queryCache := Cluster.queryCache c; Cluster.sb := Cluster.sb c;
     Cluster.supportsEnhancedStatements := if supports then 1 else 0;
     Cluster.supportsGCCCP := Cluster.supportsGCCCP c |}.

(** The manager that [Users] and [Buckets] build; the two types have the
    same four fields. *)
Module HTTPManager.
Record t := {
  httpClient : option provider;
  globalTimeout : Duration;
  defaultRetryStrategy : retryStrategyWrapper;
  tracer : option requestTracer
}.
End HTTPManager.

(** The body [Users] and [Buckets] share. *)
Definition Cluster_httpManager {R : RangeOrder} {P : ProviderEnv} (s : cstate)
    : outcome (option HTTPManager.t * option error) :=
  match Cluster_getHTTPProvider s with
  | Panicked => Panicked
  | Returned (provider, err) =>
      match err with
      | Some err => Returned (None, Some err)
      | None =>
          Returned
            (Some {| HTTPManager.httpClient := provider;
                     HTTPManager.globalTimeout :=
                       stateBlock.ManagementTimeout (Cluster.sb (this s));
                     HTTPManager.defaultRetryStrategy :=
                       stateBlock.RetryStrategyWrapper (Cluster.sb (this s));
                     HTTPManager.tracer :=
                       stateBlock.Tracer (Cluster.sb (this s)) |},
             None)
      end
  end.

(** [func (c *Cluster) Users()] and [func (c *Cluster) Buckets()], each
    returning a pointer to its manager, or an error. *)
Definition Cluster_Users {R : RangeOrder} {P : ProviderEnv} :=
  Cluster_httpManager.
Definition Cluster_Buckets {R : RangeOrder} {P : ProviderEnv} :=
  Cluster_httpManager.

(** ** [error_wrapping.go]: the wrappers of the enhancer *)

(** [func maybeEnhanceKVErr(err error, bucketName, scopeName, collName,
    docKey string) error] *)
Definition maybeEnhanceKVErr (err : option error)
    (bucketName scopeName collName docKey : string) : option error :=
  maybeEnhanceCoreErr err.

(** What [maybeEnhanceCollKVErr] reads of a collection: the bucket name of
    its state block, [coll.Name()] and [coll.scopeName()]. *)
Record Collection := {
  Collection_BucketName : string;
  Collection_Name : string;
  Collection_scopeName : string
}.

(** [func maybeEnhanceCollKVErr(err error, bucket kvProvider, coll *Collection,
    docKey string) error]; the provider is not read.  [coll] is a pointer,
    [None] being [nil]: the arguments of the call to [maybeEnhanceKVErr] are
    evaluated first, and [coll.sb.BucketName] read through a [nil] pointer
    panics, whatever [err] is. *)
Definition maybeEnhanceCollKVErr (err : option error) (coll : option Collection)
    (docKey : string) : outcome (option error) :=
  match coll with
  | None => Panicked
  | Some coll =>
      Returned
        (maybeEnhanceKVErr err (Collection_BucketName coll)
           (Collection_Name coll) (Collection_scopeName coll) docKey)
  end.

Definition maybeEnhanceViewError (err : option error) : option error :=
  maybeEnhanceCoreErr err.
Definition maybeEnhanceQueryError (err : option error) : option error :=
  maybeEnhanceCoreErr err.
Definition maybeEnhanceAnalyticsError (err : option error) : option error :=
  maybeEnhanceCoreErr err.
Definition maybeEnhanceSearchError (err : option error) : option error :=
  maybeEnhanceCoreErr err.

(** * The encoders' outputs, key by key *)

(** The keys the search encoder computes from the typed options, before
    [Raw] is merged: the five fixed keys, the highlight object when a
    highlight is given, the facets object when facets are given. *)
Definition search_computed (opts : SearchOptions.t) : params :=
  let d : params :=
    <["sort" := VSorts (SearchOptions.Sort opts)]>
      (<["fields" := VStrings (SearchOptions.Fields opts)]>
         (<["explain" := VBool (SearchOptions.Explain opts)]>
            (<["from" := VInt (SearchOptions.Skip opts)]>
               (<["size" := VInt (SearchOptions.Limit opts)]> ∅)))) in
  let d :=
    match SearchOptions.Highlight opts with
    | Some h =>
        <["highlight" :=
            VMap (<["fields" := VStrings (SearchHighlightOptions.Fields h)]>
                    {[ "style" := VString (SearchHighlightOptions.Style h) ]})]> d
    | None => d
    end in
  match SearchOptions.Facets opts with
  | Some fs => <["facets" := VMap (VFacet <$> fs)]> d
  | None => d
  end.

(** Whether the search encoder accepts the consistency settings. *)
Definition search_accepts (opts : SearchOptions.t) : bool :=
  bool_decide (SearchOptions.ScanConsistency opts = searchScanConsistencyNotSet)
  || (bool_decide (SearchOptions.ScanConsistency opts
                   = SearchScanConsistencyNotBounded)
      && bool_decide (SearchOptions.ConsistentWith opts = None)).

(** The keys the analytics encoder computes that do not start with a dollar
    sign, before [Raw] is merged and the read-only flag is set. *)
Definition analytics_computed (Duration_String : Duration → string)
    (fresh : UUID) (opts : AnalyticsOptions.t) (statement : string) : params :=
  let d : params := {[ "statement" := VString statement ]} in
  let d :=
    if bool_decide (AnalyticsOptions.ServerSideTimeout opts ≠ 0)
    then <["timeout" :=
             VString (Duration_String (AnalyticsOptions.ServerSideTimeout opts))]> d
    else d in
  let d :=
    <["client_context_id" :=
        if bool_decide (AnalyticsOptions.ClientContextID opts = "")
        then VUUID fresh
        else VString (AnalyticsOptions.ClientContextID opts)]> d in
  let d :=
    if AnalyticsOptions.Priority opts then <["priority" := VInt (-1)]> d else d in
  match AnalyticsOptions.PositionalParameters opts with
  | Some args => <["args" := VSlice (Some args)]> d
  | None => d
  end.

(** Whether the analytics encoder emits an identifier of its own making
    under ["client_context_id"]: the caller gave none, and [Raw] does not
    override the key.  Every call of [toMap] asks [uuid.New()] for its own. *)
Definition generates_id (opts : AnalyticsOptions.t) : bool :=
  bool_decide (AnalyticsOptions.ClientContextID opts = "")
  && bool_decide
       (AnalyticsOptions.Raw opts ≫= (.!! "client_context_id") = None).

(** Two results of the analytics encoder that differ at most in the entry
    for ["client_context_id"]: the same error, and the same map once that
    entry is left out. *)
Definition same_but_client_context_id (a b : option params * option error)
    : Prop :=
  a.2 = b.2 ∧
  delete "client_context_id" <$> a.1 = delete "client_context_id" <$> b.1.

(** * How [Connect] settles a timeout *)

(** The option's value when it is positive, the default otherwise. *)
Definition positive_or (option default : Duration) : Duration :=
  if bool_decide (option > 0) then option else default.

(** The value, in milliseconds, that the connection string gives for [name],
    when it gives one that parses; [d] otherwise. *)
Definition conn_string_override {E : Env} (spec : ConnSpec.t) (name : string)
    (d : Duration) : Duration :=
  match fetchOption spec name ≫= strconv_ParseInt with
  | Some val => wrap64 (val * Millisecond)
  | None => d
  end.

(** The names of the connection-string options [parseExtraConnStrOptions]
    reads, in the order in which it reads them. *)
Definition timeout_option_names : list string :=
  ["n1ql_timeout"; "analytics_timeout"; "search_timeout"; "view_timeout"].

(** Events of a close: the call itself and the warning logged on failure. *)
Definition is_close_event (ev : event) : bool :=
  match ev with
  | EvClose _ _ | EvLogWarnf _ _ => true
  | _ => false
  end.

(** The errors of the warnings among some events, and the tracer releases
    among some events. *)
Definition warnings_of (evs : list event) : list error :=
  omap (λ ev, match ev with EvLogWarnf _ e => Some e | _ => None end) evs.

Definition releases_of (evs : list event) : list requestTracer :=
  omap (λ ev, match ev with EvTracerDecRef t => Some t | _ => None end) evs.

(** The cluster a [Close] leaves behind: no connection registered and no
    tracer, everything else as it was. *)
Definition closed (c : Cluster.t) : Cluster.t :=
  match stateBlock.Tracer (Cluster.sb c) with
  | Some _ =>
      Cluster.set_sb (stateBlock.set_Tracer None (Cluster.sb c))
        (Cluster.set_connections ∅ c)
  | None => Cluster.set_connections ∅ c
  end.

(** * The routing and shutdown rules in the words of the specification *)

(** The first client of a sequence that reports itself connected, and the
    first bootstrap error recorded on a client of the sequence. *)
Definition first_connected (w : world) (cs : list client) : option client :=
  head (filter (λ c, client_connected c w = true) cs).

Definition first_bootstrap_error (w : world) (cs : list client) : option error :=
  head (omap (λ c, client_getBootstrapError c w) cs).

(** Routing of a cluster-scoped request: the floating client if it is still
    there, and then only if it supports cluster-level operations; otherwise
    the first connected registry entry in iteration order; otherwise the first
    bootstrap error, or "not connected to cluster" when there is none. *)
Definition routed {R : RangeOrder} (s : cstate) : option client * option error :=
  match Cluster.clusterClient (this s) with
  | Some cli =>
      if client_supportsGCCCP cli (wld s) then (Some cli, None)
      else (None, Some (errors_New
              "cluster-level operations not supported due to cluster version"))
  | None =>
      let cs := (range_order (Cluster.connections (this s))).*2 in
      match first_connected (wld s) cs with
      | Some c => (Some c, None)
      | None =>
          (None, Some (default (errors_New "not connected to cluster")
                         (first_bootstrap_error (wld s) cs)))
      end
  end.

(** The close calls among some events, with their results; the first and the
    last failure among some results. *)
Definition closes_of (evs : list event) : list (client * option error) :=
  omap (λ ev, match ev with EvClose c r => Some (c, r) | _ => None end) evs.

Definition first_failure (rs : list (option error)) : option error :=
  head (omap id rs).

Definition last_failure (rs : list (option error)) : option error :=
  last (omap id rs).

(** A caller that acquires buckets one after the other. *)
Fixpoint acquire_all {E : Env} (calls : list (string * option bucketOptions))
    : M cstate (list Bucket.t) :=
  match calls with
  | [] => mret []
  | (bucketName, opts) :: calls =>
      b ← Cluster_Bucket bucketName opts;
      bs ← acquire_all calls;
      mret (b :: bs)
  end.

(** The client [cli] has been claimed for the identity hash [h1]: the
    floating slot is empty, and the client is alive and registered under [h1]
    and under no other hash. *)
Definition claimed_for (cli : client) (h1 : string) (s : cstate) : Prop :=
  Cluster.clusterClient (this s) = None ∧
  is_Some (heap (wld s) !! cli) ∧
  Cluster.connections (this s) !! h1 = Some cli ∧
  ∀ h, Cluster.connections (this s) !! h = Some cli → h = h1.

(** What an acquisition made after the claim hands out, seen from a later
    state [s]: a client that [s] has registered under the bucket's identity
    hash, and that is the claimed client exactly for the hash [h1]. *)
Definition served_after_claim {E : Env} (cli : client) (h1 : string)
    (s : cstate) (b : Bucket.t) : Prop :=
  ∃ c, Bucket.cachedClient b = Some c ∧
       Cluster.connections (this s) !! Bucket_hash b = Some c ∧
       (c = cli ↔ Bucket_hash b = h1).

(** The state that differs from [s] by its registry, by its client objects
    and by the events logged since. *)
Definition moved (s : cstate) (conns : gmap string client)
    (h : gmap client clientObj) (evs : list event) : cstate :=
  {| this := Cluster.set_connections conns (this s);
     wld := {| heap := h; log := log (wld s) ++ evs |} |}.

(** * Inputs the properties are tried on *)

Module Inputs.

(** [SearchOptions{ScanConsistency: SearchScanConsistencyNotBounded}] *)
Definition search_not_bounded : SearchOptions.t :=
  SearchOptions.with_consistency SearchScanConsistencyNotBounded None
    SearchOptions.zero.

(** A mutation state whose vector payload is the string ["tokens"], and
    [SearchOptions{ConsistentWith: &state}]. *)
Definition some_state : MutationState :=
  {| toSearchMutationState := VString "tokens" |}.

Definition search_consistent_with : SearchOptions.t :=
  SearchOptions.with_consistency searchScanConsistencyNotSet (Some some_state)
    SearchOptions.zero.

(** [SearchOptions{ScanConsistency: 2}]: a level the encoder does not know. *)
Definition search_unknown_level : SearchOptions.t :=
  SearchOptions.with_consistency 2 None SearchOptions.zero.

(** [SearchOptions{ScanConsistency: 1, ConsistentWith: &state}] *)
Definition search_both : SearchOptions.t :=
  SearchOptions.with_consistency SearchScanConsistencyNotBounded
    (Some some_state) SearchOptions.zero.

(** [SearchOptions{Limit: 5, Raw: {"size": 999}}] *)
Definition search_raw_size : SearchOptions.t :=
  SearchOptions.with_Limit_Raw 5 (Some {[ "size" := VInt 999 ]})
    SearchOptions.zero.

(** [AnalyticsOptions{PositionalParameters: []interface{}{}, NamedParameters:
    map[string]interface{}{}}] *)
Definition analytics_both : AnalyticsOptions.t :=
  AnalyticsOptions.with_parameters (Some []) (Some ∅) AnalyticsOptions.zero.

(** [AnalyticsOptions{Raw: {"readonly": false}, ReadOnly: true}] *)
Definition analytics_raw_readonly : AnalyticsOptions.t :=
  AnalyticsOptions.with_Raw_ReadOnly (Some {[ "readonly" := VBool false ]}) true
    AnalyticsOptions.zero.

(** [AnalyticsOptions{NamedParameters: {"a": 1}, Raw: {"$a": 2}}] *)
Definition analytics_named_shadowed : AnalyticsOptions.t :=
  AnalyticsOptions.with_Raw_ReadOnly (Some {[ "$a" := VInt 2 ]}) false
    (AnalyticsOptions.with_parameters None (Some {[ "a" := VInt 1 ]})
       AnalyticsOptions.zero).

(** Collaborators for which every call succeeds: the connection string has
    no options, the identity hash of a state block is its bucket name, and
    the server supports cluster-level operations; a closed connection is no
    longer connected. *)
Definition obliging : Env :=
  {| gocbconnstr_Parse := λ _, inl {| ConnSpec.Options := ∅ |};
     strconv_ParseInt := λ _, None;
     Hash := clientStateBlock.BucketName;
     buildConfig_outcome := λ _ _, None;
     connect_outcome := λ _ _, None;
     connect_gcccp := λ _ _, true;
     selectBucket_outcome := λ _ _ _, None;
     close_outcome := λ _ _, None;
     close_effect := λ _ _ o,
       {| clientSb := clientSb o; bootstrapErr := bootstrapErr o;
          isConnected := false; gcccp := gcccp o |} |}.

(** A world with no client and nothing logged. *)
Definition nothing_yet : world := {| heap := ∅; log := [] |}.

(** [ClusterOptions{ManagementTimeout: 5 * time.Second}] *)
Definition management_5s : ClusterOptions.t :=
  ClusterOptions.with_timeouts 0 (5 * Second) ClusterOptions.zero.

(** [ClusterOptions{SearchTimeout: 3 * time.Second,
    ManagementTimeout: 5 * time.Second}] *)
Definition search_3s_management_5s : ClusterOptions.t :=
  ClusterOptions.with_timeouts (3 * Second) (5 * Second) ClusterOptions.zero.

(** [Cluster{}], and the state [Connect] leaves behind when every call
    succeeds: an empty registry and a floating client at address 0. *)
Definition blank_cluster : Cluster.t :=
  {| Cluster.cSpec := {| ConnSpec.Options := ∅ |};
     Cluster.auth := None;
     Cluster.connections := ∅;
     Cluster.clusterClient := None;
     Cluster.queryCache := ∅;
     Cluster.sb :=
       {| stateBlock.clientStateBlock := {| clientStateBlock.BucketName := "" |};
          stateBlock.ConnectTimeout := 0; stateBlock.QueryTimeout := 0;
          stateBlock.AnalyticsTimeout := 0; stateBlock.SearchTimeout := 0;
          stateBlock.ViewTimeout := 0; stateBlock.KvTimeout := 0;
          stateBlock.DuraTimeout := 0; stateBlock.DuraPollTimeout := 0;
          stateBlock.Transcoder := JSONTranscoder;
          stateBlock.UseMutationTokens := false;
          stateBlock.ManagementTimeout := 0;
          stateBlock.RetryStrategyWrapper :=
            newRetryStrategyWrapper (NewBestEffortRetryStrategy None);
          stateBlock.OrphanLoggerEnabled := false;
          stateBlock.OrphanLoggerInterval := 0;
          stateBlock.OrphanLoggerSampleSize := 0;
          stateBlock.UseServerDurations := false;
          stateBlock.Tracer := None;
          stateBlock.CircuitBreakerConfig := {| circuitBreaker_repr := "" |} |};
     Cluster.supportsEnhancedStatements := 0;
     Cluster.supportsGCCCP := false |}.

Definition connected : cstate :=
  let '(r, w) :=
    @Connect obliging "couchbase://localhost" ClusterOptions.zero nothing_yet in
  {| this := default blank_cluster r.1; wld := w |}.

(** Collaborators for which every close fails, with an error that names the
    client, and leaves the connection as it is; everything else succeeds. *)
Definition closes_fail : Env :=
  {| gocbconnstr_Parse := λ _, inl {| ConnSpec.Options := ∅ |};
     strconv_ParseInt := λ _, None;
     Hash := clientStateBlock.BucketName;
     buildConfig_outcome := λ _ _, None;
     connect_outcome := λ _ _, None;
     connect_gcccp := λ _ _, true;
     selectBucket_outcome := λ _ _ _, None;
     close_outcome := λ _ c,
       Some (transportError
               (if bool_decide (c = 0%nat) then "client 0 did not close"
                else "another client did not close"));
     close_effect := λ _ _ o, o |}.

(** [connected] after the buckets ["travel"] and ["beer"] have been acquired:
    two registered connections and no floating client. *)
Definition two_buckets : cstate :=
  (@Cluster_Bucket closes_fail "beer" None
     (@Cluster_Bucket closes_fail "travel" None connected).2).2.

Definition a_uuid : UUID := {| uuid_repr := "0b2c" |}.
Definition show_duration (d : Duration) : string := "a duration".

End Inputs.

(** * More inputs *)

Module MoreInputs.

(** Collaborators for which the connection string carries the option
    [n1ql_timeout] twice, with the values 100 and 250, and everything else
    succeeds. *)
Definition query_timeout_twice : Env :=
  {| gocbconnstr_Parse := λ _,
       inl {| ConnSpec.Options := {[ "n1ql_timeout" := ["100"; "250"] ]} |};
     strconv_ParseInt := λ s,
       if bool_decide (s = "100") then Some 100
       else if bool_decide (s = "250") then Some 250 else None;
     Hash := clientStateBlock.BucketName;
     buildConfig_outcome := λ _ _, None;
     connect_outcome := λ _ _, None;
     connect_gcccp := λ _ _, true;
     selectBucket_outcome := λ _ _ _, None;
     close_outcome := λ _ _, None;
     close_effect := λ _ _ o,
       {| clientSb := clientSb o; bootstrapErr := bootstrapErr o;
          isConnected := false; gcccp := gcccp o |} |}.

(** Collaborators for which no connection string parses. *)
Definition unparsable : Env :=
  {| gocbconnstr_Parse := λ _, inr (transportError "bad connection string");
     strconv_ParseInt := λ _, None;
     Hash := clientStateBlock.BucketName;
     buildConfig_outcome := λ _ _, None;
     connect_outcome := λ _ _, None;
     connect_gcccp := λ _ _, true;
     selectBucket_outcome := λ _ _ _, None;
     close_outcome := λ _ _, None;
     close_effect := λ _ _ o,
       {| clientSb := clientSb o; bootstrapErr := bootstrapErr o;
          isConnected := false; gcccp := gcccp o |} |}.

(** A connection string that gives 100 for [n1ql_timeout], and values that
    are not numbers for [analytics_timeout] and [view_timeout]. *)
Definition three_timeouts : ConnSpec.t :=
  {| ConnSpec.Options :=
       {[ "n1ql_timeout" := ["100"]; "analytics_timeout" := ["soon"];
          "view_timeout" := ["later"] ]} |}.

(** Collaborators for which the connection string is [three_timeouts]. *)
Definition timeouts_not_numbers : Env :=
  {| gocbconnstr_Parse := λ _, inl three_timeouts;
     strconv_ParseInt := λ s, if bool_decide (s = "100") then Some 100 else None;
     Hash := clientStateBlock.BucketName;
     buildConfig_outcome := λ _ _, None;
     connect_outcome := λ _ _, None;
     connect_gcccp := λ _ _, true;
     selectBucket_outcome := λ _ _ _, None;
     close_outcome := λ _ _, None;
     close_effect := λ _ _ o,
       {| clientSb := clientSb o; bootstrapErr := bootstrapErr o;
          isConnected := false; gcccp := gcccp o |} |}.

(** A second identifier that [uuid.New()] may hand out. *)
Definition another_uuid : UUID := {| uuid_repr := "7e1f" |}.

(** [SearchOptions{Highlight: &SearchHighlightOptions{Style: "html",
    Fields: []string{"title"}}, Facets: {"type": f1, "abv": f2}}] *)
Definition search_highlight_facets : SearchOptions.t :=
  {| SearchOptions.ScanConsistency := 0; SearchOptions.Limit := 0;
     SearchOptions.Skip := 0; SearchOptions.Explain := false;
     SearchOptions.Highlight :=
       Some {| SearchHighlightOptions.Style := HTMLHighlightStyle;
               SearchHighlightOptions.Fields := Some ["title"] |};
     SearchOptions.Fields := None; SearchOptions.Sort := None;
     SearchOptions.Facets :=
       Some {[ "type" := {| facet_repr := "term facet on type" |};
               "abv" := {| facet_repr := "numeric facet on abv" |} ]};
     SearchOptions.ConsistentWith := None; SearchOptions.Raw := None;
     SearchOptions.Timeout := 0; SearchOptions.RetryStrategy := None;
     SearchOptions.parentSpan := None |}.

(** [AnalyticsOptions{NamedParameters: {"a": 1, "$b": 2, "c": 3},
    Raw: {"pretty": true, "scan_wait": "5s"}}] *)
Definition analytics_three_named : AnalyticsOptions.t :=
  AnalyticsOptions.with_Raw_ReadOnly
    (Some {[ "pretty" := VBool true; "scan_wait" := VString "5s" ]}) false
    (AnalyticsOptions.with_parameters None
       (Some {[ "a" := VInt 1; "$b" := VInt 2; "c" := VInt 3 ]})
       AnalyticsOptions.zero).

(** Connections that supply every provider. *)
Definition every_provider : ProviderEnv :=
  {| getProvider_outcome := λ _ _ _, None |}.

(** [Inputs.connected] after the bucket ["travel"] has been acquired. *)
Definition one_bucket : cstate :=
  (@Cluster_Bucket Inputs.obliging "travel" None Inputs.connected).2.

End MoreInputs.

(** * Properties *)

(** ** Facts about [range] *)

Section range_facts.
Context {R : RangeOrder} {V W : Type}.
Implicit Types (m : gmap string V) (d : gmap string W).

Lemma elem_of_range_order m k v : (k, v) ∈ range_order m ↔ m !! k = Some v.
Proof. rewrite (range_order_perm V m). apply elem_of_map_to_list. Qed.

Lemma range_order_singleton k v :
  range_order ({[k := v]} : gmap string V) = [(k, v)].
Proof.
  apply Permutation_singleton_r.
  rewrite (range_order_perm V), map_to_list_singleton. done.
Qed.

Lemma range_order_empty : range_order (∅ : gmap string V) = [].
Proof.
  apply Permutation_nil_r. rewrite (range_order_perm V), map_to_list_empty. done.
Qed.

(** A loop that stores every entry under a key computed from its own. *)
Variables (g : string → string) (h : V → W).

#[local] Abbreviation store :=
  (λ (acc : gmap string W) (kv : string * V), <[g kv.1 := h kv.2]> acc)
  (only parsing).

Lemma foldl_store_other l d j :
  (∀ kv, kv ∈ l → g kv.1 ≠ j) → foldl store d l !! j = d !! j.
Proof.
  induction l as [|x l IH] using rev_ind; intros Hne; [done|].
  rewrite foldl_snoc. cbv beta.
  rewrite lookup_insert_ne by (apply Hne; set_solver).
  apply IH. intros kv Hkv. apply Hne. set_solver.
Qed.

Lemma foldl_store_is_Some l d kv :
  kv ∈ l → is_Some (foldl store d l !! g kv.1).
Proof.
  induction l as [|x l IH] using rev_ind; intros Hin; [set_solver|].
  rewrite foldl_snoc. cbv beta.
  destruct (decide (g x.1 = g kv.1)) as [->|Hne].
  - rewrite lookup_insert_eq. eauto.
  - rewrite lookup_insert_ne by done. apply IH.
    apply elem_of_app in Hin. destruct Hin as [Hin|Hin]; [done|].
    apply list_elem_of_singleton in Hin. congruence.
Qed.

Lemma foldl_store_agree l d k v :
  (k, v) ∈ l →
  (∀ k' v', (k', v') ∈ l → g k' = g k → v' = v) →
  foldl store d l !! g k = Some (h v).
Proof.
  induction l as [|[k' v'] l IH] using rev_ind; intros Hin Hagree; [set_solver|].
  rewrite foldl_snoc. cbv beta. simpl.
  destruct (decide (g k' = g k)) as [Heq|Hne].
  - rewrite Heq, lookup_insert_eq.
    rewrite (Hagree k' v'); [done| |done].
    apply elem_of_app. right. by apply list_elem_of_singleton.
  - rewrite lookup_insert_ne by done. apply IH.
    + apply elem_of_app in Hin. destruct Hin as [Hin|Hin]; [done|].
      apply list_elem_of_singleton in Hin. congruence.
    + intros k'' v'' Hin''. apply Hagree. apply elem_of_app. by left.
Qed.

End range_facts.

(** [for k, v := range m { d[k] = f(v) }]: afterwards [d] has the entries of
    [m] on top of what it had, whatever the order of the iteration. *)
Lemma range_insert_lookup {R : RangeOrder} {V W : Type} (f : V → W)
    (m : gmap string V) (d : gmap string W) (j : string) :
  range m (λ k v acc, <[k := f v]> acc) d !! j
  = match m !! j with Some v => Some (f v) | None => d !! j end.
Proof.
  unfold range. destruct (m !! j) as [v|] eqn:Hj.
  - apply (foldl_store_agree id f _ d j v).
    + by apply elem_of_range_order.
    + intros k' v' Hin Heq. apply elem_of_range_order in Hin.
      unfold id in Heq. subst k'. congruence.
  - apply (foldl_store_other id f). intros [k v] Hin Heq.
    apply elem_of_range_order in Hin. simpl in Heq. unfold id in Heq.
    subst k. congruence.
Qed.

Lemma range_nilable_insert_lookup {R : RangeOrder} (m : option params)
    (d : params) (j : string) :
  range_nilable m (λ k v acc, <[k := v]> acc) d !! j
  = match m ≫= (.!! j) with Some v => Some v | None => d !! j end.
Proof.
  destruct m as [m|]; simpl; [|done].
  rewrite (range_insert_lookup id). unfold id. by destruct (m !! j).
Qed.

(** ** Search options *)

Section search_facts.
Context {R : RangeOrder}.
Import SearchOptions.

(** The data returned on success: the entries of [Raw] on top of a map [d0]
    of computed keys, which has the size but never a ["ctl"] entry. *)
Lemma toMap_body_data opts l :
  toMap_body opts = inr l →
  ∃ d0 : params,
    d0 !! "ctl" = None ∧
    d0 !! "size" = Some (VInt (Limit opts)) ∧
    ∀ j, data l !! j
         = match Raw opts ≫= (.!! j) with Some v => Some v | None => d0 !! j end.
Proof.
  unfold toMap_body.
  match goal with |- context [range_nilable _ _ ?d] => set (d0 := d) end.
  intros Hbody. exists d0. split; [|split].
  - subst d0. destruct (Highlight opts), (Facets opts); by simplify_map_eq.
  - subst d0. destruct (Highlight opts), (Facets opts); by simplify_map_eq.
  - intros j. rewrite <- range_nilable_insert_lookup.
    repeat case_match; simplify_eq; done.
Qed.

Lemma toMap_success opts d :
  toMap opts = (Some d, None) ↔ ∃ l, toMap_body opts = inr l ∧ data l = d.
Proof.
  unfold toMap. destruct (toMap_body opts) as [e|l]; split.
  - intros [=].
  - intros (? & [=] & _).
  - intros [= <-]. eauto.
  - intros (? & [= <-] & <-). done.
Qed.

(** On success, every entry of [Raw] is in the output as given. *)
Lemma search_raw_overrides opts d k v :
  toMap opts = (Some d, None) →
  Raw opts ≫= (.!! k) = Some v →
  d !! k = Some v.
Proof.
  intros (l & Hbody & <-)%toMap_success Hraw.
  destruct (toMap_body_data _ _ Hbody) as (d0 & _ & _ & Hd).
  by rewrite Hd, Hraw.
Qed.

(** The output has a ["ctl"] entry only if [Raw] has one. *)
Lemma search_ctl_only_from_raw opts d :
  toMap opts = (Some d, None) → d !! "ctl" = Raw opts ≫= (.!! "ctl").
Proof.
  intros (l & Hbody & <-)%toMap_success.
  destruct (toMap_body_data _ _ Hbody) as (d0 & Hctl & _ & Hd).
  rewrite Hd, Hctl. by destruct (Raw opts ≫= _).
Qed.

End search_facts.

Section search_claims.
Context {R : RangeOrder}.
Import SearchOptions.

(** An unset level and no token: the output has no ["ctl"] entry unless
    [Raw] brings one. *)
Lemma search_unset_no_ctl opts d :
  ScanConsistency opts = 0 → ConsistentWith opts = None →
  Raw opts ≫= (.!! "ctl") = None →
  toMap opts = (Some d, None) → d !! "ctl" = None.
Proof. intros _ _ Hraw Hd. by rewrite (search_ctl_only_from_raw _ _ Hd). Qed.

(** A level together with a token is rejected, and no map comes back. *)
Lemma search_conflict_rejected opts :
  ScanConsistency opts ≠ 0 → ConsistentWith opts ≠ None →
  toMap opts
  = (None, Some (makeInvalidArgumentsError
                   "ScanConsistency and ConsistentWith must be used exclusively")).
Proof.
  intros Hsc Hcw. unfold toMap, toMap_body.
  rewrite (bool_decide_eq_true_2 _ Hsc), (bool_decide_eq_true_2 _ Hcw).
  reflexivity.
Qed.

(** C1 (defect in the code).  The encoder builds the [ctl] block the claim
    describes, level ["not_bounded"] for the unbounded level and level
    ["at_plus"] with the vector payload for a token, but never stores it in
    the map it returns: for [SearchOptions{ScanConsistency: NotBounded}] and
    for [SearchOptions{ConsistentWith: &state}] encoding succeeds, the local
    [ctl] holds the block, and the returned map has no ["ctl"] key. *)
Theorem C1_ctl_block_built_but_not_emitted :
  (∃ l, toMap_body Inputs.search_not_bounded = inr l ∧
        ctl l = Some {[ "consistency" :=
                          VMap {[ "level" := VString "not_bounded" ]} ]} ∧
        toMap Inputs.search_not_bounded = (Some (data l), None) ∧
        data l !! "ctl" = None) ∧
  (∃ l, toMap_body Inputs.search_consistent_with = inr l ∧
        ctl l = Some {[ "consistency" :=
                          VMap (<[ "vectors" :=
                                     toSearchMutationState Inputs.some_state ]>
                                  {[ "level" := VString "at_plus" ]}) ]} ∧
        toMap Inputs.search_consistent_with = (Some (data l), None) ∧
        data l !! "ctl" = None).
Proof.
  split; eexists; (split; [reflexivity|]); repeat split; by vm_compute.
Qed.

(** C10.  With no token and a consistency level other than unset (0) and
    NotBounded (1), [toMap] returns the invalid-arguments error "unexpected
    consistency option" together with a nil map. *)
Theorem C10_unexpected_consistency_rejected opts :
  ConsistentWith opts = None →
  ScanConsistency opts ≠ searchScanConsistencyNotSet →
  ScanConsistency opts ≠ SearchScanConsistencyNotBounded →
  toMap opts
  = (None, Some (makeInvalidArgumentsError "unexpected consistency option")) ∧
  isInvalidArguments
    (makeInvalidArgumentsError "unexpected consistency option") = true.
Proof.
  intros Hcw Hset Hnb. split; [|done]. unfold toMap, toMap_body. rewrite Hcw.
  rewrite (bool_decide_eq_false_2 (None ≠ None)) by (intros ?; done).
  rewrite andb_false_r.
  rewrite (bool_decide_eq_true_2 _ Hset), (bool_decide_eq_false_2 _ Hnb).
  done.
Qed.

End search_claims.

(** C10 at [SearchOptions{ScanConsistency: 2}]. *)
Lemma C10_unexpected_consistency_rejected_witness :
  @SearchOptions.toMap canonical_order Inputs.search_unknown_level
  = (None, Some (makeInvalidArgumentsError "unexpected consistency option")) ∧
  isInvalidArguments
    (makeInvalidArgumentsError "unexpected consistency option") = true.
Proof.
  apply (@C10_unexpected_consistency_rejected canonical_order
           Inputs.search_unknown_level).
  - reflexivity.
  - vm_compute. discriminate.
  - vm_compute. discriminate.
Defined.

(** ** Analytics options *)

Section analytics_facts.
Context {R : RangeOrder}.
Variables (Duration_String : Duration → string) (fresh : UUID).
Import AnalyticsOptions.

(** Positional together with named parameters are rejected with the plain
    error of [errors.New], and no map comes back. *)
Lemma analytics_conflict_rejected opts statement :
  PositionalParameters opts ≠ None → NamedParameters opts ≠ None →
  toMap Duration_String fresh opts statement
  = (None, Some (errors_New
                   "Positional and named parameters must be used exclusively")).
Proof.
  intros Hpos Hnamed. unfold toMap.
  rewrite (bool_decide_eq_true_2 _ Hpos), (bool_decide_eq_true_2 _ Hnamed).
  reflexivity.
Qed.

(** Without that conflict encoding succeeds. *)
Lemma analytics_toMap_succeeds opts statement :
  PositionalParameters opts = None ∨ NamedParameters opts = None →
  ∃ out, toMap Duration_String fresh opts statement = (Some out, None).
Proof.
  intros Hor. unfold toMap.
  destruct Hor as [-> | ->];
    rewrite (bool_decide_eq_false_2 (None ≠ None)) by (intros ?; done);
    rewrite ?andb_false_r; simpl; eauto.
Qed.

(** The output on success, key by key: the ["readonly"] flag on top of the
    entries of [Raw], on top of a map [d1] that holds the named parameters
    under their prefixed keys. *)
Lemma analytics_toMap_data opts statement out :
  toMap Duration_String fresh opts statement = (Some out, None) →
  ∃ d1 : params,
    (∀ j, out !! j
          = if ReadOnly opts && bool_decide (j = "readonly")
            then Some (VBool true)
            else match Raw opts ≫= (.!! j) with
                 | Some v => Some v
                 | None => d1 !! j
                 end) ∧
    (∀ np k v, NamedParameters opts = Some np → np !! k = Some v →
       is_Some (d1 !! dollarKey k)) ∧
    (∀ np k v, NamedParameters opts = Some np → np !! k = Some v →
       (∀ k' v', np !! k' = Some v' → dollarKey k' = dollarKey k → v' = v) →
       d1 !! dollarKey k = Some v).
Proof.
  unfold toMap. case_match; [intros [=]|].
  match goal with
  | |- context [range_nilable (Raw opts) _ ?d] => set (d1 := d)
  end.
  intros [= <-]. exists d1. split; [|split].
  - intros j. destruct (ReadOnly opts); [|apply range_nilable_insert_lookup].
    destruct (decide (j = "readonly")) as [->|Hj].
    + by rewrite lookup_insert_eq.
    + rewrite lookup_insert_ne, (bool_decide_eq_false_2 _ Hj) by done.
      apply range_nilable_insert_lookup.
  - intros np k v Hnp Hk. subst d1. rewrite Hnp. simpl. unfold range.
    apply (foldl_store_is_Some dollarKey id _ _ (k, v)).
    by apply elem_of_range_order.
  - intros np k v Hnp Hk Hagree. subst d1. rewrite Hnp. simpl. unfold range.
    apply (foldl_store_agree dollarKey id _ _ k v).
    + by apply elem_of_range_order.
    + intros k' v' Hin. apply Hagree. by apply elem_of_range_order.
Qed.

(** On success an entry of [Raw] is in the output as given, unless it is the
    ["readonly"] entry and [ReadOnly] is set. *)
Lemma analytics_raw_overrides opts statement out k v :
  toMap Duration_String fresh opts statement = (Some out, None) →
  Raw opts ≫= (.!! k) = Some v →
  ReadOnly opts = false ∨ k ≠ "readonly" →
  out !! k = Some v.
Proof.
  intros Hout Hraw Hk.
  destruct (analytics_toMap_data _ _ _ Hout) as (d1 & Hd & _).
  rewrite Hd, Hraw.
  destruct Hk as [-> | Hk]; [done|].
  by rewrite (bool_decide_eq_false_2 _ Hk), andb_false_r.
Qed.

(** With [ReadOnly] set the output says ["readonly": true] whatever [Raw]
    has under that key. *)
Lemma analytics_readonly_wins opts statement out :
  toMap Duration_String fresh opts statement = (Some out, None) →
  ReadOnly opts = true →
  out !! "readonly" = Some (VBool true).
Proof.
  intros Hout Hro.
  destruct (analytics_toMap_data _ _ _ Hout) as (d1 & Hd & _).
  by rewrite Hd, Hro.
Qed.

End analytics_facts.

(** The prefixed key starts with a dollar sign, prefixing is idempotent, and
    no prefixed key is the ["readonly"] key. *)
Lemma dollarKey_cases key :
  dollarKey key = if HasPrefix key "$" then key else "$" ++ key.
Proof. unfold dollarKey. by destruct (HasPrefix key "$"). Qed.

Lemma dollarKey_HasPrefix key : HasPrefix (dollarKey key) "$" = true.
Proof.
  unfold dollarKey. destruct (HasPrefix key "$") eqn:Hp; simpl; [done|].
  unfold HasPrefix. simpl. by destruct key.
Qed.

Lemma dollarKey_idempotent key : dollarKey (dollarKey key) = dollarKey key.
Proof. unfold dollarKey at 1. by rewrite dollarKey_HasPrefix. Qed.

Lemma dollarKey_not_readonly key : dollarKey key ≠ "readonly".
Proof.
  intros Heq. pose proof (dollarKey_HasPrefix key) as Hp.
  rewrite Heq in Hp. discriminate Hp.
Qed.

Section analytics_more.
Context {R : RangeOrder}.
Variables (Duration_String : Duration → string) (fresh : UUID).
Import AnalyticsOptions.

(** A key without a dollar sign is none of the prefixed keys. *)
Lemma plain_key_not_dollarKey j k : HasPrefix j "$" = false → dollarKey k ≠ j.
Proof.
  intros Hj Heq. subst j. by rewrite dollarKey_HasPrefix in Hj.
Qed.

(** The loop over the named parameters leaves the keys without a dollar
    sign as they were. *)
Lemma named_stage_plain (named : option params) (d : params) j :
  HasPrefix j "$" = false →
  range_nilable named
    (λ key value execOpts, let key := dollarKey key in <[key := value]> execOpts)
    d !! j
  = d !! j.
Proof.
  intros Hj. destruct named as [np|]; simpl; [|done]. unfold range.
  apply (foldl_store_other dollarKey id).
  intros kv _. by apply plain_key_not_dollarKey.
Qed.

(** On success the output is the read-only flag on top of [Raw], on top of
    the named parameters, on top of the computed keys. *)
Lemma analytics_toMap_shape opts statement out :
  toMap Duration_String fresh opts statement = (Some out, None) →
  out
  = (if ReadOnly opts then <["readonly" := VBool true]> else id)
      (range_nilable (Raw opts) (λ k v acc, <[k := v]> acc)
         (range_nilable (NamedParameters opts)
            (λ key value execOpts,
               let key := dollarKey key in <[key := value]> execOpts)
            (analytics_computed Duration_String fresh opts statement))).
Proof.
  unfold toMap, analytics_computed. case_match; [intros [=]|].
  intros [= <-].
  destruct (bool_decide (ClientContextID opts = ""));
    by destruct (ReadOnly opts).
Qed.

Lemma readonly_flag_lookup (readOnly : bool) (m : params) j :
  (if readOnly then <["readonly" := VBool true]> else id) m !! j
  = if readOnly && bool_decide (j = "readonly")
    then Some (VBool true) else m !! j.
Proof.
  destruct readOnly; [|done].
  destruct (decide (j = "readonly")) as [->|Hne].
  - by rewrite lookup_insert_eq.
  - by rewrite lookup_insert_ne, (bool_decide_eq_false_2 _ Hne).
Qed.

(** On success, the output at a key without a dollar sign. *)
Lemma analytics_toMap_plain opts statement out j :
  toMap Duration_String fresh opts statement = (Some out, None) →
  HasPrefix j "$" = false →
  out !! j
  = if ReadOnly opts && bool_decide (j = "readonly")
    then Some (VBool true)
    else match Raw opts ≫= (.!! j) with
         | Some v => Some v
         | None => analytics_computed Duration_String fresh opts statement !! j
         end.
Proof.
  intros ->%analytics_toMap_shape Hj.
  by rewrite readonly_flag_lookup, range_nilable_insert_lookup,
    named_stage_plain.
Qed.

(** The loop over the named parameters, seen from one key: what it leaves
    there depends on what was there before only. *)
Lemma named_stage_congr (named : option params) (d1 d2 : params) j :
  d1 !! j = d2 !! j →
  range_nilable named
    (λ key value execOpts, let key := dollarKey key in <[key := value]> execOpts)
    d1 !! j
  = range_nilable named
      (λ key value execOpts, let key := dollarKey key in <[key := value]> execOpts)
      d2 !! j.
Proof.
  destruct named as [np|]; simpl; [|done]. unfold range.
  generalize (range_order np). intros l. revert d1 d2.
  induction l as [|[k v] l IH]; intros d1 d2 Hj; [done|]. simpl. apply IH.
  destruct (decide (dollarKey k = j)) as [->|Hne].
  - by rewrite !lookup_insert_eq.
  - by rewrite !lookup_insert_ne.
Qed.

(** The identifier [uuid.New()] hands out reaches the computed keys at
    ["client_context_id"] only. *)
Lemma analytics_computed_ids (fresh' : UUID) opts statement j :
  analytics_computed Duration_String fresh opts statement !! j
  = if bool_decide (j = "client_context_id")
       && bool_decide (ClientContextID opts = "")
    then Some (VUUID fresh)
    else analytics_computed Duration_String fresh' opts statement !! j.
Proof.
  unfold analytics_computed.
  destruct (decide (j = "client_context_id")) as [->|Hne].
  - rewrite (bool_decide_eq_true_2 ("client_context_id" = "client_context_id"))
      by done.
    simpl.
    destruct (PositionalParameters opts), (Priority opts);
      repeat case_bool_decide; by simplify_map_eq.
  - rewrite (bool_decide_eq_false_2 _ Hne). simpl.
    destruct (PositionalParameters opts), (Priority opts);
      repeat case_bool_decide;
      rewrite ?lookup_insert; repeat case_decide; by simplify_eq.
Qed.

End analytics_more.

Section analytics_ids.
Context {R : RangeOrder}.
Variable Duration_String : Duration → string.
Import AnalyticsOptions.

(** Two calls of the encoder on the same options, each with the identifier
    it got from [uuid.New()]: key by key. *)
Lemma analytics_toMap_ids_lookup fresh1 fresh2 opts statement out1 out2 j :
  toMap Duration_String fresh1 opts statement = (Some out1, None) →
  toMap Duration_String fresh2 opts statement = (Some out2, None) →
  out1 !! j
  = if bool_decide (j = "client_context_id") && generates_id opts
    then Some (VUUID fresh1) else out2 !! j.
Proof.
  intros ->%analytics_toMap_shape ->%analytics_toMap_shape.
  rewrite !readonly_flag_lookup, !range_nilable_insert_lookup.
  unfold generates_id.
  destruct (decide (j = "client_context_id")) as [->|Hne].
  - rewrite (bool_decide_eq_true_2 ("client_context_id" = "client_context_id"))
      by done.
    simpl. rewrite andb_false_r.
    destruct (Raw opts ≫= _) as [v|] eqn:Hraw; simpl.
    + by rewrite andb_false_r.
    + rewrite andb_true_r, !named_stage_plain by done.
      rewrite (analytics_computed_ids Duration_String fresh1 fresh2).
      rewrite (bool_decide_eq_true_2 ("client_context_id" = "client_context_id"))
        by done.
      simpl. by destruct (bool_decide (ClientContextID opts = "")).
  - rewrite (bool_decide_eq_false_2 _ Hne). simpl.
    destruct (ReadOnly opts && bool_decide (j = "readonly")); [done|].
    destruct (Raw opts ≫= _); [done|].
    apply named_stage_congr.
    rewrite (analytics_computed_ids Duration_String fresh1 fresh2).
    by rewrite (bool_decide_eq_false_2 _ Hne).
Qed.

(** Two calls of the encoder on the same options differ at most in the
    identifier each of them generates. *)
Lemma analytics_toMap_two_ids fresh1 fresh2 opts statement :
  same_but_client_context_id
    (toMap Duration_String fresh1 opts statement)
    (toMap Duration_String fresh2 opts statement) ∧
  (generates_id opts = false ∨ fresh1 = fresh2 →
   toMap Duration_String fresh1 opts statement
   = toMap Duration_String fresh2 opts statement) ∧
  (generates_id opts = true →
   ∀ out1 out2,
     toMap Duration_String fresh1 opts statement = (Some out1, None) →
     toMap Duration_String fresh2 opts statement = (Some out2, None) →
     out1 !! "client_context_id" = Some (VUUID fresh1) ∧
     out2 !! "client_context_id" = Some (VUUID fresh2)).
Proof.
  destruct (decide (PositionalParameters opts ≠ None
                    ∧ NamedParameters opts ≠ None)) as [[Hp Hn]|Hor].
  { rewrite !analytics_conflict_rejected by done.
    split_and!; [done|done|]. intros _ out1 out2 [=]. }
  assert (PositionalParameters opts = None ∨ NamedParameters opts = None)
    as Hor'.
  { destruct (PositionalParameters opts), (NamedParameters opts);
      naive_solver. }
  destruct (analytics_toMap_succeeds Duration_String fresh1 opts statement Hor')
    as [out1 Hout1].
  destruct (analytics_toMap_succeeds Duration_String fresh2 opts statement Hor')
    as [out2 Hout2].
  pose proof (λ j, analytics_toMap_ids_lookup _ _ _ _ _ _ j Hout1 Hout2) as H12.
  pose proof (λ j, analytics_toMap_ids_lookup _ _ _ _ _ _ j Hout2 Hout1) as H21.
  rewrite Hout1, Hout2. split_and!.
  - split; [done|]. simpl. f_equal. apply map_eq. intros j.
    destruct (decide (j = "client_context_id")) as [->|Hne].
    + by rewrite !lookup_delete_eq.
    + rewrite !lookup_delete_ne by done.
      by rewrite (H12 j), (bool_decide_eq_false_2 _ Hne).
  - intros Hsame. do 2 f_equal. apply map_eq. intros j. rewrite (H12 j).
    destruct Hsame as [-> | ->]; [by rewrite andb_false_r|].
    destruct (bool_decide (j = "client_context_id") && generates_id opts)
      eqn:Hgen; [|done].
    by rewrite (H21 j), Hgen.
  - intros Hgen ? ? [= <-] [= <-].
    split; [rewrite (H12 "client_context_id")|rewrite (H21 "client_context_id")];
      by rewrite Hgen.
Qed.

End analytics_ids.

Section analytics_claims.
Context {R : RangeOrder}.
Variables (Duration_String : Duration → string) (fresh : UUID).
Import AnalyticsOptions.

(** C2 (defect in the code).  The search encoder merges [Raw] last, and so
    every entry of [Raw] is in its output ([search_raw_overrides]).  The
    analytics encoder sets ["readonly"] after it has merged [Raw]: for
    [AnalyticsOptions{Raw: {"readonly": false}, ReadOnly: true}] encoding
    succeeds and the output has ["readonly": true], not the value given in
    [Raw]. *)
Theorem C2_analytics_readonly_set_after_raw statement :
  ∃ out,
    toMap Duration_String fresh Inputs.analytics_raw_readonly statement
    = (Some out, None) ∧
    Raw Inputs.analytics_raw_readonly ≫= (.!! "readonly") = Some (VBool false) ∧
    out !! "readonly" = Some (VBool true).
Proof.
  destruct (analytics_toMap_succeeds Duration_String fresh
              Inputs.analytics_raw_readonly statement) as [out Hout];
    [by left|].
  exists out. split; [done|]. split; [by vm_compute|].
  by apply (analytics_readonly_wins _ _ _ _ _ Hout).
Qed.

(** C6 (defect in the code).  The search encoder rejects a level together
    with a token with the invalid-arguments error
    ([search_conflict_rejected]).  The analytics encoder rejects positional
    together with named parameters, and returns no map, but the error is the
    plain one of [errors.New], not the invalid-arguments error the search
    path builds with [makeInvalidArgumentsError]. *)
Theorem C6_analytics_conflict_error_is_plain statement :
  toMap Duration_String fresh Inputs.analytics_both statement
  = (None, Some (errors_New
                   "Positional and named parameters must be used exclusively")) ∧
  isInvalidArguments
    (errors_New "Positional and named parameters must be used exclusively")
  = false ∧
  @SearchOptions.toMap R Inputs.search_both
  = (None, Some (makeInvalidArgumentsError
                   "ScanConsistency and ConsistentWith must be used exclusively")) ∧
  isInvalidArguments
    (makeInvalidArgumentsError
       "ScanConsistency and ConsistentWith must be used exclusively")
  = true.
Proof. repeat split; by vm_compute. Qed.

(** C9, as amended.  With named and no positional parameters encoding
    succeeds, and every named parameter [k] has its prefixed key, ["$" + k]
    or [k] itself when it already starts with ["$"], in the output.  The
    value under that key is the parameter's own unless [Raw] has an entry for
    the prefixed key or another named parameter with a different value has
    the same prefixed key.  Encoding [{"a": 1}] and encoding [{"$a": 1}] are
    two calls, each with the identifier it gets from [uuid.New()]: their
    outputs are the same but for ["client_context_id"], where each has its
    own identifier when the caller gave none and [Raw] has no entry for that
    key, and they are the same altogether otherwise.  In both, ["$a"] is 1
    unless [Raw] has an entry for ["$a"], whose value is then the one
    emitted. *)
Theorem C9_named_parameters_prefixed opts statement np :
  NamedParameters opts = Some np →
  PositionalParameters opts = None →
  (∃ out,
     toMap Duration_String fresh opts statement = (Some out, None) ∧
     (∀ k v, np !! k = Some v →
        dollarKey k = (if HasPrefix k "$" then k else "$" ++ k) ∧
        is_Some (out !! dollarKey k)) ∧
     (∀ k v, np !! k = Some v →
        Raw opts ≫= (.!! dollarKey k) = None →
        (∀ k' v', np !! k' = Some v' → dollarKey k' = dollarKey k → v' = v) →
        out !! dollarKey k = Some v)) ∧
  ∀ freshA freshB,
    let optsA := with_parameters None (Some {[ "a" := VInt 1 ]}) opts in
    let optsB := with_parameters None (Some {[ "$a" := VInt 1 ]}) opts in
    ∃ outA outB,
      toMap Duration_String freshA optsA statement = (Some outA, None) ∧
      toMap Duration_String freshB optsB statement = (Some outB, None) ∧
      delete "client_context_id" outA = delete "client_context_id" outB ∧
      (if generates_id opts
       then outA !! "client_context_id" = Some (VUUID freshA) ∧
            outB !! "client_context_id" = Some (VUUID freshB)
       else outA = outB) ∧
      outA !! "$a" = Some (default (VInt 1) (Raw opts ≫= (.!! "$a"))) ∧
      outB !! "$a" = Some (default (VInt 1) (Raw opts ≫= (.!! "$a"))).
Proof.
  intros Hnp Hpos. split.
  - destruct (analytics_toMap_succeeds Duration_String fresh opts statement)
      as [out Hout]; [by left|].
    exists out. split; [done|].
    destruct (analytics_toMap_data _ _ _ _ _ Hout) as (d1 & Hd & Hkey & Hval).
    split.
    + intros k v Hk. split; [apply dollarKey_cases|].
      rewrite Hd.
      rewrite (bool_decide_eq_false_2 _ (dollarKey_not_readonly k)), andb_false_r.
      destruct (Raw opts ≫= _); [by eauto|]. by eapply Hkey.
    + intros k v Hk Hraw Hagree. rewrite Hd, Hraw.
      rewrite (bool_decide_eq_false_2 _ (dollarKey_not_readonly k)), andb_false_r.
      by eapply Hval.
  - intros freshA freshB optsA optsB.
    assert (toMap Duration_String freshB optsA statement
            = toMap Duration_String freshB optsB statement) as Heq.
    { unfold toMap, optsA, optsB, with_parameters, range_nilable, range. simpl.
      by rewrite !range_order_singleton. }
    destruct (analytics_toMap_succeeds Duration_String freshA optsA statement)
      as [outA HoutA]; [by left|].
    destruct (analytics_toMap_succeeds Duration_String freshB optsA statement)
      as [outB HoutB]; [by left|].
    destruct (analytics_toMap_two_ids Duration_String freshA freshB optsA
                statement) as ([_ Hdel] & Hsame & Hids).
    rewrite HoutA, HoutB in Hdel, Hsame. simpl in Hdel.
    assert (∀ fr out,
      toMap Duration_String fr optsA statement = (Some out, None) →
      out !! "$a" = Some (default (VInt 1) (Raw opts ≫= (.!! "$a")))) as Ha.
    { intros fr out Hout.
      destruct (analytics_toMap_data _ _ _ _ _ Hout) as (d1 & Hd & _ & Hval).
      rewrite Hd.
      replace (ReadOnly optsA && bool_decide ("$a" = "readonly")) with false
        by (by rewrite andb_false_r).
      replace (Raw optsA) with (Raw opts) by done.
      destruct (Raw opts ≫= _); [done|]. simpl.
      apply (Hval {[ "a" := VInt 1 ]} "a" (VInt 1)); [done|done|].
      intros k' v' Hk' _. apply lookup_singleton_Some in Hk'. by destruct Hk'. }
    exists outA, outB. rewrite <- Heq.
    split_and!; [done|done|by injection Hdel| |by eapply Ha|by eapply Ha].
    change (generates_id opts) with (generates_id optsA).
    destruct (generates_id optsA) eqn:Hgen.
    + by apply Hids.
    + assert ((Some outA, @None error) = (Some outB, None)) as [=];
        [by apply Hsame; left|done].
Qed.

End analytics_claims.

(** Search encoding with [Raw = {"size": 999}] and [Limit = 5] yields
    [size = 999]. *)
Lemma search_raw_size_example {R : RangeOrder} :
  ∃ out, SearchOptions.toMap Inputs.search_raw_size = (Some out, None) ∧
         out !! "size" = Some (VInt 999).
Proof.
  assert (∃ out, SearchOptions.toMap Inputs.search_raw_size = (Some out, None))
    as [out Hout] by (unfold SearchOptions.toMap; simpl; eauto).
  exists out. split; [done|].
  by apply (search_raw_overrides _ _ "size" (VInt 999) Hout).
Qed.

(** C9, as amended, at [AnalyticsOptions{NamedParameters: {"a": 1},
    Raw: {"$a": 2}}], the two calls generating different identifiers. *)
Lemma C9_named_parameters_prefixed_witness :
  (∃ out,
     @AnalyticsOptions.toMap canonical_order Inputs.show_duration Inputs.a_uuid
       Inputs.analytics_named_shadowed "select 1" = (Some out, None) ∧
     is_Some (out !! "$a")) ∧
  ∃ outA outB,
    @AnalyticsOptions.toMap canonical_order Inputs.show_duration Inputs.a_uuid
      (AnalyticsOptions.with_parameters None (Some {[ "a" := VInt 1 ]})
         Inputs.analytics_named_shadowed) "select 1" = (Some outA, None) ∧
    @AnalyticsOptions.toMap canonical_order Inputs.show_duration
      MoreInputs.another_uuid
      (AnalyticsOptions.with_parameters None (Some {[ "$a" := VInt 1 ]})
         Inputs.analytics_named_shadowed) "select 1" = (Some outB, None) ∧
    delete "client_context_id" outA = delete "client_context_id" outB ∧
    outA !! "client_context_id" = Some (VUUID Inputs.a_uuid) ∧
    outB !! "client_context_id" = Some (VUUID MoreInputs.another_uuid).
Proof.
  destruct (@C9_named_parameters_prefixed canonical_order Inputs.show_duration
              Inputs.a_uuid Inputs.analytics_named_shadowed "select 1"
              {[ "a" := VInt 1 ]} eq_refl eq_refl)
    as [(out & Hout & Hkeys & _) Htwo].
  split.
  - exists out. split; [exact Hout|].
    exact (proj2 (Hkeys "a" (VInt 1) eq_refl)).
  - destruct (Htwo Inputs.a_uuid MoreInputs.another_uuid)
      as (outA & outB & HA & HB & Hdel & Hids & _).
    exists outA, outB. split_and!; [exact HA|exact HB|exact Hdel|..];
      apply Hids.
Defined.

(** C9 as stated does not hold: with [NamedParameters = {"a": 1}] and
    [Raw = {"$a": 2}] the output has ["$a": 2].  Nor are the encodings of
    [{"a": 1}] and of [{"$a": 1}] identical maps when no client context
    identifier is given: each call generates its own. *)
Lemma C9_counterexample_raw_shadows_named :
  AnalyticsOptions.NamedParameters Inputs.analytics_named_shadowed
  = Some {[ "a" := VInt 1 ]} ∧
  AnalyticsOptions.PositionalParameters Inputs.analytics_named_shadowed = None ∧
  (∃ out,
     @AnalyticsOptions.toMap canonical_order Inputs.show_duration Inputs.a_uuid
       Inputs.analytics_named_shadowed "select 1" = (Some out, None) ∧
     out !! "$a" = Some (VInt 2) ∧
     out !! "$a" ≠ Some (VInt 1)) ∧
  ∃ outA outB,
    @AnalyticsOptions.toMap canonical_order Inputs.show_duration Inputs.a_uuid
      (AnalyticsOptions.with_parameters None (Some {[ "a" := VInt 1 ]})
         AnalyticsOptions.zero) "select 1" = (Some outA, None) ∧
    @AnalyticsOptions.toMap canonical_order Inputs.show_duration
      MoreInputs.another_uuid
      (AnalyticsOptions.with_parameters None (Some {[ "$a" := VInt 1 ]})
         AnalyticsOptions.zero) "select 1" = (Some outB, None) ∧
    outA !! "client_context_id" ≠ outB !! "client_context_id" ∧
    outA ≠ outB.
Proof.
  split; [reflexivity|]. split; [reflexivity|]. split.
  - eexists. split; [reflexivity|]. split; [by vm_compute|].
    vm_compute. discriminate.
  - eexists _, _. split; [reflexivity|]. split; [reflexivity|].
    assert (∀ a b : params,
              a !! "client_context_id" ≠ b !! "client_context_id" → a ≠ b)
      as Hne by (intros a b Hab ->; done).
    split; [|apply Hne]; vm_compute; discriminate.
Qed.

(** ** Error enhancement *)

(** C7.  [maybeEnhanceCoreErr] returns for every error value: each of the
    five transport error kinds becomes the corresponding domain error, with
    every field copied, the inner sub-errors translated element by element,
    the retry reasons translated string for string in the same order, and the
    retry attempts kept; any other error value, [nil] included, is returned
    unchanged. *)
Theorem C7_maybeEnhanceCoreErr_by_kind :
  (∀ kvErr, ∃ e,
     maybeEnhanceCoreErr (Some (core_KeyValueError kvErr))
     = Some (gocb_KeyValueError e) ∧
     KeyValueError.InnerError e = gocbcore.KeyValueError.InnerError kvErr ∧
     KeyValueError.StatusCode e = gocbcore.KeyValueError.StatusCode kvErr ∧
     KeyValueError.BucketName e = gocbcore.KeyValueError.BucketName kvErr ∧
     KeyValueError.ScopeName e = gocbcore.KeyValueError.ScopeName kvErr ∧
     KeyValueError.CollectionName e
     = gocbcore.KeyValueError.CollectionName kvErr ∧
     KeyValueError.CollectionID e = gocbcore.KeyValueError.CollectionID kvErr ∧
     KeyValueError.ErrorName e = gocbcore.KeyValueError.ErrorName kvErr ∧
     KeyValueError.ErrorDescription e
     = gocbcore.KeyValueError.ErrorDescription kvErr ∧
     KeyValueError.Opaque e = gocbcore.KeyValueError.Opaque kvErr ∧
     KeyValueError.Context e = gocbcore.KeyValueError.Context kvErr ∧
     KeyValueError.Ref e = gocbcore.KeyValueError.Ref kvErr ∧
     Description <$> KeyValueError.RetryReasons e
     = gocbcore.Description <$> gocbcore.KeyValueError.RetryReasons kvErr ∧
     KeyValueError.RetryAttempts e
     = gocbcore.KeyValueError.RetryAttempts kvErr) ∧
  (∀ viewErr, ∃ e,
     maybeEnhanceCoreErr (Some (core_ViewError viewErr))
     = Some (gocb_ViewError e) ∧
     ViewError.InnerError e = gocbcore.ViewError.InnerError viewErr ∧
     ViewError.DesignDocumentName e
     = gocbcore.ViewError.DesignDocumentName viewErr ∧
     ViewError.ViewName e = gocbcore.ViewError.ViewName viewErr ∧
     (λ d, (ViewErrorDesc.SourceNode d, ViewErrorDesc.Message d))
       <$> ViewError.Errors e
     = (λ d, (gocbcore.ViewErrorDesc.SourceNode d,
              gocbcore.ViewErrorDesc.Message d))
         <$> gocbcore.ViewError.Errors viewErr ∧
     ViewError.Endpoint e = gocbcore.ViewError.Endpoint viewErr ∧
     Description <$> ViewError.RetryReasons e
     = gocbcore.Description <$> gocbcore.ViewError.RetryReasons viewErr ∧
     ViewError.RetryAttempts e = gocbcore.ViewError.RetryAttempts viewErr) ∧
  (∀ queryErr, ∃ e,
     maybeEnhanceCoreErr (Some (core_N1QLError queryErr))
     = Some (gocb_QueryError e) ∧
     QueryError.InnerError e = gocbcore.N1QLError.InnerError queryErr ∧
     QueryError.Statement e = gocbcore.N1QLError.Statement queryErr ∧
     QueryError.ClientContextID e
     = gocbcore.N1QLError.ClientContextID queryErr ∧
     (λ d, (QueryErrorDesc.Code d, QueryErrorDesc.Message d))
       <$> QueryError.Errors e
     = (λ d, (gocbcore.N1QLErrorDesc.Code d, gocbcore.N1QLErrorDesc.Message d))
         <$> gocbcore.N1QLError.Errors queryErr ∧
     QueryError.Endpoint e = gocbcore.N1QLError.Endpoint queryErr ∧
     Description <$> QueryError.RetryReasons e
     = gocbcore.Description <$> gocbcore.N1QLError.RetryReasons queryErr ∧
     QueryError.RetryAttempts e = gocbcore.N1QLError.RetryAttempts queryErr) ∧
  (∀ analyticsErr, ∃ e,
     maybeEnhanceCoreErr (Some (core_AnalyticsError analyticsErr))
     = Some (gocb_AnalyticsError e) ∧
     AnalyticsError.InnerError e
     = gocbcore.AnalyticsError.InnerError analyticsErr ∧
     AnalyticsError.Statement e
     = gocbcore.AnalyticsError.Statement analyticsErr ∧
     AnalyticsError.ClientContextID e
     = gocbcore.AnalyticsError.ClientContextID analyticsErr ∧
     (λ d, (AnalyticsErrorDesc.Code d, AnalyticsErrorDesc.Message d))
       <$> AnalyticsError.Errors e
     = (λ d, (gocbcore.AnalyticsErrorDesc.Code d,
              gocbcore.AnalyticsErrorDesc.Message d))
         <$> gocbcore.AnalyticsError.Errors analyticsErr ∧
     AnalyticsError.Endpoint e
     = gocbcore.AnalyticsError.Endpoint analyticsErr ∧
     Description <$> AnalyticsError.RetryReasons e
     = gocbcore.Description
         <$> gocbcore.AnalyticsError.RetryReasons analyticsErr ∧
     AnalyticsError.RetryAttempts e
     = gocbcore.AnalyticsError.RetryAttempts analyticsErr) ∧
  (∀ httpErr, ∃ e,
     maybeEnhanceCoreErr (Some (core_HTTPError httpErr))
     = Some (gocb_HTTPError e) ∧
     HTTPError.InnerError e = gocbcore.HTTPError.InnerError httpErr ∧
     HTTPError.UniqueID e = gocbcore.HTTPError.UniqueID httpErr ∧
     HTTPError.Endpoint e = gocbcore.HTTPError.Endpoint httpErr ∧
     Description <$> HTTPError.RetryReasons e
     = gocbcore.Description <$> gocbcore.HTTPError.RetryReasons httpErr ∧
     HTTPError.RetryAttempts e = gocbcore.HTTPError.RetryAttempts httpErr) ∧
  (∀ err, isCoreErr err = false → maybeEnhanceCoreErr err = err) ∧
  (∀ err, is_Some (maybeEnhanceCoreErr err) ↔ is_Some err).
Proof.
  repeat match goal with |- _ ∧ _ => split end.
  1-5: intros x; eexists; split; [reflexivity|]; simpl;
    unfold translateCoreRetryReasons, translateCoreViewErrorDesc,
      translateCoreQueryErrorDesc, translateCoreAnalyticsErrorDesc;
    rewrite <- ?list_fmap_compose; repeat split; reflexivity.
  - intros [[]|]; simpl; intros; done.
  - intros [[]|]; simpl; split; intros [? ?]; by eauto.
Qed.

(** ** Connecting *)

Section connect_facts.
Context {E : Env}.

Lemma parseTimeoutOption_ManagementTimeout spec name set sb sb' :
  (∀ d b, stateBlock.ManagementTimeout (set d b) = stateBlock.ManagementTimeout b) →
  parseTimeoutOption spec name set sb = inr sb' →
  stateBlock.ManagementTimeout sb' = stateBlock.ManagementTimeout sb.
Proof.
  intros Hset. unfold parseTimeoutOption.
  destruct (fetchOption spec name); [destruct (strconv_ParseInt _)|];
    intros [=]; subst; by rewrite ?Hset.
Qed.

(** The connection-string options never touch the management timeout. *)
Lemma parseExtraConnStrOptions_ManagementTimeout spec c c' :
  parseExtraConnStrOptions spec c = (c', None) →
  stateBlock.ManagementTimeout (Cluster.sb c')
  = stateBlock.ManagementTimeout (Cluster.sb c).
Proof.
  unfold parseExtraConnStrOptions, and_then.
  destruct (parseTimeoutOption spec "n1ql_timeout" _ _) as [|sb1] eqn:H1;
    [intros [=]|].
  destruct (parseTimeoutOption spec "analytics_timeout" _ _) as [|sb2] eqn:H2;
    [intros [=]|].
  destruct (parseTimeoutOption spec "search_timeout" _ _) as [|sb3] eqn:H3;
    [intros [=]|].
  destruct (parseTimeoutOption spec "view_timeout" _ _) as [|sb4] eqn:H4;
    intros [= <-]. simpl.
  apply parseTimeoutOption_ManagementTimeout in H1, H2, H3, H4; try done.
  congruence.
Qed.

(** What [Connect] makes of the management timeout whenever it returns a
    cluster: the search timeout of the options, as given, when a positive
    management timeout is asked for, and 75 seconds otherwise. *)
Lemma Connect_ManagementTimeout connStr opts w c err w' :
  Connect connStr opts w = ((Some c, err), w') →
  stateBlock.ManagementTimeout (Cluster.sb c)
  = if bool_decide (ClusterOptions.ManagementTimeout opts > 0)
    then ClusterOptions.SearchTimeout opts
    else 75000 * Millisecond.
Proof.
  unfold Connect. destruct (gocbconnstr_Parse connStr) as [spec|]; [|intros [=]].
  destruct (ClusterOptions.ThresholdLoggerDisabled opts);
    unfold mbind, M_bind, mret, M_ret, tracerAddRef, emit, modify; simpl;
    match goal with
    | |- context [parseExtraConnStrOptions spec ?c0] =>
        destruct (parseExtraConnStrOptions spec c0) as [c1 [e1|]] eqn:Hextra
    end; try (intros [=]; fail);
    apply parseExtraConnStrOptions_ManagementTimeout in Hextra;
    simpl in Hextra;
    unfold client_buildConfig, client_connect, get, emit, modify, update_client,
      mbind, M_bind, mret, M_ret; simpl;
    repeat (case_match; simplify_eq; simpl; try (intros [=]; fail));
    intros [= <- <- <-]; simpl; exact Hextra.
Qed.

End connect_facts.

(** C8 (defect in the code).  [Connect] takes every other timeout from its
    own option, but for a positive [ManagementTimeout] it stores
    [opts.SearchTimeout]: with [ClusterOptions{ManagementTimeout: 5s}] the
    cluster's management timeout is 0, neither the 5 seconds supplied nor the
    75 seconds the search timeout takes; with [SearchTimeout: 3s] besides, it
    is 3 seconds. *)
Theorem C8_management_timeout_takes_search_option :
  (∃ c w,
     @Connect Inputs.obliging "couchbase://localhost" Inputs.management_5s
       Inputs.nothing_yet = ((Some c, None), w) ∧
     ClusterOptions.ManagementTimeout Inputs.management_5s = 5 * Second ∧
     stateBlock.ManagementTimeout (Cluster.sb c) = 0 ∧
     stateBlock.SearchTimeout (Cluster.sb c) = 75 * Second) ∧
  (∃ c w,
     @Connect Inputs.obliging "couchbase://localhost"
       Inputs.search_3s_management_5s Inputs.nothing_yet = ((Some c, None), w) ∧
     ClusterOptions.ManagementTimeout Inputs.search_3s_management_5s
     = 5 * Second ∧
     stateBlock.ManagementTimeout (Cluster.sb c) = 3 * Second).
Proof.
  split; eexists _, _; (split; [by vm_compute|]); repeat split; by vm_compute.
Qed.

(** ** Routing a cluster-scoped request *)

Section routing_facts.
Context {R : RangeOrder}.

Lemma randomClient_loop_client w conns firstError :
  (randomClient_loop w conns None firstError).1 = first_connected w conns.*2.
Proof.
  unfold first_connected.
  induction conns as [|[k c] conns IH] in firstError |- *; [done|].
  simpl. destruct (client_connected c w) eqn:Hc.
  - by rewrite filter_cons_True.
  - rewrite filter_cons_False by (by rewrite Hc).
    case_bool_decide; apply IH.
Qed.

Lemma randomClient_loop_error w conns firstError :
  first_connected w conns.*2 = None →
  (randomClient_loop w conns None firstError).2
  = match firstError with
    | Some e => Some e
    | None => first_bootstrap_error w conns.*2
    end.
Proof.
  unfold first_connected, first_bootstrap_error.
  induction conns as [|[k c] conns IH] in firstError |- *;
    [by destruct firstError|].
  simpl. destruct (client_connected c w) eqn:Hc.
  - by rewrite filter_cons_True.
  - rewrite filter_cons_False by (by rewrite Hc). intros Hnone.
    case_bool_decide as Hfe.
    + subst firstError. rewrite IH by done.
      by destruct (client_getBootstrapError c w).
    + rewrite IH by done. by destruct firstError.
Qed.

(** What [randomClient] returns. *)
Lemma Cluster_randomClient_spec s :
  Cluster_randomClient s
  = let cs := (range_order (Cluster.connections (this s))).*2 in
    match first_connected (wld s) cs with
    | Some c => (Some c, None)
    | None =>
        (None, Some (default (errors_New "not connected to cluster")
                       (first_bootstrap_error (wld s) cs)))
    end.
Proof.
  unfold Cluster_randomClient. case_bool_decide as Hsize.
  - apply map_size_empty_inv in Hsize. rewrite Hsize, range_order_empty. done.
  - destruct (randomClient_loop _ _ _ _) as [rc fe] eqn:Hloop. simpl.
    pose proof (randomClient_loop_client (wld s)
      (range_order (Cluster.connections (this s))) None) as Hc.
    pose proof (randomClient_loop_error (wld s)
      (range_order (Cluster.connections (this s))) None) as He.
    rewrite Hloop in Hc, He. simpl in Hc, He. rewrite <- Hc.
    destruct rc as [rc|]; [done|]. rewrite He by done.
    by destruct (first_bootstrap_error _ _).
Qed.

(** C5.  [clusterOrRandomClient] routes as the specification says: an
    unclaimed floating client is returned exactly when it supports
    cluster-level operations, and otherwise the call fails with the
    unsupported error whatever the registry holds; once the floating client
    is claimed, the first connected registry entry in iteration order is
    returned; if none is connected the call fails with the first bootstrap
    error among the entries, or with "not connected to cluster" when there is
    no bootstrap error or the registry is empty. *)
Theorem C5_clusterOrRandomClient_routes s :
  Cluster_clusterOrRandomClient s = routed s ∧
  (∀ cli, Cluster.clusterClient (this s) = Some cli →
     Cluster_clusterOrRandomClient s
     = if client_supportsGCCCP cli (wld s) then (Some cli, None)
       else (None, Some (errors_New
               "cluster-level operations not supported due to cluster version"))) ∧
  (Cluster.clusterClient (this s) = None →
   Cluster.connections (this s) = ∅ →
   Cluster_clusterOrRandomClient s
   = (None, Some (errors_New "not connected to cluster"))).
Proof.
  assert (Cluster_clusterOrRandomClient s = routed s) as Hrouted.
  { unfold Cluster_clusterOrRandomClient, routed.
    destruct (Cluster.clusterClient (this s)) as [cli|].
    - by destruct (client_supportsGCCCP cli (wld s)).
    - rewrite Cluster_randomClient_spec. simpl.
      by destruct (first_connected _ _). }
  split; [done|]. split.
  - intros cli Hcli. rewrite Hrouted. unfold routed. by rewrite Hcli.
  - intros Hnone Hempty. rewrite Hrouted. unfold routed.
    by rewrite Hnone, Hempty, range_order_empty.
Qed.

End routing_facts.

(** ** Shutting the cluster down *)

Lemma last_failure_app rs1 rs2 :
  last_failure (rs1 ++ rs2)
  = match last_failure rs2 with
    | Some e => Some e
    | None => last_failure rs1
    end.
Proof.
  unfold last_failure. rewrite omap_app.
  destruct (omap id rs2) as [|e l] using rev_ind.
  - by rewrite app_nil_r.
  - by rewrite app_assoc, !last_snoc.
Qed.

Lemma closes_of_app evs1 evs2 :
  closes_of (evs1 ++ evs2) = (closes_of evs1 ++ closes_of evs2)%list.
Proof. apply omap_app. Qed.

(** Deleting, one after the other, the keys of a sequence that covers the
    keys of a map leaves the empty map. *)
Lemma foldl_delete_None {V : Type} (xs : list (string * V))
    (m : gmap string V) (k : string) :
  m !! k = None ∨ k ∈ xs.*1 →
  foldl (λ acc kv, delete kv.1 acc) m xs !! k = None.
Proof.
  induction xs as [|[k' v] xs IH] in m |- *; simpl.
  - intros [Hm|Hin]; [done|]. by apply elem_of_nil in Hin.
  - intros [Hm|Hin]; apply IH.
    + left. apply lookup_delete_None. by right.
    + apply elem_of_cons in Hin. destruct Hin as [->|Hin]; [|by right].
      left. apply lookup_delete_eq.
Qed.

Lemma foldl_delete_range_order {R : RangeOrder} {V : Type} (m : gmap string V) :
  foldl (λ acc kv, delete kv.1 acc) m (range_order m) = ∅.
Proof.
  apply map_eq. intros k. rewrite lookup_empty. apply foldl_delete_None.
  destruct (m !! k) as [v|] eqn:Hm; [|by left].
  right. apply list_elem_of_fmap. exists (k, v).
  split; [done|]. by apply elem_of_range_order.
Qed.

Section close_facts.
Context {R : RangeOrder} {E : Env}.

Lemma moved_nothing s :
  moved s (Cluster.connections (this s)) (heap (wld s)) [] = s.
Proof.
  destruct s as [[] []]. unfold moved, Cluster.set_connections. simpl.
  by rewrite app_nil_r.
Qed.

Lemma moved_moved s conns h evs conns' h' evs' :
  moved (moved s conns h evs) conns' h' evs' = moved s conns' h' (evs ++ evs').
Proof.
  unfold moved, Cluster.set_connections. simpl. by rewrite app_assoc.
Qed.

Lemma warnings_of_app evs1 evs2 :
  warnings_of (evs1 ++ evs2) = (warnings_of evs1 ++ warnings_of evs2)%list.
Proof. apply omap_app. Qed.

(** One close: exactly one close call reaches the transport, and a warning
    with its error is logged when it fails; the running error is overwritten
    when the call fails and kept otherwise; no other client is touched. *)
Lemma close_and_note_spec format conn a s :
  ∃ evs r h,
    close_and_note format conn a s
    = (match r with Some e => Some e | None => a end,
       moved s (Cluster.connections (this s)) h evs) ∧
    closes_of evs = [(conn, r)] ∧
    warnings_of evs = option_list r ∧
    Forall (λ ev, is_close_event ev = true) evs ∧
    ∀ c, c ≠ conn → h !! c = heap (wld s) !! c.
Proof.
  unfold close_and_note, client_close, liftW, logWarnf, emit, get, modify,
    update_client, set_heap, mbind, M_bind, mret, M_ret, moved.
  destruct s as [c w]. simpl.
  replace (Cluster.set_connections (Cluster.connections c) c) with c
    by (by destruct c).
  destruct (close_outcome (log w) conn) as [e|] eqn:Hr.
  - exists [EvClose conn (Some e); EvLogWarnf format e], (Some e).
    eexists. simpl. rewrite <- app_assoc. split_and!; try done.
    + by repeat constructor.
    + intros c' Hne. by rewrite lookup_alter_ne.
  - exists [EvClose conn None], None. eexists. split_and!; try done.
    + by repeat constructor.
    + intros c' Hne. by rewrite lookup_alter_ne.
Qed.

Lemma foldM_cons {S A X : Type} (body : X → A → M S A) x xs a s :
  foldM body (x :: xs) a s
  = let '(a', s') := body x a s in foldM body xs a' s'.
Proof. reflexivity. Qed.

(** The loop of [Close] over a sequence of entries. *)
Lemma Close_loop xs a s :
  ∃ evs h,
    foldM (λ kv : string * client, Close_step kv.1 kv.2) xs a s
    = (match last_failure (closes_of evs).*2 with Some e => Some e | None => a end,
       moved s (foldl (λ acc kv, delete kv.1 acc)
                  (Cluster.connections (this s)) xs) h evs) ∧
    (closes_of evs).*1 = xs.*2 ∧
    warnings_of evs = omap id (closes_of evs).*2 ∧
    Forall (λ ev, is_close_event ev = true) evs ∧
    ∀ c, c ∉ xs.*2 → h !! c = heap (wld s) !! c.
Proof.
  induction xs as [|[k conn] xs IH] in a, s |- *.
  - exists [], (heap (wld s)). simpl. rewrite moved_nothing.
    split_and!; by try constructor.
  - rewrite foldM_cons. simpl.
    destruct (close_and_note_spec
                "Failed to close a client in cluster close: %s" conn a s)
      as (evs1 & r1 & h1 & Heq1 & Hc1 & Hw1 & Hall1 & Hframe1).
    unfold Close_step at 1, mbind at 1, M_bind at 1. rewrite Heq1.
    unfold mbind, M_bind, modify_this, modify, mret, M_ret. simpl.
    match goal with
    | |- context [foldM _ xs ?a1 ?s1] =>
        destruct (IH a1 s1) as (evs2 & h2 & -> & Hc2 & Hw2 & Hall2 & Hframe2)
    end.
    exists (evs1 ++ evs2)%list, h2. split_and!.
    + f_equal.
      * rewrite closes_of_app, fmap_app, last_failure_app, Hc1. simpl.
        destruct (last_failure (closes_of evs2).*2); [done|].
        unfold last_failure. simpl. by destruct r1.
      * unfold moved, Cluster.set_connections. simpl. by rewrite app_assoc.
    + rewrite closes_of_app, fmap_app, Hc1, Hc2. done.
    + rewrite warnings_of_app, closes_of_app, fmap_app, omap_app, Hw1, Hw2, Hc1.
      by destruct r1.
    + by apply Forall_app.
    + intros c Hc. apply not_elem_of_cons in Hc as [Hne Hc].
      rewrite Hframe2 by done. simpl. by apply Hframe1.
Qed.

(** What [Close] returns and the state it leaves behind: the closes, with a
    warning for each that fails, then the release of the tracer; no client
    other than the closed ones is touched. *)
Lemma Close_state opts s :
  ∃ evs h,
    Cluster_Close opts s
    = (last_failure (closes_of evs).*2,
       {| this := closed (this s);
          wld := {| heap := h;
                    log := log (wld s) ++ evs
                           ++ match stateBlock.Tracer (Cluster.sb (this s)) with
                              | Some tracer => [EvTracerDecRef tracer]
                              | None => []
                              end |} |}) ∧
    (closes_of evs).*1
    = ((range_order (Cluster.connections (this s))).*2
       ++ option_list (Cluster.clusterClient (this s)))%list ∧
    warnings_of evs = omap id (closes_of evs).*2 ∧
    Forall (λ ev, is_close_event ev = true) evs ∧
    ∀ c, c ∉ (closes_of evs).*1 → h !! c = heap (wld s) !! c.
Proof.
  unfold Cluster_Close, rangeM.
  unfold mbind at 1, M_bind at 1, get at 1.
  unfold mbind at 1, M_bind at 1.
  destruct (Close_loop (range_order (Cluster.connections (this s))) None s)
    as (evs1 & h1 & -> & Hc1 & Hw1 & Hall1 & Hframe1).
  rewrite foldl_delete_range_order.
  set (a1 := match last_failure (closes_of evs1).*2 with
             | Some e => Some e | None => None end).
  assert (a1 = last_failure (closes_of evs1).*2) as Ha1
    by (subst a1; by destruct (last_failure _)).
  unfold mbind at 1, M_bind at 1, get at 1.
  unfold mbind at 1, M_bind at 1.
  assert (∃ evs2 h2,
    match Cluster.clusterClient (this (moved s ∅ h1 evs1)) with
    | Some clusterClient =>
        close_and_note "Failed to close cluster client in cluster close: %s"
          clusterClient a1
    | None => mret a1
    end (moved s ∅ h1 evs1)
    = (last_failure (closes_of (evs1 ++ evs2)).*2,
       moved s ∅ h2 (evs1 ++ evs2)) ∧
    (closes_of evs2).*1 = option_list (Cluster.clusterClient (this s)) ∧
    warnings_of evs2 = omap id (closes_of evs2).*2 ∧
    Forall (λ ev, is_close_event ev = true) evs2 ∧
    ∀ c, c ∉ (closes_of evs2).*1 → h2 !! c = h1 !! c)
    as (evs2 & h2 & -> & Hc2 & Hw2 & Hall2 & Hframe2).
  { simpl. destruct (Cluster.clusterClient (this s)) as [cc|].
    - destruct (close_and_note_spec
                  "Failed to close cluster client in cluster close: %s"
                  cc a1 (moved s ∅ h1 evs1))
        as (evs2 & r2 & h2 & Heq & Hc2 & Hw2 & Hall2 & Hframe2).
      exists evs2, h2.
      split_and!; [|by rewrite Hc2|by rewrite Hw2, Hc2; destruct r2|done|].
      + rewrite Heq, moved_moved. f_equal.
        rewrite closes_of_app, fmap_app, last_failure_app, Hc2, Ha1. simpl.
        unfold last_failure at 1. simpl. by destruct r2.
      + rewrite Hc2. simpl. intros c Hc. apply Hframe2. set_solver.
    - exists [], h1. rewrite app_nil_r. split_and!; try done. by rewrite Ha1. }
  exists (evs1 ++ evs2)%list, h2. split_and!.
  - unfold mbind, M_bind, get, mret, M_ret, modify_this, modify, liftW,
      tracerDecRef, emit, closed, moved. simpl.
    destruct (stateBlock.Tracer (Cluster.sb (this s))) as [tracer|]; simpl;
      rewrite ?app_nil_r, <- ?app_assoc; reflexivity.
  - by rewrite closes_of_app, fmap_app, Hc1, Hc2.
  - by rewrite warnings_of_app, closes_of_app, fmap_app, omap_app, Hw1, Hw2.
  - by apply Forall_app.
  - intros c Hc. rewrite closes_of_app, fmap_app, Hc1 in Hc.
    apply not_elem_of_app in Hc as [Hc Hc'].
    rewrite Hframe2 by done. by apply Hframe1.
Qed.

(** What [Close] does, in terms of the events it adds to the log. *)
Lemma Close_result opts s :
  ∃ evs,
    log (wld (Cluster_Close opts s).2) = (log (wld s) ++ evs)%list ∧
    (closes_of evs).*1
    = ((range_order (Cluster.connections (this s))).*2
       ++ option_list (Cluster.clusterClient (this s)))%list ∧
    (Cluster_Close opts s).1 = last_failure (closes_of evs).*2 ∧
    Cluster.connections (this (Cluster_Close opts s).2) = ∅.
Proof.
  destruct (Close_state opts s) as (evs & h & -> & Hc & _). simpl.
  set (rel := match stateBlock.Tracer (Cluster.sb (this s)) with
              | Some tracer => [EvTracerDecRef tracer]
              | None => []
              end).
  assert (closes_of rel = []) as Hrel
    by (subst rel; by destruct (stateBlock.Tracer _)).
  exists (evs ++ rel)%list.
  rewrite closes_of_app, Hrel, app_nil_r. split_and!; try done.
  unfold closed. by destruct (stateBlock.Tracer (Cluster.sb (this s))).
Qed.

(** C3, as amended.  [Close] calls close on every registered connection, in
    iteration order, and then on the floating client if it is still
    unclaimed, whether or not earlier closes failed; it returns the error of
    the last close that failed, [nil] if none did; afterwards the registry
    map is empty. *)
Theorem C3_Close_best_effort_last_error opts s :
  ∃ evs,
    log (wld (Cluster_Close opts s).2) = (log (wld s) ++ evs)%list ∧
    (closes_of evs).*1
    = ((range_order (Cluster.connections (this s))).*2
       ++ option_list (Cluster.clusterClient (this s)))%list ∧
    (Cluster_Close opts s).1 = last_failure (closes_of evs).*2 ∧
    Cluster.connections (this (Cluster_Close opts s).2) = ∅.
Proof. apply Close_result. Qed.

(** When exactly one close fails, its error is the one returned: the first
    and the last failure are the same. *)
Lemma Close_single_failure opts s evs e :
  log (wld (Cluster_Close opts s).2) = (log (wld s) ++ evs)%list →
  omap id (closes_of evs).*2 = [e] →
  (Cluster_Close opts s).1 = Some e ∧
  first_failure (closes_of evs).*2 = Some e.
Proof.
  intros Hlog Hone.
  destruct (Close_result opts s) as (evs' & Hlog' & _ & -> & _).
  rewrite Hlog in Hlog'. apply app_inv_head in Hlog'. subst evs'.
  unfold last_failure, first_failure. by rewrite Hone.
Qed.

(** The floating client stays in its slot when [Close] has closed it. *)
Lemma Close_keeps_clusterClient opts s :
  Cluster.clusterClient (this (Cluster_Close opts s).2)
  = Cluster.clusterClient (this s).
Proof.
  destruct (Close_state opts s) as (evs & h & -> & _). simpl.
  unfold closed. by destruct (stateBlock.Tracer (Cluster.sb (this s))).
Qed.

End close_facts.

(** ** Acquiring a bucket *)

Section bucket_facts.
Context {E : Env}.

Ltac run_bucket :=
  unfold Cluster_Bucket, Cluster_takeClusterClient, Cluster_getClient, liftW,
    client_buildConfig, client_connect, client_selectBucket,
    client_setBootstrapError, update_client, whenSome, modify_this, modify,
    emit, get, newClient, mbind, M_bind, mret, M_ret;
  simpl.

Lemma takeClusterClient_empty s :
  Cluster.clusterClient (this s) = None → Cluster_takeClusterClient s = (None, s).
Proof. intros Hcc. run_bucket. by rewrite Hcc. Qed.

Lemma takeClusterClient_claims s cli :
  Cluster.clusterClient (this s) = Some cli →
  Cluster_takeClusterClient s
  = (Some cli, {| this := Cluster.set_clusterClient None (this s); wld := wld s |}).
Proof. intros Hcc. run_bucket. by rewrite Hcc. Qed.

(** The acquisition that finds the floating client: the whole outcome. *)
Lemma Bucket_floating bucketName opts s cli :
  Cluster.clusterClient (this s) = Some cli →
  let b := newBucket (Cluster.sb (this s)) bucketName
             (default {| bucketOptions_repr := "" |} opts) in
  let r := selectBucket_outcome (log (wld s)) cli bucketName in
  Cluster_Bucket bucketName opts s
  = (Bucket_cacheClient cli b,
     {| this :=
          Cluster.set_connections
            (<[Bucket_hash b := cli]> (Cluster.connections (this s)))
            (Cluster.set_clusterClient None (this s));
        wld :=
          {| heap :=
               match r with
               | Some err =>
                   alter (λ o, {| clientSb := clientSb o;
                                  bootstrapErr := Some err;
                                  isConnected := isConnected o;
                                  gcccp := gcccp o |}) cli (heap (wld s))
               | None => heap (wld s)
               end;
             log := log (wld s) ++ [EvSelectBucket cli bucketName r] |} |}).
Proof.
  intros Hcc b r. run_bucket. rewrite Hcc. simpl. subst r.
  by destruct (selectBucket_outcome _ _ _).
Qed.

Lemma is_Some_alter {A : Type} (f : A → A) (m : gmap client A) i j :
  is_Some (m !! j) → is_Some (alter f i m !! j).
Proof.
  intros [x Hx]. rewrite lookup_alter. case_decide; [subst|]; rewrite Hx; eauto.
Qed.

Lemma is_Some_insert {A : Type} (x : A) (m : gmap client A) i j :
  is_Some (m !! j) → is_Some (<[i := x]> m !! j).
Proof. intros Hj. apply lookup_insert_is_Some'. by right. Qed.

(** The acquisition that finds the floating slot empty: the client is the
    registry's entry for the bucket's identity hash if there is one and a
    newly created client otherwise, and it is stored under that hash; no
    client object disappears. *)
Lemma Bucket_no_floating bucketName opts s :
  Cluster.clusterClient (this s) = None →
  let b := newBucket (Cluster.sb (this s)) bucketName
             (default {| bucketOptions_repr := "" |} opts) in
  let cli := default (fresh (dom (heap (wld s))))
               (Cluster.connections (this s) !! Bucket_hash b) in
  ∃ w',
    Cluster_Bucket bucketName opts s
    = (Bucket_cacheClient cli b,
       {| this :=
            Cluster.set_connections
              (<[Bucket_hash b := cli]> (Cluster.connections (this s))) (this s);
          wld := w' |}) ∧
    ∀ c, is_Some (heap (wld s) !! c) → is_Some (heap w' !! c).
Proof.
  intros Hcc b cli. run_bucket. rewrite Hcc. simpl.
  subst cli. unfold Bucket_hash. simpl.
  destruct (Cluster.connections (this s) !! _) as [c|]; simpl;
    repeat (case_match; simplify_eq/=);
    (eexists; split; [reflexivity|]); simpl; intros c' Hc';
    repeat first [apply is_Some_alter | apply is_Some_insert]; done.
Qed.

End bucket_facts.

Section bucket_claims.
Context {E : Env}.

(** One acquisition after the claim: the claim stands, the registry only
    grows, and the bucket is served as described. *)
Lemma Bucket_after_claim cli h1 bucketName opts s :
  claimed_for cli h1 s →
  claimed_for cli h1 (Cluster_Bucket bucketName opts s).2 ∧
  Cluster.connections (this s)
    ⊆ Cluster.connections (this (Cluster_Bucket bucketName opts s).2) ∧
  served_after_claim cli h1 (Cluster_Bucket bucketName opts s).2
    (Cluster_Bucket bucketName opts s).1.
Proof.
  intros (Hslot & Hcli & Hreg & Honly).
  destruct (Bucket_no_floating bucketName opts s Hslot) as (w' & -> & Hheap).
  simpl. unfold served_after_claim, claimed_for, Bucket_hash. simpl.
  set (h := Hash {| clientStateBlock.BucketName := bucketName |}).
  destruct (Cluster.connections (this s) !! h) as [c|] eqn:Hh; simpl.
  - rewrite (insert_id _ _ _ Hh). split_and!; try done; [by apply Hheap|].
    exists c. split_and!; [done|done|].
    split; [intros ->; by apply Honly|intros <-; congruence].
  - assert (fresh (dom (heap (wld s))) ≠ cli) as Hfresh.
    { intros Heq. apply (is_fresh (dom (heap (wld s)))). rewrite Heq.
      by apply elem_of_dom. }
    assert (h ≠ h1) as Hne by congruence.
    split_and!; try done.
    + by apply Hheap.
    + by rewrite lookup_insert_ne.
    + intros h' Hh'. apply Honly.
      rewrite lookup_insert in Hh'. case_decide; [congruence|done].
    + by apply insert_subseteq.
    + eexists. split_and!; [done|by rewrite lookup_insert_eq|].
      split; [intros Heq; by destruct Hfresh|intros Heq; by destruct Hne].
Qed.

(** Any number of acquisitions after the claim. *)
Lemma acquire_all_after_claim cli h1 calls s :
  claimed_for cli h1 s →
  claimed_for cli h1 (acquire_all calls s).2 ∧
  Cluster.connections (this s)
    ⊆ Cluster.connections (this (acquire_all calls s).2) ∧
  Forall (served_after_claim cli h1 (acquire_all calls s).2)
    (acquire_all calls s).1.
Proof.
  induction calls as [|[bucketName opts] calls IH] in s |- *; intros Hs.
  - simpl. split_and!; [done|done|by constructor].
  - simpl. unfold mbind, M_bind.
    destruct (Bucket_after_claim cli h1 bucketName opts s Hs)
      as (Hs1 & Hsub1 & (c & Hc & Hreg & Hiff)).
    destruct (Cluster_Bucket bucketName opts s) as [b s1]. simpl in *.
    destruct (IH s1 Hs1) as (Hs2 & Hsub2 & Hall).
    destruct (acquire_all calls s1) as [bs s2]. simpl in *.
    split_and!; [done|by etrans|].
    constructor; [|done].
    exists c. split_and!; [done| |done].
    by eapply lookup_weaken.
Qed.

(** C4, as amended.  When the floating client [cli] is unclaimed, the
    acquisition returns that client after selecting the bucket on it, records
    a selection failure as its bootstrap error and keeps the client, stores it
    in the registry under the bucket's identity hash and empties the floating
    slot.  Every acquisition made while the slot is empty gets nothing from
    [takeClusterClient], leaves the slot empty, and returns the registry's
    entry for its identity hash if there is one and a newly created client
    otherwise, stored under that hash.  So, of all the acquisitions that
    follow the claim, those of another identity hash get a connection
    distinct from the claimed client, those of the same identity hash get the
    claimed client again, and each returned connection stays registered under
    the identity hash of its bucket. *)
Theorem C4_floating_client_claimed_once bucketName opts s cli :
  Cluster.clusterClient (this s) = Some cli →
  is_Some (heap (wld s) !! cli) →
  (∀ h, Cluster.connections (this s) !! h ≠ Some cli) →
  let b := (Cluster_Bucket bucketName opts s).1 in
  let s1 := (Cluster_Bucket bucketName opts s).2 in
  let r := selectBucket_outcome (log (wld s)) cli bucketName in
  Bucket.cachedClient b = Some cli ∧
  log (wld s1) = (log (wld s) ++ [EvSelectBucket cli bucketName r])%list ∧
  (∀ err, r = Some err → client_getBootstrapError cli (wld s1) = Some err) ∧
  (r = None →
   client_getBootstrapError cli (wld s1) = client_getBootstrapError cli (wld s)) ∧
  is_Some (heap (wld s1) !! cli) ∧
  Cluster.connections (this s1) !! Bucket_hash b = Some cli ∧
  Cluster.clusterClient (this s1) = None ∧
  (∀ s2 name2 opts2,
     Cluster.clusterClient (this s2) = None →
     let b2 := (Cluster_Bucket name2 opts2 s2).1 in
     let s3 := (Cluster_Bucket name2 opts2 s2).2 in
     Cluster_takeClusterClient s2 = (None, s2) ∧
     Cluster.clusterClient (this s3) = None ∧
     ∃ c2,
       Bucket.cachedClient b2 = Some c2 ∧
       Cluster.connections (this s3) !! Bucket_hash b2 = Some c2 ∧
       match Cluster.connections (this s2) !! Bucket_hash b2 with
       | Some c => c2 = c
       | None => heap (wld s2) !! c2 = None
       end) ∧
  (∀ calls,
     let later := acquire_all calls s1 in
     Cluster.clusterClient (this later.2) = None ∧
     Forall (λ b2,
       ∃ c2, Bucket.cachedClient b2 = Some c2 ∧
             Cluster.connections (this later.2) !! Bucket_hash b2 = Some c2 ∧
             (c2 = cli ↔ Bucket_hash b2 = Bucket_hash b)) later.1).
Proof.
  intros Hcc Hcli Hunreg b s1 r.
  pose proof (Bucket_floating bucketName opts s cli Hcc) as Hfirst.
  simpl in Hfirst. fold r in Hfirst.
  assert (heap (wld s1) !! cli
          = match r with
            | Some err => (λ o, {| clientSb := clientSb o;
                                   bootstrapErr := Some err;
                                   isConnected := isConnected o;
                                   gcccp := gcccp o |}) <$> heap (wld s) !! cli
            | None => heap (wld s) !! cli
            end) as Hheap.
  { subst s1. rewrite Hfirst. simpl.
    destruct r; [by rewrite lookup_alter_eq|done]. }
  assert (is_Some (heap (wld s1) !! cli)) as Halive.
  { rewrite Hheap. destruct Hcli as [o ->]. by destruct r. }
  assert (Cluster.connections (this s1) !! Bucket_hash b = Some cli) as Hreg.
  { subst s1 b. rewrite Hfirst. simpl. unfold Bucket_hash. simpl.
    by rewrite lookup_insert_eq. }
  assert (Cluster.clusterClient (this s1) = None) as Hslot
    by (subst s1; by rewrite Hfirst).
  assert (claimed_for cli (Bucket_hash b) s1) as Hclaimed.
  { split_and!; try done. intros h Hh.
    destruct (decide (h = Bucket_hash b)) as [|Hne]; [done|].
    exfalso. apply (Hunreg h). rewrite <- Hh.
    subst s1 b. rewrite Hfirst in Hne |- *. simpl in *.
    by rewrite lookup_insert_ne. }
  split_and!.
  - subst b. by rewrite Hfirst.
  - subst s1. by rewrite Hfirst.
  - intros err Hr. unfold client_getBootstrapError. rewrite Hheap, Hr.
    destruct Hcli as [o ->]. done.
  - intros Hr. unfold client_getBootstrapError. by rewrite Hheap, Hr.
  - exact Halive.
  - exact Hreg.
  - exact Hslot.
  - intros s2 name2 opts2 Hnone b2 s3.
    destruct (Bucket_no_floating name2 opts2 s2 Hnone) as (w' & Hb & _).
    subst b2 s3. rewrite Hb. simpl.
    split; [by apply takeClusterClient_empty|]. split; [done|].
    eexists. split; [reflexivity|].
    unfold Bucket_hash. simpl. split; [by rewrite lookup_insert_eq|].
    destruct (Cluster.connections (this s2) !! _) as [c|]; simpl; [done|].
    apply not_elem_of_dom, is_fresh.
  - intros calls later.
    destruct (acquire_all_after_claim cli (Bucket_hash b) calls s1 Hclaimed)
      as ((Hnone & _) & _ & Hall).
    split; [done|exact Hall].
Qed.

End bucket_claims.

(** C4, as amended, at the state [Connect] leaves behind, for the bucket
    ["travel"]. *)
Lemma C4_floating_client_claimed_once_witness :
  Bucket.cachedClient (@Cluster_Bucket Inputs.obliging "travel" None Inputs.connected).1
  = Some 0%nat ∧
  Cluster.clusterClient
    (this (@Cluster_Bucket Inputs.obliging "travel" None Inputs.connected).2)
  = None.
Proof.
  pose proof (@C4_floating_client_claimed_once Inputs.obliging "travel" None
                Inputs.connected 0%nat) as Hclaim.
  destruct Hclaim as (Hb & _ & _ & _ & _ & _ & Hslot & _).
  - reflexivity.
  - vm_compute. eauto.
  - intros h.
    replace (Cluster.connections (this Inputs.connected))
      with (∅ : gmap string client) by (by vm_compute).
    by rewrite lookup_empty.
  - split; [exact Hb|exact Hslot].
Defined.

(** C4 as stated does not hold: after ["travel"] has claimed the floating
    client, a second acquisition of ["travel"] gets that same client again,
    from the registry; it is an acquisition of another identity, ["beer"],
    that gets a new client. *)
Lemma C4_counterexample_same_identity_same_client :
  let first := @Cluster_Bucket Inputs.obliging "travel" None Inputs.connected in
  let second := @Cluster_Bucket Inputs.obliging "travel" None first.2 in
  let third := @Cluster_Bucket Inputs.obliging "beer" None second.2 in
  Cluster.clusterClient (this Inputs.connected) = Some 0%nat ∧
  Bucket.cachedClient first.1 = Some 0%nat ∧
  Cluster_takeClusterClient first.2 = (None, first.2) ∧
  Bucket.cachedClient second.1 = Some 0%nat ∧
  Bucket.cachedClient third.1 = Some 1%nat.
Proof. repeat split; by vm_compute. Qed.

(** C3 as stated does not hold.  With two registered connections whose
    closes both fail, [Close] returns the error of the close that failed
    last, not of the one that failed first; and when it has closed an
    unclaimed floating client, that client is still in the floating slot. *)
Lemma C3_counterexample_last_error_and_slot :
  let before := log (wld Inputs.two_buckets) in
  let after :=
    @Cluster_Close canonical_order Inputs.closes_fail None Inputs.two_buckets in
  let evs := drop (length before) (log (wld after.2)) in
  log (wld after.2) = (before ++ evs)%list ∧
  (closes_of evs).*1 = [1%nat; 0%nat] ∧
  first_failure (closes_of evs).*2
  = Some (transportError "another client did not close") ∧
  after.1 = Some (transportError "client 0 did not close") ∧
  after.1 ≠ first_failure (closes_of evs).*2 ∧
  Cluster.clusterClient (this Inputs.connected) = Some 0%nat ∧
  Cluster.clusterClient
    (this (@Cluster_Close canonical_order Inputs.closes_fail None
             Inputs.connected).2)
  = Some 0%nat.
Proof.
  split_and!; by vm_compute.
Qed.

(** Which error [Close] returns depends on the order of the iteration: with
    the two orders at hand it is once the one client's and once the other's. *)
Lemma Close_error_depends_on_order :
  (@Cluster_Close canonical_order Inputs.closes_fail None Inputs.two_buckets).1
  = Some (transportError "client 0 did not close") ∧
  (@Cluster_Close reversed_order Inputs.closes_fail None Inputs.two_buckets).1
  = Some (transportError "another client did not close").
Proof. split; by vm_compute. Qed.

(** * Further properties of the code *)

(** ** The search encoder *)

Section search_more.
Context {R : RangeOrder}.
Import SearchOptions.

(** The loop over the facets builds the map of the facets, whatever the
    order of the iteration. *)
Lemma range_facets (fs : gmap string Facet) :
  range fs (λ k v (facets : params), <[k := VFacet v]> facets) ∅
  = VFacet <$> fs.
Proof.
  apply map_eq. intros j.
  rewrite (range_insert_lookup VFacet), lookup_fmap, lookup_empty.
  by destruct (fs !! j).
Qed.

(** On success the output is [Raw] on top of the computed keys. *)
Lemma toMap_output opts d :
  toMap opts = (Some d, None) →
  d = default ∅ (Raw opts) ∪ search_computed opts.
Proof.
  intros (l & Hbody & <-)%toMap_success. revert Hbody.
  unfold toMap_body.
  match goal with |- context [range_nilable _ _ ?d] => set (d0 := d) end.
  assert (d0 = search_computed opts) as Hd0.
  { subst d0. unfold search_computed.
    destruct (Highlight opts), (Facets opts); simpl;
      rewrite ?range_facets; done. }
  intros Hbody.
  assert (data l = range_nilable (Raw opts) (λ k v acc, <[k := v]> acc) d0)
    as -> by (repeat case_match; simplify_eq; done).
  apply map_eq. intros j.
  rewrite range_nilable_insert_lookup, lookup_union, Hd0.
  destruct (Raw opts) as [raw|]; simpl.
  - destruct (raw !! j), (search_computed opts !! j); done.
  - rewrite lookup_empty. by destruct (search_computed opts !! j).
Qed.

Lemma toMap_accepts opts :
  toMap opts
  = if search_accepts opts
    then (Some (default ∅ (Raw opts) ∪ search_computed opts), None)
    else (None,
          Some (makeInvalidArgumentsError
                  (if bool_decide (ScanConsistency opts ≠ 0)
                      && bool_decide (ConsistentWith opts ≠ None)
                   then "ScanConsistency and ConsistentWith must be used exclusively"
                   else "unexpected consistency option"))).
Proof.
  destruct (search_accepts opts) eqn:Hacc.
  - assert (∃ d, toMap opts = (Some d, None)) as [d Hd].
    { unfold toMap, toMap_body, search_accepts in *.
      apply orb_true_iff in Hacc. destruct Hacc as [Hz|Hnb].
      - apply bool_decide_eq_true_1 in Hz. rewrite Hz. simpl. eauto.
      - apply andb_true_iff in Hnb. destruct Hnb as [H1 H2].
        apply bool_decide_eq_true_1 in H1, H2. rewrite H1, H2. simpl. eauto. }
    rewrite Hd. by rewrite (toMap_output _ _ Hd).
  - unfold search_accepts in Hacc.
    apply orb_false_iff in Hacc. destruct Hacc as [Hz Hnb].
    apply bool_decide_eq_false_1 in Hz.
    unfold toMap, toMap_body.
    rewrite (bool_decide_eq_true_2 (ScanConsistency opts ≠ 0)) by done.
    destruct (ConsistentWith opts) as [ms|] eqn:Hcw; simpl; [done|].
    rewrite (bool_decide_eq_true_2
               (ScanConsistency opts ≠ searchScanConsistencyNotSet)) by done.
    rewrite andb_true_r in Hnb. by rewrite Hnb.
Qed.

End search_more.

Lemma lookup_raw_over (raw : option params) (m : params) (j : string) :
  (default ∅ raw ∪ m) !! j
  = match raw ≫= (.!! j) with Some v => Some v | None => m !! j end.
Proof.
  rewrite lookup_union. destruct raw as [raw|]; simpl.
  - by destruct (raw !! j), (m !! j).
  - rewrite lookup_empty. by destruct (m !! j).
Qed.

Section search_extras.
Context {R : RangeOrder}.
Import SearchOptions.

(** X1.  The search encoder returns a map and no error exactly when the
    level is unset, or is NotBounded with no token; in every other case it
    returns no map and an invalid-arguments error.  It never returns both a
    map and an error, nor neither. *)
Theorem X1_search_encoding_outcome opts :
  (search_accepts opts = true ∧ ∃ d, toMap opts = (Some d, None)) ∨
  (search_accepts opts = false ∧
   ∃ e, toMap opts = (None, Some e) ∧ isInvalidArguments e = true).
Proof.
  rewrite toMap_accepts. destruct (search_accepts opts); [left|right]; eauto.
Qed.

(** X2.  Whenever search encoding succeeds, the keys "size", "from",
    "explain", "fields" and "sort" are in the output, also for zero-valued
    options: each holds the option's value unless [Raw] has an entry for the
    key, which then is the value. *)
Theorem X2_search_fixed_keys_present opts d :
  toMap opts = (Some d, None) →
  d !! "size" = Some (default (VInt (Limit opts)) (Raw opts ≫= (.!! "size"))) ∧
  d !! "from" = Some (default (VInt (Skip opts)) (Raw opts ≫= (.!! "from"))) ∧
  d !! "explain"
  = Some (default (VBool (Explain opts)) (Raw opts ≫= (.!! "explain"))) ∧
  d !! "fields"
  = Some (default (VStrings (Fields opts)) (Raw opts ≫= (.!! "fields"))) ∧
  d !! "sort" = Some (default (VSorts (Sort opts)) (Raw opts ≫= (.!! "sort"))).
Proof.
  intros ->%toMap_output. unfold search_computed.
  split_and!; rewrite lookup_raw_over;
    (destruct (Raw opts ≫= _); [done|]);
    destruct (Highlight opts), (Facets opts); by simplify_map_eq.
Qed.

(** X3.  Whenever search encoding succeeds and [Raw] has no entry for the
    key: "highlight" is in the output exactly when a highlight is given, and
    then holds its style and fields; "facets" is in the output exactly when
    facets are given, and then holds every facet under its name, whatever the
    order in which the facets were visited. *)
Theorem X3_search_highlight_and_facets opts d :
  toMap opts = (Some d, None) →
  (Raw opts ≫= (.!! "highlight") = None →
   d !! "highlight"
   = (λ h, VMap (<["fields" := VStrings (SearchHighlightOptions.Fields h)]>
                   {[ "style" := VString (SearchHighlightOptions.Style h) ]}))
       <$> Highlight opts) ∧
  (Raw opts ≫= (.!! "facets") = None →
   d !! "facets" = (λ fs, VMap (VFacet <$> fs)) <$> Facets opts).
Proof.
  intros ->%toMap_output. unfold search_computed.
  split; intros Hraw; rewrite lookup_raw_over, Hraw;
    destruct (Highlight opts), (Facets opts); by simplify_map_eq.
Qed.

(** X4.  Whenever search encoding succeeds, the keys of the output are the
    five fixed keys, "highlight" if a highlight is given, "facets" if facets
    are given, and the keys of [Raw]: nothing else is ever emitted. *)
Theorem X4_search_keys_emitted opts d :
  toMap opts = (Some d, None) →
  dom d
  = dom (default ∅ (Raw opts))
    ∪ (if Facets opts is Some _ then {[ "facets" ]} else ∅)
    ∪ (if Highlight opts is Some _ then {[ "highlight" ]} else ∅)
    ∪ {[ "size"; "from"; "explain"; "fields"; "sort" ]}.
Proof.
  intros ->%toMap_output. unfold search_computed.
  rewrite dom_union_L.
  destruct (Highlight opts), (Facets opts);
    rewrite ?dom_insert_L, ?dom_empty_L; set_solver.
Qed.

(** X6.  A [nil] [Raw] and an empty [Raw] give the same search encoding. *)
Theorem X6_search_raw_nil_or_empty opts :
  toMap (with_Limit_Raw (Limit opts) None opts)
  = toMap (with_Limit_Raw (Limit opts) (Some ∅) opts).
Proof.
  rewrite !toMap_accepts. unfold search_accepts, search_computed. simpl.
  by rewrite (left_id_L ∅ (∪)).
Qed.

End search_extras.

(** X5.  The search encoding does not depend on the order in which the
    runtime iterates over the facets and over [Raw]. *)
Theorem X5_search_order_independent (R1 R2 : RangeOrder) opts :
  @SearchOptions.toMap R1 opts = @SearchOptions.toMap R2 opts.
Proof. by rewrite !toMap_accepts. Qed.

(** X2 at [SearchOptions{Limit: 5, Raw: {"size": 999}}]. *)
Lemma X2_search_fixed_keys_present_witness :
  let d := default ∅ (SearchOptions.Raw Inputs.search_raw_size)
           ∪ search_computed Inputs.search_raw_size in
  d !! "size" = Some (VInt 999) ∧ d !! "from" = Some (VInt 0).
Proof.
  intros d.
  destruct (@X2_search_fixed_keys_present canonical_order
              Inputs.search_raw_size d) as (Hsize & Hfrom & _).
  - by vm_compute.
  - split; [exact Hsize|exact Hfrom].
Defined.

(** X3 at [SearchOptions{Highlight: &SearchHighlightOptions{Style: "html",
    Fields: []string{"title"}}, Facets: {"type": f1, "abv": f2}}], iterating
    over the facets in reverse: the highlight object and both facets are in
    the output. *)
Lemma X3_search_highlight_and_facets_witness :
  let d := (@SearchOptions.toMap reversed_order
              MoreInputs.search_highlight_facets).1 in
  d ≫= (.!! "highlight")
  = Some (VMap {[ "style" := VString "html";
                  "fields" := VStrings (Some ["title"]) ]}) ∧
  d ≫= (.!! "facets")
  = Some (VMap {[ "type" := VFacet {| facet_repr := "term facet on type" |};
                  "abv" := VFacet {| facet_repr := "numeric facet on abv" |} ]}).
Proof.
  intros d.
  destruct (@X3_search_highlight_and_facets reversed_order
              MoreInputs.search_highlight_facets
              (default ∅ d)) as (Hh & Hf).
  - by vm_compute.
  - split.
    + transitivity (default ∅ d !! "highlight"); [by vm_compute|].
      rewrite (Hh eq_refl). by vm_compute.
    + transitivity (default ∅ d !! "facets"); [by vm_compute|].
      rewrite (Hf eq_refl). by vm_compute.
Defined.

(** X4 at [SearchOptions{Limit: 5, Raw: {"size": 999}}]. *)
Lemma X4_search_keys_emitted_witness :
  dom (default ∅ (SearchOptions.Raw Inputs.search_raw_size)
       ∪ search_computed Inputs.search_raw_size)
  = dom (default ∅ (SearchOptions.Raw Inputs.search_raw_size))
    ∪ ∅ ∪ ∅ ∪ {[ "size"; "from"; "explain"; "fields"; "sort" ]}.
Proof.
  apply (@X4_search_keys_emitted canonical_order Inputs.search_raw_size).
  by vm_compute.
Defined.

(** ** The analytics encoder *)

Section analytics_extras.
Context {R : RangeOrder}.
Variables (Duration_String : Duration → string) (fresh : UUID).
Import AnalyticsOptions.

(** X7.  The analytics encoder returns no map and an error exactly when the
    positional and the named parameters are both non-nil, be they empty; in
    every other case it returns a map and no error. *)
Theorem X7_analytics_encoding_outcome opts statement :
  (PositionalParameters opts ≠ None ∧ NamedParameters opts ≠ None ∧
   ∃ e, toMap Duration_String fresh opts statement = (None, Some e)) ∨
  ((PositionalParameters opts = None ∨ NamedParameters opts = None) ∧
   ∃ out, toMap Duration_String fresh opts statement = (Some out, None)).
Proof.
  destruct (PositionalParameters opts) as [args|] eqn:Hpos;
    destruct (NamedParameters opts) as [np|] eqn:Hnp.
  { left. split_and!; [done|done|]. eexists.
    apply analytics_conflict_rejected; by rewrite ?Hpos, ?Hnp. }
  all: right; split; [by eauto|];
    apply analytics_toMap_succeeds; rewrite ?Hpos, ?Hnp; by eauto.
Qed.

(** X8.  Whenever analytics encoding succeeds and [Raw] has no entry for the
    key: "statement" holds the statement; "client_context_id" holds the
    caller's identifier, or a newly generated one when the caller gave none;
    "timeout" is present exactly for a non-zero server-side timeout and
    "priority", with value -1, exactly when priority is asked for; "args"
    holds the positional parameters exactly when they are non-nil. *)
Theorem X8_analytics_plain_keys opts statement out :
  toMap Duration_String fresh opts statement = (Some out, None) →
  (Raw opts ≫= (.!! "statement") = None →
   out !! "statement" = Some (VString statement)) ∧
  (Raw opts ≫= (.!! "client_context_id") = None →
   out !! "client_context_id"
   = Some (if bool_decide (ClientContextID opts = "") then VUUID fresh
           else VString (ClientContextID opts))) ∧
  (Raw opts ≫= (.!! "timeout") = None →
   out !! "timeout"
   = if bool_decide (ServerSideTimeout opts = 0) then None
     else Some (VString (Duration_String (ServerSideTimeout opts)))) ∧
  (Raw opts ≫= (.!! "priority") = None →
   out !! "priority" = if Priority opts then Some (VInt (-1)) else None) ∧
  (Raw opts ≫= (.!! "args") = None →
   out !! "args" = (λ args, VSlice (Some args)) <$> PositionalParameters opts).
Proof.
  intros Hout.
  split_and!; intros Hraw;
    rewrite (analytics_toMap_plain _ _ _ _ _ _ Hout) by done;
    rewrite Hraw, andb_false_r; unfold analytics_computed;
    destruct (PositionalParameters opts), (Priority opts);
    repeat case_bool_decide; by simplify_map_eq.
Qed.

(** X9.  The named parameters never touch a key that does not start with a
    dollar sign.  Of two calls, one with the named parameters and one
    without, each with the identifier it gets from [uuid.New()], the outputs
    agree at every such key; only at ["client_context_id"], when the caller
    gave no identifier and [Raw] has no entry for that key, each call has the
    identifier it generated. *)
Theorem X9_named_parameters_leave_plain_keys fresh1 fresh2 opts statement j :
  PositionalParameters opts = None →
  HasPrefix j "$" = false →
  let with_named := (toMap Duration_String fresh1 opts statement).1 in
  let without :=
    (toMap Duration_String fresh2 (with_parameters None None opts) statement).1 in
  if bool_decide (j = "client_context_id") && generates_id opts
  then with_named ≫= (.!! j) = Some (VUUID fresh1) ∧
       without ≫= (.!! j) = Some (VUUID fresh2)
  else with_named ≫= (.!! j) = without ≫= (.!! j).
Proof.
  intros Hpos Hj with_named without.
  destruct (analytics_toMap_succeeds Duration_String fresh1 opts statement)
    as [out Hout]; [by left|].
  destruct (analytics_toMap_succeeds Duration_String fresh2
              (with_parameters None None opts) statement)
    as [out' Hout']; [by left|].
  subst with_named without. rewrite Hout, Hout'. simpl.
  rewrite (analytics_toMap_plain _ _ _ _ _ _ Hout),
    (analytics_toMap_plain _ _ _ _ _ _ Hout') by done.
  rewrite (analytics_computed_ids Duration_String fresh1 fresh2 opts).
  rewrite (analytics_computed_ids Duration_String fresh2 fresh2
             (with_parameters None None opts)).
  unfold generates_id, analytics_computed. simpl. rewrite Hpos.
  destruct (decide (j = "client_context_id")) as [->|Hne].
  - rewrite (bool_decide_eq_true_2 ("client_context_id" = "client_context_id"))
      by done.
    simpl. rewrite andb_false_r.
    destruct (Raw opts ≫= _) as [v|]; simpl; [by rewrite andb_false_r|].
    rewrite andb_true_r.
    by destruct (bool_decide (ClientContextID opts = "")).
  - rewrite (bool_decide_eq_false_2 _ Hne). done.
Qed.

(** X11.  Only nil-ness counts: a call with a [nil] [Raw] and a call with
    an empty [Raw] give the same result but for the identifier each call
    generates under ["client_context_id"], and the same result altogether
    when the caller gave an identifier; so do a call with [nil] and a call
    with empty named parameters when there are no positional ones. *)
Theorem X11_analytics_nil_or_empty fresh1 fresh2 opts statement :
  let nilRaw :=
    toMap Duration_String fresh1 (with_Raw_ReadOnly None (ReadOnly opts) opts)
      statement in
  let emptyRaw :=
    toMap Duration_String fresh2
      (with_Raw_ReadOnly (Some ∅) (ReadOnly opts) opts) statement in
  let nilNamed :=
    toMap Duration_String fresh1 (with_parameters None None opts) statement in
  let emptyNamed :=
    toMap Duration_String fresh2 (with_parameters None (Some ∅) opts)
      statement in
  same_but_client_context_id nilRaw emptyRaw ∧
  (ClientContextID opts ≠ "" ∨ fresh1 = fresh2 → nilRaw = emptyRaw) ∧
  same_but_client_context_id nilNamed emptyNamed ∧
  (generates_id opts = false ∨ fresh1 = fresh2 → nilNamed = emptyNamed).
Proof.
  intros nilRaw emptyRaw nilNamed emptyNamed.
  assert (emptyRaw
          = toMap Duration_String fresh2
              (with_Raw_ReadOnly None (ReadOnly opts) opts) statement) as ->.
  { subst emptyRaw.
    unfold toMap, with_Raw_ReadOnly, range_nilable, range.
    simpl. by rewrite !range_order_empty. }
  assert (emptyNamed
          = toMap Duration_String fresh2 (with_parameters None None opts)
              statement) as ->.
  { subst emptyNamed.
    unfold toMap, with_parameters, range_nilable, range.
    simpl. by rewrite !range_order_empty. }
  subst nilRaw nilNamed.
  destruct (analytics_toMap_two_ids Duration_String fresh1 fresh2
              (with_Raw_ReadOnly None (ReadOnly opts) opts) statement)
    as (Hraw & Hraw' & _).
  destruct (analytics_toMap_two_ids Duration_String fresh1 fresh2
              (with_parameters None None opts) statement)
    as (Hnamed & Hnamed' & _).
  split_and!; [done| |done|exact Hnamed'].
  intros [Hid | ->]; apply Hraw'; [left|by right].
  unfold generates_id. simpl. by rewrite (bool_decide_eq_false_2 _ Hid).
Qed.

End analytics_extras.

(** X10.  When no two named parameters share a prefixed key, the analytics
    encoding does not depend on the order in which the runtime iterates over
    the named parameters and over [Raw]. *)
Theorem X10_analytics_order_independent (R1 R2 : RangeOrder)
    (Duration_String : Duration → string) (fresh : UUID) opts statement :
  (∀ np k k' v v',
     AnalyticsOptions.NamedParameters opts = Some np →
     np !! k = Some v → np !! k' = Some v' → dollarKey k = dollarKey k' →
     k = k') →
  @AnalyticsOptions.toMap R1 Duration_String fresh opts statement
  = @AnalyticsOptions.toMap R2 Duration_String fresh opts statement.
Proof.
  intros Hinj.
  destruct (decide (AnalyticsOptions.PositionalParameters opts ≠ None
                    ∧ AnalyticsOptions.NamedParameters opts ≠ None))
    as [[Hp Hn]|Hor].
  { by rewrite !analytics_conflict_rejected. }
  assert (AnalyticsOptions.PositionalParameters opts = None
          ∨ AnalyticsOptions.NamedParameters opts = None) as Hor'.
  { destruct (AnalyticsOptions.PositionalParameters opts),
      (AnalyticsOptions.NamedParameters opts); naive_solver. }
  destruct (@analytics_toMap_succeeds R1 Duration_String fresh opts statement Hor')
    as [out1 Hout1].
  destruct (@analytics_toMap_succeeds R2 Duration_String fresh opts statement Hor')
    as [out2 Hout2].
  rewrite Hout1, Hout2. do 2 f_equal.
  apply analytics_toMap_shape in Hout1, Hout2. subst out1 out2.
  apply map_eq. intros j.
  rewrite !readonly_flag_lookup, !range_nilable_insert_lookup.
  destruct (AnalyticsOptions.ReadOnly opts && bool_decide (j = "readonly"));
    [done|].
  destruct (AnalyticsOptions.Raw opts ≫= _); [done|].
  destruct (AnalyticsOptions.NamedParameters opts) as [np|] eqn:Hnp; [|done].
  simpl. unfold range.
  destruct (decide (j ∈ dollarKey <$> (map_to_list np).*1)) as [Hin|Hnin].
  - apply list_elem_of_fmap in Hin. destruct Hin as (k & -> & Hk).
    apply list_elem_of_fmap in Hk. destruct Hk as ([k0 v] & -> & Hkv).
    apply elem_of_map_to_list in Hkv. simpl.
    rewrite (foldl_store_agree dollarKey id (@range_order R1 _ np) _ k0 v),
      (foldl_store_agree dollarKey id (@range_order R2 _ np) _ k0 v);
      first done.
    all: try (by apply elem_of_range_order).
    all: intros k' v' Hk'%elem_of_range_order Heq;
      assert (k' = k0) as -> by (by eapply Hinj); congruence.
  - rewrite (foldl_store_other dollarKey id (@range_order R1 _ np)),
      (foldl_store_other dollarKey id (@range_order R2 _ np)); first done.
    all: intros [k v] Hkv%elem_of_range_order Heq; apply Hnin;
      apply list_elem_of_fmap; exists k; split; [done|];
      apply list_elem_of_fmap; exists (k, v); split; [done|];
      by apply elem_of_map_to_list.
Qed.

(** X8 at [AnalyticsOptions{Raw: {"readonly": false}, ReadOnly: true}] and
    the statement ["SELECT 1"]. *)
Lemma X8_analytics_plain_keys_witness :
  let out :=
    default ∅ (@AnalyticsOptions.toMap canonical_order Inputs.show_duration
                 Inputs.a_uuid Inputs.analytics_raw_readonly "SELECT 1").1 in
  out !! "statement" = Some (VString "SELECT 1") ∧
  out !! "client_context_id" = Some (VUUID Inputs.a_uuid) ∧
  out !! "timeout" = None ∧ out !! "priority" = None ∧ out !! "args" = None.
Proof.
  intros out.
  destruct (@X8_analytics_plain_keys canonical_order Inputs.show_duration
              Inputs.a_uuid Inputs.analytics_raw_readonly "SELECT 1" out)
    as (Hs & Hc & Ht & Hp & Ha).
  - by vm_compute.
  - split_and!; [apply Hs|apply Hc|apply Ht|apply Hp|apply Ha]; by vm_compute.
Defined.

(** X9 at [AnalyticsOptions{NamedParameters: {"a": 1}, Raw: {"$a": 2}}]:
    at the key ["a"] neither call has an entry, the named parameter being
    stored under ["$a"]; at ["statement"] both have the statement. *)
Lemma X9_named_parameters_leave_plain_keys_witness :
  let with_named :=
    (@AnalyticsOptions.toMap canonical_order Inputs.show_duration Inputs.a_uuid
       Inputs.analytics_named_shadowed "SELECT 1").1 in
  let without :=
    (@AnalyticsOptions.toMap canonical_order Inputs.show_duration
       MoreInputs.another_uuid
       (AnalyticsOptions.with_parameters None None
          Inputs.analytics_named_shadowed) "SELECT 1").1 in
  with_named ≫= (.!! "a") = without ≫= (.!! "a") ∧
  with_named ≫= (.!! "statement") = without ≫= (.!! "statement") ∧
  with_named ≫= (.!! "client_context_id") = Some (VUUID Inputs.a_uuid) ∧
  without ≫= (.!! "client_context_id") = Some (VUUID MoreInputs.another_uuid).
Proof.
  intros with_named without.
  pose proof (λ j, @X9_named_parameters_leave_plain_keys canonical_order
                     Inputs.show_duration Inputs.a_uuid MoreInputs.another_uuid
                     Inputs.analytics_named_shadowed "SELECT 1" j eq_refl)
    as Hplain.
  split_and!.
  - exact (Hplain "a" eq_refl).
  - exact (Hplain "statement" eq_refl).
  - exact (proj1 (Hplain "client_context_id" eq_refl)).
  - exact (proj2 (Hplain "client_context_id" eq_refl)).
Defined.

(** X10 at [AnalyticsOptions{NamedParameters: {"a": 1, "$b": 2, "c": 3},
    Raw: {"pretty": true, "scan_wait": "5s"}}], iterating in one order and in
    the opposite one; the two orders visit the named parameters, and the
    entries of [Raw], in different sequences. *)
Lemma X10_analytics_order_independent_witness :
  @AnalyticsOptions.toMap canonical_order Inputs.show_duration Inputs.a_uuid
    MoreInputs.analytics_three_named "SELECT 1"
  = @AnalyticsOptions.toMap reversed_order Inputs.show_duration Inputs.a_uuid
      MoreInputs.analytics_three_named "SELECT 1" ∧
  (@range_order canonical_order _
     ({[ "a" := VInt 1; "$b" := VInt 2; "c" := VInt 3 ]} : params)).*1
  ≠ (@range_order reversed_order _
       ({[ "a" := VInt 1; "$b" := VInt 2; "c" := VInt 3 ]} : params)).*1 ∧
  (@range_order canonical_order _
     ({[ "pretty" := VBool true; "scan_wait" := VString "5s" ]} : params)).*1
  ≠ (@range_order reversed_order _
       ({[ "pretty" := VBool true; "scan_wait" := VString "5s" ]} : params)).*1.
Proof.
  split; [|split; vm_compute; discriminate].
  apply X10_analytics_order_independent.
  intros np k k' v v' [= <-] Hk Hk' Heq.
  assert (∀ x w, ({[ "a" := VInt 1; "$b" := VInt 2; "c" := VInt 3 ]} : params)
                   !! x = Some w → x = "a" ∨ x = "$b" ∨ x = "c") as Hkeys.
  { intros x w Hx.
    apply lookup_insert_Some in Hx as [[<- _]|[_ Hx]]; [by left|].
    apply lookup_insert_Some in Hx as [[<- _]|[_ Hx]]; [by right; left|].
    apply lookup_singleton_Some in Hx as [<- _]. by right; right. }
  destruct (Hkeys _ _ Hk) as [->|[->| ->]],
    (Hkeys _ _ Hk') as [->|[->| ->]];
    first [reflexivity | vm_compute in Heq; discriminate].
Defined.

(** X12.  The prefixed key of a named parameter always starts with a dollar
    sign; prefixing a prefixed key changes nothing; and a key without a
    dollar sign has the same prefixed key as that key with a dollar sign in
    front, so that two different parameters can end up under one key. *)
Theorem X12_dollarKey_prefixing key :
  HasPrefix (dollarKey key) "$" = true ∧
  dollarKey (dollarKey key) = dollarKey key ∧
  dollarKey ("$" ++ key) = "$" ++ key ∧
  (HasPrefix key "$" = false →
   dollarKey key = dollarKey ("$" ++ key) ∧ key ≠ "$" ++ key).
Proof.
  assert (HasPrefix ("$" ++ key) "$" = true) as Hpre
    by (unfold HasPrefix; simpl; by destruct key).
  split_and!.
  - apply dollarKey_HasPrefix.
  - apply dollarKey_idempotent.
  - unfold dollarKey. by rewrite Hpre.
  - intros Hkey. split.
    + unfold dollarKey. by rewrite Hkey, Hpre.
    + intros Heq. rewrite Heq, Hpre in Hkey. done.
Qed.

(** ** Connecting, continued *)

Section connect_more.
Context {E : Env}.

Lemma parseTimeoutOption_cases spec name set sb :
  (∃ valStr, fetchOption spec name = Some valStr ∧
             strconv_ParseInt valStr = None ∧
             parseTimeoutOption spec name set sb
             = inl (fmt_Errorf (name ++ " option must be a number"))) ∨
  ((∀ valStr, fetchOption spec name = Some valStr →
              is_Some (strconv_ParseInt valStr)) ∧
   parseTimeoutOption spec name set sb
   = inr (match fetchOption spec name ≫= strconv_ParseInt with
          | Some val => set (wrap64 (val * Millisecond)) sb
          | None => sb
          end)).
Proof.
  unfold parseTimeoutOption.
  destruct (fetchOption spec name) as [valStr|]; simpl.
  - destruct (strconv_ParseInt valStr) as [val|] eqn:Hval.
    + right. split; [|done]. intros ? [= <-]. rewrite Hval. eauto.
    + left. eauto.
  - right. split; [|done]. intros ? [=].
Qed.

(** What the connection-string options do to a cluster when they all parse,
    and which error comes back when one does not. *)
Lemma parseExtraConnStrOptions_cases spec c :
  (∃ name valStr,
     name ∈ timeout_option_names ∧
     fetchOption spec name = Some valStr ∧
     strconv_ParseInt valStr = None ∧
     (parseExtraConnStrOptions spec c).2
     = Some (fmt_Errorf (name ++ " option must be a number"))) ∨
  ((∀ name valStr, name ∈ timeout_option_names →
      fetchOption spec name = Some valStr → is_Some (strconv_ParseInt valStr)) ∧
   parseExtraConnStrOptions spec c
   = (Cluster.set_sb
        (stateBlock.with_overrides (Cluster.sb c)
           (stateBlock.clientStateBlock (Cluster.sb c))
           (conn_string_override spec "n1ql_timeout"
              (stateBlock.QueryTimeout (Cluster.sb c)))
           (conn_string_override spec "analytics_timeout"
              (stateBlock.AnalyticsTimeout (Cluster.sb c)))
           (conn_string_override spec "search_timeout"
              (stateBlock.SearchTimeout (Cluster.sb c)))
           (conn_string_override spec "view_timeout"
              (stateBlock.ViewTimeout (Cluster.sb c)))
           (stateBlock.Tracer (Cluster.sb c))) c, None)).
Proof.
  unfold parseExtraConnStrOptions, and_then, timeout_option_names.
  destruct (parseTimeoutOption_cases spec "n1ql_timeout"
              stateBlock.set_QueryTimeout (Cluster.sb c))
    as [(v & Hf & Hp & ->)|[H1 ->]].
  { left. exists "n1ql_timeout", v. split_and!; try done. set_solver. }
  match goal with
  | |- context [parseTimeoutOption spec "analytics_timeout" ?set ?sb] =>
      destruct (parseTimeoutOption_cases spec "analytics_timeout" set sb)
        as [(v & Hf & Hp & ->)|[H2 ->]]
  end.
  { left. exists "analytics_timeout", v. split_and!; try done. set_solver. }
  match goal with
  | |- context [parseTimeoutOption spec "search_timeout" ?set ?sb] =>
      destruct (parseTimeoutOption_cases spec "search_timeout" set sb)
        as [(v & Hf & Hp & ->)|[H3 ->]]
  end.
  { left. exists "search_timeout", v. split_and!; try done. set_solver. }
  match goal with
  | |- context [parseTimeoutOption spec "view_timeout" ?set ?sb] =>
      destruct (parseTimeoutOption_cases spec "view_timeout" set sb)
        as [(v & Hf & Hp & ->)|[H4 ->]]
  end.
  { left. exists "view_timeout", v. split_and!; try done. set_solver. }
  right. split.
  - intros name valStr Hname.
    repeat (apply elem_of_cons in Hname; destruct Hname as [->|Hname]);
      eauto. by apply elem_of_nil in Hname.
  - unfold conn_string_override. f_equal. f_equal.
    destruct (Cluster.sb c).
    destruct (fetchOption spec "n1ql_timeout" ≫= strconv_ParseInt),
      (fetchOption spec "analytics_timeout" ≫= strconv_ParseInt),
      (fetchOption spec "search_timeout" ≫= strconv_ParseInt),
      (fetchOption spec "view_timeout" ≫= strconv_ParseInt); reflexivity.
Qed.

End connect_more.

Section connect_cases.
Context {E : Env}.

(** Every way in which [Connect] can end, with the world it leaves behind:
    the connection string does not parse; a timeout option of the connection
    string is not a number; the configuration cannot be built; the client
    cannot connect; or a cluster comes back. *)
Lemma Connect_cases connStr opts w :
  (∃ e, gocbconnstr_Parse connStr = inr e ∧
        Connect connStr opts w = ((None, Some e), w)) ∨
  ∃ spec,
    gocbconnstr_Parse connStr = inl spec ∧
    let t := if ClusterOptions.ThresholdLoggerDisabled opts then noopTracer
             else thresholdLoggingTracer
                    (ClusterOptions.ThresholdLoggingOptions opts) in
    let cli := fresh (dom (heap w)) in
    let csb := {| clientStateBlock.BucketName := "" |} in
    let created := {| clientSb := csb; bootstrapErr := None;
                      isConnected := false; gcccp := false |} in
    let log1 := (log w ++ [EvTracerAddRef t])%list in
    let log2 := (log1 ++ [EvNewClient cli csb])%list in
    (∃ name valStr,
       name ∈ timeout_option_names ∧
       fetchOption spec name = Some valStr ∧
       strconv_ParseInt valStr = None ∧
       Connect connStr opts w
       = ((None, Some (fmt_Errorf (name ++ " option must be a number"))),
          {| heap := heap w; log := log1 |})) ∨
    (∃ e, buildConfig_outcome log2 cli = Some e ∧
          Connect connStr opts w
          = ((None, Some e),
             {| heap := <[cli := created]> (heap w);
                log := log2 ++ [EvBuildConfig cli (Some e)] |})) ∨
    (∃ e, buildConfig_outcome log2 cli = None ∧
          connect_outcome (log2 ++ [EvBuildConfig cli None]) cli = Some e ∧
          Connect connStr opts w
          = ((None, Some e),
             {| heap := <[cli := created]> (heap w);
                log := log2 ++ [EvBuildConfig cli None; EvConnect cli (Some e)] |})) ∨
    (∃ c,
       buildConfig_outcome log2 cli = None ∧
       connect_outcome (log2 ++ [EvBuildConfig cli None]) cli = None ∧
       (∀ name valStr, name ∈ timeout_option_names →
          fetchOption spec name = Some valStr →
          is_Some (strconv_ParseInt valStr)) ∧
       Connect connStr opts w
       = ((Some c, None),
          {| heap :=
               <[cli := {| clientSb := csb; bootstrapErr := None;
                           isConnected := true;
                           gcccp := connect_gcccp
                                      (log2 ++ [EvBuildConfig cli None]) cli |}]>
                 (heap w);
             log := log2 ++ [EvBuildConfig cli None; EvConnect cli None] |}) ∧
       Cluster.cSpec c = spec ∧
       Cluster.auth c = ClusterOptions.Authenticator opts ∧
       Cluster.connections c = ∅ ∧
       Cluster.clusterClient c = Some cli ∧
       Cluster.queryCache c = ∅ ∧
       Cluster.supportsEnhancedStatements c = 0 ∧
       Cluster.supportsGCCCP c
       = connect_gcccp (log2 ++ [EvBuildConfig cli None]) cli ∧
       stateBlock.Tracer (Cluster.sb c) = Some t ∧
       stateBlock.ConnectTimeout (Cluster.sb c)
       = positive_or (ClusterOptions.ConnectTimeout opts) (10000 * Millisecond) ∧
       stateBlock.KvTimeout (Cluster.sb c)
       = positive_or (ClusterOptions.KVTimeout opts) (2500 * Millisecond) ∧
       stateBlock.DuraTimeout (Cluster.sb c) = 40000 * Millisecond ∧
       stateBlock.DuraPollTimeout (Cluster.sb c) = 100 * Millisecond ∧
       stateBlock.QueryTimeout (Cluster.sb c)
       = conn_string_override spec "n1ql_timeout"
           (positive_or (ClusterOptions.QueryTimeout opts) (75000 * Millisecond)) ∧
       stateBlock.AnalyticsTimeout (Cluster.sb c)
       = conn_string_override spec "analytics_timeout"
           (positive_or (ClusterOptions.AnalyticsTimeout opts)
              (75000 * Millisecond)) ∧
       stateBlock.SearchTimeout (Cluster.sb c)
       = conn_string_override spec "search_timeout"
           (positive_or (ClusterOptions.SearchTimeout opts) (75000 * Millisecond)) ∧
       stateBlock.ViewTimeout (Cluster.sb c)
       = conn_string_override spec "view_timeout"
           (positive_or (ClusterOptions.ViewTimeout opts) (75000 * Millisecond))).
Proof.
  destruct (gocbconnstr_Parse connStr) as [spec|e] eqn:Hparse.
  2: { left. exists e. split; [done|]. unfold Connect. by rewrite Hparse. }
  right. refine (ex_intro _ spec (conj eq_refl _)).
  intros t cli csb created log1 log2.
  unfold Connect. rewrite Hparse.
  destruct (ClusterOptions.ThresholdLoggerDisabled opts) eqn:Hdis;
    unfold mbind at 1, M_bind at 1, tracerAddRef, emit, modify; simpl;
    match goal with
    | |- context [parseExtraConnStrOptions spec ?c0] =>
        destruct (parseExtraConnStrOptions_cases spec c0)
          as [(name & valStr & Hname & Hf & Hp & Herr)|[Hall Hextra]]
    end.
  1,3: left; exists name, valStr; split_and!; try done;
    match goal with
    | H : (parseExtraConnStrOptions ?sp ?c0).2 = Some _ |- _ =>
        destruct (parseExtraConnStrOptions sp c0) as [c1 oe]; simpl in H;
        subst oe
    end; reflexivity.
  all: right; rewrite Hextra;
    unfold client_buildConfig, client_connect, newClient, get, emit, modify,
      update_client, mbind, M_bind, mret, M_ret, newThresholdLoggingTracer;
    subst log2 log1 created csb cli t; simpl;
    match goal with
    | |- context [buildConfig_outcome ?l ?c] =>
        destruct (buildConfig_outcome l c) as [e1|] eqn:Hb
    end; simpl.
  1,3: left; exists e1; split; done.
  all: right;
    match goal with
    | |- context [connect_outcome ?l ?c] =>
        destruct (connect_outcome l c) as [e2|] eqn:Hc
    end; simpl.
  1,3: left; exists e2; split_and!; [done|done|]; by rewrite <- !app_assoc.
  all: right; eexists; (split; [done|]); (split; [done|]); (split; [done|]);
    (split;
     [unfold set_heap; simpl; rewrite alter_insert_eq, <- !app_assoc;
      reflexivity|]);
    simpl; unfold client_supportsGCCCP, positive_or; simpl;
    rewrite ?lookup_insert_eq; simpl; split_and!; try done;
    by rewrite <- !app_assoc.
Qed.

End connect_cases.

Section connect_extras.
Context {E : Env}.

(** X13.  Whenever [Connect] returns a cluster it returns no error, and the
    cluster has an empty registry and, as its floating client, a client that
    did not exist before, is connected and has no bootstrap error.  The calls
    [Connect] made that take effect are four, in this order: the tracer
    reference, the creation of the client, the configuration build and the
    connect; after them it asks the client whether it supports cluster-level
    operations, which changes nothing, and the answer is the cluster's
    flag. *)
Theorem X13_Connect_success_state connStr opts w c err w' :
  Connect connStr opts w = ((Some c, err), w') →
  err = None ∧
  Cluster.connections c = ∅ ∧
  ∃ cli t,
    Cluster.clusterClient c = Some cli ∧
    heap w !! cli = None ∧
    heap w'
    = <[cli := {| clientSb := {| clientStateBlock.BucketName := "" |};
                  bootstrapErr := None; isConnected := true;
                  gcccp := Cluster.supportsGCCCP c |}]> (heap w) ∧
    stateBlock.Tracer (Cluster.sb c) = Some t ∧
    log w'
    = (log w ++ [EvTracerAddRef t;
                 EvNewClient cli {| clientStateBlock.BucketName := "" |};
                 EvBuildConfig cli None; EvConnect cli None])%list ∧
    Cluster.supportsGCCCP c = client_supportsGCCCP cli w'.
Proof.
  intros Hconnect.
  destruct (Connect_cases connStr opts w) as [(e & _ & Heq)|(spec & _ & Hcases)];
    [congruence|].
  cbv zeta in Hcases.
  destruct Hcases as [(? & ? & _ & _ & _ & Heq)|[(e & _ & Heq)|[(e & _ & _ & Heq)
    |(c0 & _ & _ & _ & Heq & _ & _ & Hreg & Hcli & _ & _ & Hg & Ht & _)]]];
    try congruence.
  rewrite Heq in Hconnect. injection Hconnect as <- <- <-.
  split_and!; [done|done|].
  eexists _, _. split_and!; [exact Hcli| |by rewrite Hg|exact Ht| |].
  - apply not_elem_of_dom, is_fresh.
  - by rewrite <- !app_assoc.
  - unfold client_supportsGCCCP. simpl. by rewrite lookup_insert_eq.
Qed.

(** X14.  Whenever [Connect] returns no cluster it returns an error.  If
    the connection string does not parse, the error is the parser's and
    nothing else has happened.  In every case no client is connected that
    was not before, and a connect is attempted only after a successful
    configuration build. *)
Theorem X14_Connect_failure connStr opts w err w' :
  Connect connStr opts w = ((None, err), w') →
  ∃ e evs,
    err = Some e ∧
    log w' = (log w ++ evs)%list ∧
    (∀ e', gocbconnstr_Parse connStr = inr e' → e = e' ∧ w' = w) ∧
    (∀ cli r, EvConnect cli r ∈ evs →
       r = Some e ∧ EvBuildConfig cli None ∈ evs) ∧
    (∀ cli, client_connected cli w' = true → client_connected cli w = true).
Proof.
  intros Hconnect.
  destruct (Connect_cases connStr opts w)
    as [(e & Hparse & Heq)|(spec & Hparse & Hcases)].
  { rewrite Heq in Hconnect. injection Hconnect as <- <-.
    exists e, []. rewrite app_nil_r. split_and!; try done.
    - intros e'. rewrite Hparse. by intros [= <-].
    - intros ? ? []%elem_of_nil. }
  cbv zeta in Hcases.
  assert (∀ (h : gmap client clientObj) cli,
    client_connected cli
      {| heap := <[fresh (dom (heap w)) :=
                     {| clientSb := {| clientStateBlock.BucketName := "" |};
                        bootstrapErr := None; isConnected := false;
                        gcccp := false |}]> (heap w);
         log := [] |} = true →
    client_connected cli w = true) as Hsame.
  { intros _ cli. unfold client_connected. simpl.
    destruct (decide (cli = fresh (dom (heap w)))) as [->|Hne].
    - by rewrite lookup_insert_eq.
    - by rewrite lookup_insert_ne. }
  destruct Hcases as [(name & v & _ & _ & _ & Heq)|[(e & _ & Heq)
    |[(e & _ & _ & Heq)|(c0 & _ & _ & _ & Heq & _)]]];
    rewrite Heq in Hconnect; [| | |congruence];
    injection Hconnect as <- <-; eexists _, _;
    (split; [reflexivity|]); simpl;
    (split; [rewrite <- ?app_assoc; reflexivity|]);
    (split; [intros e'; rewrite Hparse; by intros [=]|]); simpl; split.
  - intros cli r Hin. set_solver.
  - done.
  - intros cli r Hin. set_solver.
  - intros cli. apply (Hsame ∅).
  - intros cli r Hin.
    repeat (apply elem_of_cons in Hin; destruct Hin as [Hin|Hin];
            [simplify_eq|]); [|by apply elem_of_nil in Hin].
    split; [done|]. set_solver.
  - intros cli. apply (Hsame ∅).
Qed.

(** X15.  Whenever [Connect] returns a cluster, its connect and key-value
    timeouts are the options' when these are positive and 10 and 2.5 seconds
    otherwise, and the durability timeouts are 40 seconds and 100
    milliseconds.  The query, analytics, search and view timeouts are what
    the connection string gives for [n1ql_timeout], [analytics_timeout],
    [search_timeout] and [view_timeout], in milliseconds and whether positive
    or not; failing that the options' when these are positive; failing that
    75 seconds. *)
Theorem X15_Connect_timeouts connStr opts w c err w' :
  Connect connStr opts w = ((Some c, err), w') →
  ∃ spec,
    gocbconnstr_Parse connStr = inl spec ∧
    Cluster.cSpec c = spec ∧
    stateBlock.ConnectTimeout (Cluster.sb c)
    = positive_or (ClusterOptions.ConnectTimeout opts) (10000 * Millisecond) ∧
    stateBlock.KvTimeout (Cluster.sb c)
    = positive_or (ClusterOptions.KVTimeout opts) (2500 * Millisecond) ∧
    stateBlock.DuraTimeout (Cluster.sb c) = 40000 * Millisecond ∧
    stateBlock.DuraPollTimeout (Cluster.sb c) = 100 * Millisecond ∧
    stateBlock.QueryTimeout (Cluster.sb c)
    = conn_string_override spec "n1ql_timeout"
        (positive_or (ClusterOptions.QueryTimeout opts) (75000 * Millisecond)) ∧
    stateBlock.AnalyticsTimeout (Cluster.sb c)
    = conn_string_override spec "analytics_timeout"
        (positive_or (ClusterOptions.AnalyticsTimeout opts)
           (75000 * Millisecond)) ∧
    stateBlock.SearchTimeout (Cluster.sb c)
    = conn_string_override spec "search_timeout"
        (positive_or (ClusterOptions.SearchTimeout opts) (75000 * Millisecond)) ∧
    stateBlock.ViewTimeout (Cluster.sb c)
    = conn_string_override spec "view_timeout"
        (positive_or (ClusterOptions.ViewTimeout opts) (75000 * Millisecond)).
Proof.
  intros Hconnect.
  destruct (Connect_cases connStr opts w) as [(e & _ & Heq)|(spec & Hp & Hcases)];
    [congruence|].
  cbv zeta in Hcases.
  destruct Hcases as [(? & ? & _ & _ & _ & Heq)|[(e & _ & Heq)|[(e & _ & _ & Heq)
    |(c0 & _ & _ & _ & Heq & Hspec & _ & _ & _ & _ & _ & _ & _ & Hrest)]]];
    try congruence.
  rewrite Heq in Hconnect. injection Hconnect as <- <- <-.
  exists spec. split_and!; try done; apply Hrest.
Qed.

(** X16.  A timeout of the connection string is read from the last value
    given for the option; a value between -9223372036854 and 9223372036854
    milliseconds is stored exactly, and a value that is not a number makes
    the stanza fail with "<name> option must be a number". *)
Theorem X16_parseTimeoutOption_value spec name set sb values valStr :
  ConnSpec.Options spec !! name = Some (values ++ [valStr])%list →
  match strconv_ParseInt valStr with
  | Some val =>
      parseTimeoutOption spec name set sb = inr (set (wrap64 (val * Millisecond)) sb) ∧
      ((-9223372036854 ≤ val ≤ 9223372036854)%Z →
       wrap64 (val * Millisecond) = val * Millisecond)
  | None =>
      parseTimeoutOption spec name set sb
      = inl (fmt_Errorf (name ++ " option must be a number"))
  end.
Proof.
  intros Hopt.
  assert (fetchOption spec name = Some valStr) as Hfetch
    by (unfold fetchOption; rewrite Hopt; simpl; apply last_snoc).
  unfold parseTimeoutOption. rewrite Hfetch.
  destruct (strconv_ParseInt valStr) as [val|]; [|done].
  split; [done|]. intros Hrange. unfold wrap64, Millisecond.
  rewrite Z.mod_small; lia.
Qed.

End connect_extras.

Section connect_options.
Context {E : Env}.

(** X17.  The timeout options of the connection string are read in the order
    [n1ql_timeout], [analytics_timeout], [search_timeout], [view_timeout]; the
    error names the first one whose last value is not a number, whatever the
    later ones hold. *)
Theorem X17_parseExtraConnStrOptions_first_bad spec c pre name post valStr :
  timeout_option_names = (pre ++ name :: post)%list →
  (∀ n v, n ∈ pre → fetchOption spec n = Some v → is_Some (strconv_ParseInt v)) →
  fetchOption spec name = Some valStr →
  strconv_ParseInt valStr = None →
  (parseExtraConnStrOptions spec c).2
  = Some (fmt_Errorf (name ++ " option must be a number")).
Proof.
  intros Hnames Hpre Hfetch Hparse.
  assert (∀ n set sb, n ∈ pre →
            ∃ sb', parseTimeoutOption spec n set sb = inr sb') as Hgood.
  { intros n set sb Hn. unfold parseTimeoutOption.
    destruct (fetchOption spec n) as [v|] eqn:Hv; [|by eauto].
    destruct (Hpre n v Hn Hv) as [val ->]. by eauto. }
  assert (∀ set sb, parseTimeoutOption spec name set sb
                    = inl (fmt_Errorf (name ++ " option must be a number")))
    as Hbad.
  { intros set sb. unfold parseTimeoutOption. by rewrite Hfetch, Hparse. }
  unfold timeout_option_names in Hnames.
  unfold parseExtraConnStrOptions, and_then.
  destruct pre as [|p1 [|p2 [|p3 [|p4 pre]]]]; simplify_eq/=.
  - by rewrite Hbad.
  - destruct (Hgood "n1ql_timeout" stateBlock.set_QueryTimeout (Cluster.sb c))
      as [sb1 ->]; [set_solver|].
    by rewrite Hbad.
  - destruct (Hgood "n1ql_timeout" stateBlock.set_QueryTimeout (Cluster.sb c))
      as [sb1 ->]; [set_solver|].
    destruct (Hgood "analytics_timeout" stateBlock.set_AnalyticsTimeout sb1)
      as [sb2 ->]; [set_solver|].
    by rewrite Hbad.
  - destruct (Hgood "n1ql_timeout" stateBlock.set_QueryTimeout (Cluster.sb c))
      as [sb1 ->]; [set_solver|].
    destruct (Hgood "analytics_timeout" stateBlock.set_AnalyticsTimeout sb1)
      as [sb2 ->]; [set_solver|].
    destruct (Hgood "search_timeout" stateBlock.set_SearchTimeout sb2)
      as [sb3 ->]; [set_solver|].
    by rewrite Hbad.
  - destruct pre; simplify_eq/=.
Qed.

End connect_options.

(** X13 at a connection for which every call succeeds. *)
Lemma X13_Connect_success_state_witness :
  Cluster.connections (this Inputs.connected) = ∅ ∧
  ∃ cli, Cluster.clusterClient (this Inputs.connected) = Some cli ∧
         heap Inputs.nothing_yet !! cli = None.
Proof.
  destruct (@X13_Connect_success_state Inputs.obliging "couchbase://localhost"
              ClusterOptions.zero Inputs.nothing_yet (this Inputs.connected)
              None (wld Inputs.connected))
    as (_ & Hconns & cli & t & Hcli & Hnew & _).
  - by vm_compute.
  - split; [exact Hconns|]. exists cli. split; [exact Hcli|exact Hnew].
Defined.

(** X14 at a connection string that does not parse. *)
Lemma X14_Connect_failure_witness :
  ∃ e,
    (@Connect MoreInputs.unparsable "nonsense" ClusterOptions.zero
       Inputs.nothing_yet).1.2 = Some e ∧
    @gocbconnstr_Parse MoreInputs.unparsable "nonsense" = inr e.
Proof.
  destruct (@X14_Connect_failure MoreInputs.unparsable "nonsense"
              ClusterOptions.zero Inputs.nothing_yet
              (Some (transportError "bad connection string"))
              Inputs.nothing_yet)
    as (e & evs & He & _ & Hparse & _).
  - by vm_compute.
  - exists e. split; [exact He|].
    destruct (Hparse (transportError "bad connection string") eq_refl) as [-> _].
    reflexivity.
Defined.

(** X15 at a connection string with [n1ql_timeout=100&n1ql_timeout=250] and
    no timeout among the options: the query timeout is 250 milliseconds, the
    search timeout 75 seconds. *)
Lemma X15_Connect_timeouts_witness :
  let c :=
    default Inputs.blank_cluster
      (@Connect MoreInputs.query_timeout_twice "couchbase://localhost"
         ClusterOptions.zero Inputs.nothing_yet).1.1 in
  stateBlock.QueryTimeout (Cluster.sb c) = 250 * Millisecond ∧
  stateBlock.SearchTimeout (Cluster.sb c) = 75 * Second.
Proof.
  intros c.
  destruct (@X15_Connect_timeouts MoreInputs.query_timeout_twice
              "couchbase://localhost" ClusterOptions.zero Inputs.nothing_yet c
              None
              (@Connect MoreInputs.query_timeout_twice "couchbase://localhost"
                 ClusterOptions.zero Inputs.nothing_yet).2)
    as (spec & _ & Hspec & _ & _ & _ & _ & Hq & _ & Hs & _).
  - by vm_compute.
  - rewrite Hq, Hs, <- Hspec. by vm_compute.
Defined.

(** X16 at [n1ql_timeout=100&n1ql_timeout=250]. *)
Lemma X16_parseTimeoutOption_value_witness :
  @parseTimeoutOption MoreInputs.query_timeout_twice
    {| ConnSpec.Options := {[ "n1ql_timeout" := ["100"; "250"] ]} |}
    "n1ql_timeout" stateBlock.set_QueryTimeout (Cluster.sb Inputs.blank_cluster)
  = inr (stateBlock.set_QueryTimeout (wrap64 (250 * Millisecond))
           (Cluster.sb Inputs.blank_cluster)) ∧
  wrap64 (250 * Millisecond) = 250 * Millisecond.
Proof.
  pose proof (@X16_parseTimeoutOption_value MoreInputs.query_timeout_twice
                {| ConnSpec.Options := {[ "n1ql_timeout" := ["100"; "250"] ]} |}
                "n1ql_timeout" stateBlock.set_QueryTimeout
                (Cluster.sb Inputs.blank_cluster) ["100"] "250") as Hvalue.
  change (@strconv_ParseInt MoreInputs.query_timeout_twice "250")
    with (Some 250) in Hvalue.
  destruct Hvalue as [Hset Hexact].
  - by vm_compute.
  - split; [exact Hset|]. apply Hexact. lia.
Defined.

(** X17 at [MoreInputs.three_timeouts]: the analytics option is reported,
    not the view option. *)
Lemma X17_parseExtraConnStrOptions_first_bad_witness :
  (@parseExtraConnStrOptions MoreInputs.timeouts_not_numbers
     MoreInputs.three_timeouts Inputs.blank_cluster).2
  = Some (fmt_Errorf "analytics_timeout option must be a number").
Proof.
  apply (@X17_parseExtraConnStrOptions_first_bad MoreInputs.timeouts_not_numbers
           MoreInputs.three_timeouts Inputs.blank_cluster
           ["n1ql_timeout"] "analytics_timeout"
           ["search_timeout"; "view_timeout"] "soon").
  - reflexivity.
  - intros n v ->%list_elem_of_singleton Hv. vm_compute in Hv.
    injection Hv as <-. vm_compute. eauto.
  - by vm_compute.
  - by vm_compute.
Defined.

(** ** Shutting down, continued *)

Section close_more.
Context {R : RangeOrder} {E : Env}.

Lemma releases_of_close_events evs :
  Forall (λ ev, is_close_event ev = true) evs → releases_of evs = [].
Proof.
  induction 1 as [|ev evs Hev _ IH]; [done|].
  unfold releases_of in *. by destruct ev.
Qed.

End close_more.

Section close_extras.
Context {R : RangeOrder} {E : Env}.

Lemma omap_id_nil (rs : list (option error)) :
  omap id rs = [] ↔ ∀ r, r ∈ rs → r = None.
Proof.
  induction rs as [|[e|] rs IH]; simpl.
  - split; [intros _ r []%elem_of_nil|done].
  - split; [done|]. intros Hall. by specialize (Hall (Some e) (list_elem_of_here _ _)).
  - rewrite IH. split.
    + intros Hall r [->|Hr]%elem_of_cons; [done|by apply Hall].
    + intros Hall r Hr. apply Hall. by right.
Qed.

(** The events of a [Close], tracer release included. *)
Lemma Close_log opts s :
  ∃ evs h,
    Cluster_Close opts s
    = (last (warnings_of evs),
       {| this := closed (this s);
          wld := {| heap := h; log := log (wld s) ++ evs |} |}) ∧
    (closes_of evs).*1
    = ((range_order (Cluster.connections (this s))).*2
       ++ option_list (Cluster.clusterClient (this s)))%list ∧
    warnings_of evs = omap id (closes_of evs).*2 ∧
    releases_of evs = option_list (stateBlock.Tracer (Cluster.sb (this s))) ∧
    Forall (λ ev, is_close_event ev = true ∨ ∃ t, ev = EvTracerDecRef t) evs ∧
    ∀ c, c ∉ (closes_of evs).*1 → h !! c = heap (wld s) !! c.
Proof.
  destruct (Close_state opts s) as (evs & h & -> & Hc & Hw & Hall & Hframe).
  set (rel := match stateBlock.Tracer (Cluster.sb (this s)) with
              | Some tracer => [EvTracerDecRef tracer]
              | None => []
              end).
  assert (closes_of rel = [] ∧ warnings_of rel = [] ∧
          releases_of rel = option_list (stateBlock.Tracer (Cluster.sb (this s))))
    as (Hc' & Hw' & Hr') by (subst rel; by destruct (stateBlock.Tracer _)).
  exists (evs ++ rel)%list, h.
  rewrite warnings_of_app, closes_of_app, Hc', Hw', !app_nil_r.
  split_and!; try done.
  - unfold last_failure. by rewrite Hw.
  - unfold releases_of in *. rewrite omap_app.
    fold (releases_of evs). by rewrite releases_of_close_events, Hr'.
  - apply Forall_app. split.
    + eapply Forall_impl; [exact Hall|]. by left.
    + subst rel. destruct (stateBlock.Tracer _); [|by constructor].
      constructor; [by eauto|by constructor].
Qed.

(** X18.  [Close] touches no client but the registered ones and the floating
    one, and keeps the floating client in its slot; it leaves the cluster
    without a tracer and with the rest of its configuration untouched.  It
    releases the tracer exactly once if there is one and never otherwise, and
    makes no other call than closes, warnings and that release. *)
Theorem X18_Close_leaves_behind opts s :
  let s' := (Cluster_Close opts s).2 in
  (∀ c, (∀ k, Cluster.connections (this s) !! k ≠ Some c) →
        Cluster.clusterClient (this s) ≠ Some c →
        heap (wld s') !! c = heap (wld s) !! c) ∧
  Cluster.clusterClient (this s') = Cluster.clusterClient (this s) ∧
  stateBlock.Tracer (Cluster.sb (this s')) = None ∧
  stateBlock.set_Tracer None (Cluster.sb (this s'))
  = stateBlock.set_Tracer None (Cluster.sb (this s)) ∧
  (Cluster.cSpec (this s'), Cluster.auth (this s'), Cluster.queryCache (this s'),
   Cluster.supportsEnhancedStatements (this s'), Cluster.supportsGCCCP (this s'))
  = (Cluster.cSpec (this s), Cluster.auth (this s), Cluster.queryCache (this s),
     Cluster.supportsEnhancedStatements (this s), Cluster.supportsGCCCP (this s)) ∧
  ∃ evs,
    log (wld s') = (log (wld s) ++ evs)%list ∧
    releases_of evs = option_list (stateBlock.Tracer (Cluster.sb (this s))) ∧
    Forall (λ ev, is_close_event ev = true ∨ ∃ t, ev = EvTracerDecRef t) evs.
Proof.
  destruct (Close_log opts s) as (evs & h & -> & Hc & _ & Hrel & Hall & Hframe).
  simpl. split.
  { intros c Hreg Hslot. apply Hframe. rewrite Hc.
    intros [Hin|Hin]%elem_of_app.
    - apply list_elem_of_fmap in Hin as ([k c'] & -> & Hin).
      apply elem_of_range_order in Hin. by apply (Hreg k).
    - destruct (Cluster.clusterClient (this s)) as [cc|]; simpl in Hin;
        [|by apply elem_of_nil in Hin].
      apply list_elem_of_singleton in Hin. by subst. }
  unfold closed.
  destruct (stateBlock.Tracer (Cluster.sb (this s))) as [t|] eqn:Ht; simpl;
    rewrite ?Ht; split_and!; try done; by eauto.
Qed.

(** X19.  A second [Close] closes the floating client once more if it was
    never claimed, and nothing else: the registry is empty, so no registered
    connection is closed again, and the tracer is not released again. *)
Theorem X19_Close_twice opts1 opts2 s :
  let s1 := (Cluster_Close opts1 s).2 in
  ∃ evs,
    log (wld (Cluster_Close opts2 s1).2) = (log (wld s1) ++ evs)%list ∧
    (closes_of evs).*1 = option_list (Cluster.clusterClient (this s)) ∧
    releases_of evs = [] ∧
    (Cluster_Close opts2 s1).1 = last_failure (closes_of evs).*2.
Proof.
  destruct (Close_log opts1 s) as (evs1 & h1 & -> & _). simpl.
  match goal with
  | |- context [Cluster_Close opts2 ?s1] =>
      destruct (Close_log opts2 s1) as (evs & h2 & -> & Hc & Hw & Hrel & _)
  end.
  simpl in *. exists evs.
  assert (Cluster.connections (closed (this s)) = ∅
          ∧ Cluster.clusterClient (closed (this s))
            = Cluster.clusterClient (this s)
          ∧ stateBlock.Tracer (Cluster.sb (closed (this s))) = None)
    as (Hconns & Hcc & Htr).
  { unfold closed. by destruct (stateBlock.Tracer (Cluster.sb (this s))) eqn:Ht. }
  rewrite Hconns, range_order_empty, Hcc in Hc. rewrite Htr in Hrel.
  split_and!; try done. unfold last_failure. by rewrite Hw.
Qed.

(** X20.  [Close] logs one warning for every close that fails, in the order
    of the closes and with the error of the close, and returns the error of
    the last warning; it returns [nil] exactly when every close succeeded. *)
Theorem X20_Close_warns_per_failure opts s :
  ∃ evs,
    log (wld (Cluster_Close opts s).2) = (log (wld s) ++ evs)%list ∧
    warnings_of evs = omap id (closes_of evs).*2 ∧
    (Cluster_Close opts s).1 = last (warnings_of evs) ∧
    ((Cluster_Close opts s).1 = None ↔
     ∀ c r, (c, r) ∈ closes_of evs → r = None).
Proof.
  destruct (Close_log opts s) as (evs & h & -> & _ & Hw & _). simpl.
  exists evs. split_and!; try done.
  rewrite last_None, Hw, omap_id_nil. split.
  - intros Hall c r Hcr. apply Hall.
    apply list_elem_of_fmap. by exists (c, r).
  - intros Hall r ([c r'] & -> & Hcr)%list_elem_of_fmap. by eapply Hall.
Qed.

End close_extras.

(** ** Routing, continued *)

Section routing_extras.
Context {R : RangeOrder}.

Lemma range_order_registered {V : Type} (m : gmap string V) (v : V) :
  v ∈ (range_order m).*2 ↔ ∃ k, m !! k = Some v.
Proof.
  rewrite list_elem_of_fmap. split.
  - intros ([k v'] & -> & Hkv). exists k. by apply elem_of_range_order.
  - intros [k Hk]. exists (k, v). split; [done|]. by apply elem_of_range_order.
Qed.

Lemma first_connected_Some w cs c :
  first_connected w cs = Some c → c ∈ cs ∧ client_connected c w = true.
Proof.
  unfold first_connected. intros Hhd%head_Some_elem_of.
  by apply list_elem_of_filter in Hhd as [? ?].
Qed.

Lemma first_connected_None w cs :
  first_connected w cs = None ↔ ∀ c, c ∈ cs → client_connected c w = false.
Proof.
  unfold first_connected. rewrite head_None. split.
  - intros Hnil c Hc. destruct (client_connected c w) eqn:Hconn; [|done].
    assert (c ∈ filter (λ c, client_connected c w = true) cs) as Hin
      by (by apply list_elem_of_filter).
    rewrite Hnil in Hin. by apply elem_of_nil in Hin.
  - intros Hall. induction cs as [|c cs IH]; [done|].
    rewrite filter_cons_False by (rewrite (Hall c) by (by left); done).
    apply IH. intros c' Hc'. apply Hall. by right.
Qed.

Lemma first_bootstrap_error_Some w cs e :
  first_bootstrap_error w cs = Some e →
  ∃ c, c ∈ cs ∧ client_getBootstrapError c w = Some e.
Proof.
  unfold first_bootstrap_error. intros Hhd%head_Some_elem_of.
  apply list_elem_of_omap in Hhd. naive_solver.
Qed.

Lemma first_bootstrap_error_None w cs :
  first_bootstrap_error w cs = None ↔
  ∀ c, c ∈ cs → client_getBootstrapError c w = None.
Proof.
  unfold first_bootstrap_error. rewrite head_None. split.
  - intros Hnil c Hc. destruct (client_getBootstrapError c w) as [e|] eqn:He;
      [|done].
    assert (e ∈ omap (λ c, client_getBootstrapError c w) cs) as Hin
      by (apply list_elem_of_omap; eauto).
    rewrite Hnil in Hin. by apply elem_of_nil in Hin.
  - intros Hall. induction cs as [|c cs IH]; [done|]. simpl.
    rewrite (Hall c) by (by left). apply IH. intros c' Hc'. apply Hall. by right.
Qed.

(** X21.  [randomClient] returns either a client and no error, or no client
    and an error, whatever the order of the iteration.  A client is returned
    exactly when some registered connection is connected, and it is a
    registered, connected one.  The error is a bootstrap error recorded on a
    registered connection when there is one, and "not connected to cluster"
    otherwise. *)
Theorem X21_randomClient_outcome s :
  let conns := Cluster.connections (this s) in
  (∃ cli, Cluster_randomClient s = (Some cli, None) ∧
          (∃ k, conns !! k = Some cli) ∧
          client_connected cli (wld s) = true) ∨
  (∃ e, Cluster_randomClient s = (None, Some e) ∧
        (∀ k cli, conns !! k = Some cli → client_connected cli (wld s) = false) ∧
        ((∃ k cli, conns !! k = Some cli ∧
                   client_getBootstrapError cli (wld s) = Some e) ∨
         (e = errors_New "not connected to cluster" ∧
          ∀ k cli, conns !! k = Some cli →
                   client_getBootstrapError cli (wld s) = None))).
Proof.
  intros conns. rewrite Cluster_randomClient_spec. cbv zeta. fold conns.
  destruct (first_connected (wld s) (range_order conns).*2) as [cli|] eqn:Hfc.
  - left. exists cli. apply first_connected_Some in Hfc as [Hin Hconn].
    split_and!; [done| |done]. by apply range_order_registered.
  - right. eexists. split; [reflexivity|]. split.
    + intros k cli Hk. eapply first_connected_None; [exact Hfc|].
      apply range_order_registered. eauto.
    + destruct (first_bootstrap_error (wld s) (range_order conns).*2)
        as [e|] eqn:Hfe; simpl.
      * left. apply first_bootstrap_error_Some in Hfe as (c & Hc & He).
        apply range_order_registered in Hc as [k Hk]. eauto.
      * right. split; [done|]. intros k cli Hk.
        eapply first_bootstrap_error_None; [exact Hfe|].
        apply range_order_registered. eauto.
Qed.

Context {P : ProviderEnv}.

Lemma clusterOrRandomClient_one s :
  (∃ cli, Cluster_clusterOrRandomClient s = (Some cli, None)) ∨
  (∃ e, Cluster_clusterOrRandomClient s = (None, Some e)).
Proof.
  unfold Cluster_clusterOrRandomClient.
  destruct (Cluster.clusterClient (this s)) as [cli|].
  - destruct (client_supportsGCCCP cli (wld s)); simpl; eauto.
  - rewrite Cluster_randomClient_spec. cbv zeta.
    destruct (first_connected _ _); eauto.
Qed.

(** X22.  None of the five provider getters of the cluster ever calls a
    method on a [nil] client: each returns.  It returns the routing error if
    routing fails, the error of the routed connection's getter if that fails,
    and otherwise the provider of the routed connection; never both a
    provider and an error, nor neither. *)
Theorem X22_provider_getters_return svc s :
  match Cluster_clusterOrRandomClient s with
  | (_, Some e) => Cluster_getProvider svc s = Returned (None, Some e)
  | (Some cli, None) =>
      Cluster_getProvider svc s
      = Returned
          match getProvider_outcome svc cli (wld s) with
          | Some e => (None, Some e)
          | None =>
              (Some {| provider_client := cli; provider_service := svc |}, None)
          end
  | (None, None) => False
  end.
Proof.
  unfold Cluster_getProvider, client_getProvider.
  destruct (clusterOrRandomClient_one s) as [[cli ->]|[e ->]]; [|done].
  by destruct (getProvider_outcome svc cli (wld s)).
Qed.

(** X24.  The flag for enhanced prepared statements reads back as it was
    last set, starts out unset on a cluster that [Connect] returns, and
    setting it changes no other field of the cluster. *)
Theorem X24_enhanced_statements_flag (E : Env) supports supports' c :
  Cluster_supportsEnhancedPreparedStatements
    (Cluster_setSupportsEnhancedPreparedStatements supports c) = supports ∧
  Cluster_setSupportsEnhancedPreparedStatements supports
    (Cluster_setSupportsEnhancedPreparedStatements supports' c)
  = Cluster_setSupportsEnhancedPreparedStatements supports c ∧
  (Cluster_supportsEnhancedPreparedStatements c = supports →
   Cluster.supportsEnhancedStatements c ∈ [0; 1] →
   Cluster_setSupportsEnhancedPreparedStatements supports c = c) ∧
  (∀ connStr opts w c0 err w',
     Connect connStr opts w = ((Some c0, err), w') →
     Cluster_supportsEnhancedPreparedStatements c0 = false).
Proof.
  split_and!.
  - by destruct supports.
  - done.
  - unfold Cluster_supportsEnhancedPreparedStatements,
      Cluster_setSupportsEnhancedPreparedStatements.
    intros <- Hin. destruct c. simpl in *. f_equal.
    apply elem_of_cons in Hin as [->|Hin]; [done|].
    apply list_elem_of_singleton in Hin as ->. done.
  - intros connStr opts w c0 err w' Hconnect.
    destruct (Connect_cases connStr opts w)
      as [(e & _ & Heq)|(spec & _ & Hcases)]; [congruence|].
    cbv zeta in Hcases.
    destruct Hcases as [(? & ? & _ & _ & _ & Heq)|[(e & _ & Heq)
      |[(e & _ & _ & Heq)
       |(c1 & _ & _ & _ & Heq & _ & _ & _ & _ & _ & Hflag & _)]]];
      try congruence.
    rewrite Heq in Hconnect. injection Hconnect as <- <- <-.
    unfold Cluster_supportsEnhancedPreparedStatements. by rewrite Hflag.
Qed.

End routing_extras.

(** ** A cluster from [Connect] to [Close] *)

Section lifecycle.
Context {R : RangeOrder} {E : Env}.

(** The state right after a successful [Connect]. *)
Lemma Connect_success connStr opts w c err w' :
  Connect connStr opts w = ((Some c, err), w') →
  ∃ cli t,
    err = None ∧
    Cluster.connections c = ∅ ∧
    Cluster.clusterClient c = Some cli ∧
    stateBlock.Tracer (Cluster.sb c) = Some t ∧
    heap w !! cli = None ∧
    w' = {| heap :=
              <[cli := {| clientSb := {| clientStateBlock.BucketName := "" |};
                          bootstrapErr := None; isConnected := true;
                          gcccp := Cluster.supportsGCCCP c |}]> (heap w);
            log := log w
                   ++ [EvTracerAddRef t;
                       EvNewClient cli {| clientStateBlock.BucketName := "" |};
                       EvBuildConfig cli None; EvConnect cli None] |}.
Proof.
  intros Hconnect.
  destruct (Connect_cases connStr opts w) as [(e & _ & Heq)|(spec & _ & Hcases)];
    [congruence|].
  cbv zeta in Hcases.
  destruct Hcases as [(? & ? & _ & _ & _ & Heq)|[(e & _ & Heq)|[(e & _ & _ & Heq)
    |(c0 & _ & _ & _ & Heq & _ & _ & Hreg & Hcli & _ & _ & Hg & Ht & _)]]];
    try congruence.
  rewrite Heq in Hconnect. injection Hconnect as <- <- <-.
  eexists _, _. split_and!; [done|done|exact Hcli|exact Ht| |].
  - apply not_elem_of_dom, is_fresh.
  - rewrite Hg, <- !app_assoc. reflexivity.
Qed.

(** X23.  On a cluster that [Connect] has just returned, [Users] and
    [Buckets] go through the floating client: they fail with "cluster-level
    operations not supported due to cluster version" when the server does not
    support cluster-level operations, fail with the connection's error when
    it cannot supply an HTTP provider, and otherwise return a manager over
    that connection whose timeout is the cluster's management timeout and
    whose retry strategy and tracer are the cluster's. *)
Theorem X23_managers_after_Connect {P : ProviderEnv} connStr opts w c err w' :
  Connect connStr opts w = ((Some c, err), w') →
  let s := {| this := c; wld := w' |} in
  ∃ cli,
    Cluster.clusterClient c = Some cli ∧
    let expected :=
      if Cluster.supportsGCCCP c then
        match getProvider_outcome httpService cli w' with
        | Some e => (None, Some e)
        | None =>
            (Some {| HTTPManager.httpClient :=
                       Some {| provider_client := cli;
                               provider_service := httpService |};
                     HTTPManager.globalTimeout :=
                       stateBlock.ManagementTimeout (Cluster.sb c);
                     HTTPManager.defaultRetryStrategy :=
                       stateBlock.RetryStrategyWrapper (Cluster.sb c);
                     HTTPManager.tracer := stateBlock.Tracer (Cluster.sb c) |},
             None)
        end
      else
        (None,
         Some (errors_New
                 "cluster-level operations not supported due to cluster version"))
    in
    Cluster_Users s = Returned expected ∧ Cluster_Buckets s = Returned expected.
Proof.
  intros (cli & t & _ & _ & Hcli & _ & _ & ->)%Connect_success s.
  exists cli. split; [done|]. cbv zeta.
  unfold Cluster_Users, Cluster_Buckets, Cluster_httpManager,
    Cluster_getHTTPProvider, Cluster_getProvider, Cluster_clusterOrRandomClient,
    client_getProvider, client_supportsGCCCP.
  subst s. simpl. rewrite Hcli, lookup_insert_eq. simpl.
  destruct (Cluster.supportsGCCCP c); simpl; [|done].
  by destruct (getProvider_outcome httpService cli _).
Qed.

(** X25.  Connect, acquire one bucket, close: over the whole life of the
    cluster exactly one client is created; the bucket is selected on it; it
    is closed exactly once; and the tracer reference taken by [Connect] is
    released exactly once, by [Close], as the last call. *)
Theorem X25_connect_bucket_close connStr opts w c err w' bucketName bopts copts :
  Connect connStr opts w = ((Some c, err), w') →
  let s1 := (Cluster_Bucket bucketName bopts {| this := c; wld := w' |}).2 in
  let s2 := (Cluster_Close copts s1).2 in
  ∃ cli t r r' evs,
    Cluster.clusterClient c = Some cli ∧
    log (wld s2)
    = (log w
       ++ [EvTracerAddRef t;
           EvNewClient cli {| clientStateBlock.BucketName := "" |};
           EvBuildConfig cli None; EvConnect cli None;
           EvSelectBucket cli bucketName r]
       ++ evs ++ [EvTracerDecRef t])%list ∧
    closes_of evs = [(cli, r')] ∧
    Forall (λ ev, is_close_event ev = true) evs ∧
    (Cluster_Close copts s1).1 = r' ∧
    Cluster.connections (this s2) = ∅ ∧
    Cluster.clusterClient (this s2) = None.
Proof.
  intros (cli & t & _ & Hconns & Hcli & Ht & _ & ->)%Connect_success s1 s2.
  subst s2 s1.
  match goal with
  | |- context [Cluster_Bucket bucketName bopts ?s0] =>
      pose proof (Bucket_floating bucketName bopts s0 cli Hcli) as Hb
  end.
  cbv zeta in Hb. simpl in Hb. rewrite Hb. simpl. clear Hb.
  match goal with
  | |- context [Cluster_Close copts ?s] =>
      destruct (Close_state copts s) as (evs & h & -> & Hc & Hw & Hall & _)
  end.
  simpl in *. rewrite Hconns, insert_empty, range_order_singleton in Hc.
  simpl in Hc. rewrite Ht.
  assert (∃ r', closes_of evs = [(cli, r')]) as [r' Hr'].
  { destruct (closes_of evs) as [|[c1 r1] [|? ?]]; simplify_eq/=. eauto. }
  exists cli, t, (selectBucket_outcome
                    (log w ++ [EvTracerAddRef t;
                               EvNewClient cli
                                 {| clientStateBlock.BucketName := "" |};
                               EvBuildConfig cli None; EvConnect cli None])
                    cli bucketName), r', evs.
  split_and!; try done.
  - rewrite <- !app_assoc. reflexivity.
  - rewrite Hr'. unfold last_failure. simpl. by destruct r'.
  - unfold closed. simpl. by rewrite Ht.
  - unfold closed. simpl. by rewrite Ht.
Qed.

End lifecycle.

(** ** Acquiring buckets, continued *)

Section bucket_more.
Context {E : Env}.

(** The acquisition that finds the floating slot empty: the whole outcome. *)
Lemma Bucket_no_floating_world bucketName opts s :
  Cluster.clusterClient (this s) = None →
  let b := newBucket (Cluster.sb (this s)) bucketName
             (default {| bucketOptions_repr := "" |} opts) in
  let csb := stateBlock.clientStateBlock (Bucket.sb b) in
  let hit := Cluster.connections (this s) !! Bucket_hash b in
  let cli := default (fresh (dom (heap (wld s)))) hit in
  let w0 := match hit with
            | Some _ => wld s
            | None =>
                {| heap := <[cli := {| clientSb := csb; bootstrapErr := None;
                                       isConnected := false; gcccp := false |}]>
                             (heap (wld s));
                   log := log (wld s) ++ [EvNewClient cli csb] |}
            end in
  let r1 := buildConfig_outcome (log w0) cli in
  let r2 := connect_outcome (log w0 ++ [EvBuildConfig cli r1]) cli in
  let g := connect_gcccp (log w0 ++ [EvBuildConfig cli r1]) cli in
  Cluster_Bucket bucketName opts s
  = (Bucket_cacheClient cli b,
     {| this :=
          Cluster.set_connections
            (<[Bucket_hash b := cli]> (Cluster.connections (this s))) (this s);
        wld :=
          {| heap :=
               alter
                 (λ o,
                    match r1, r2 with
                    | Some e, _ | None, Some e =>
                        {| clientSb := clientSb o; bootstrapErr := Some e;
                           isConnected := isConnected o; gcccp := gcccp o |}
                    | None, None =>
                        {| clientSb := clientSb o;
                           bootstrapErr := bootstrapErr o;
                           isConnected := true; gcccp := g |}
                    end) cli (heap w0);
             log := log w0
                    ++ EvBuildConfig cli r1
                       :: match r1 with
                          | None => [EvConnect cli r2]
                          | Some _ => []
                          end |} |}).
Proof.
  intros Hcc b csb hit cli w0 r1 r2 g.
  unfold Cluster_Bucket, Cluster_takeClusterClient, Cluster_getClient, liftW,
    client_buildConfig, client_connect, client_selectBucket,
    client_setBootstrapError, update_client, whenSome, modify_this, modify,
    emit, get, newClient, mbind, M_bind, mret, M_ret.
  simpl. rewrite Hcc. simpl.
  subst g r2 r1 w0 cli hit csb b. unfold Bucket_hash. simpl.
  destruct (Cluster.connections (this s) !! _) as [c|]; simpl;
    (destruct (buildConfig_outcome _ _) as [e1|]; simpl;
     [unfold set_heap; simpl; by rewrite <- ?app_assoc|]);
    destruct (connect_outcome _ _) as [e2|]; simpl;
    unfold set_heap; simpl; by rewrite <- ?app_assoc.
Qed.

(** X26.  An acquisition never fails and never closes a connection or
    touches the tracer.  On the path that finds the floating slot empty it
    creates a client only if none is registered under the bucket's identity
    hash, always builds the configuration, and connects only if that
    succeeded; an error of either call is not returned but recorded as the
    client's bootstrap error, and a success clears no bootstrap error
    recorded before. *)
Theorem X26_Bucket_connects_or_records bucketName opts s :
  Cluster.clusterClient (this s) = None →
  (∀ h c, Cluster.connections (this s) !! h = Some c →
          is_Some (heap (wld s) !! c)) →
  let b := (Cluster_Bucket bucketName opts s).1 in
  let s' := (Cluster_Bucket bucketName opts s).2 in
  ∃ cli created r1,
    Bucket.cachedClient b = Some cli ∧
    created
    = match Cluster.connections (this s) !! Bucket_hash b with
      | Some _ => []
      | None => [EvNewClient cli {| clientStateBlock.BucketName := bucketName |}]
      end ∧
    r1 = buildConfig_outcome (log (wld s) ++ created) cli ∧
    match r1 with
    | Some e =>
        log (wld s') = (log (wld s) ++ created ++ [EvBuildConfig cli r1])%list ∧
        client_getBootstrapError cli (wld s') = Some e ∧
        client_connected cli (wld s') = client_connected cli (wld s)
    | None =>
        ∃ r2,
          r2 = connect_outcome (log (wld s) ++ created ++ [EvBuildConfig cli r1])
                 cli ∧
          log (wld s')
          = (log (wld s) ++ created ++ [EvBuildConfig cli r1; EvConnect cli r2])%list
          ∧
          match r2 with
          | Some e =>
              client_getBootstrapError cli (wld s') = Some e ∧
              client_connected cli (wld s') = client_connected cli (wld s)
          | None =>
              client_getBootstrapError cli (wld s')
              = client_getBootstrapError cli (wld s) ∧
              client_connected cli (wld s') = true
          end
    end.
Proof.
  intros Hcc Halive b s'.
  pose proof (Bucket_no_floating_world bucketName opts s Hcc) as Hb.
  cbv zeta in Hb. subst b s'. rewrite Hb. clear Hb. simpl.
  unfold Bucket_hash. simpl.
  set (h := Hash {| clientStateBlock.BucketName := bucketName |}).
  unfold client_getBootstrapError, client_connected. simpl.
  destruct (Cluster.connections (this s) !! h) as [c|] eqn:Hh; simpl.
  - destruct (Halive h c Hh) as [o Ho].
    exists c, []. eexists. split_and!; [done|done|reflexivity|].
    rewrite !app_nil_r, lookup_alter_eq, Ho. simpl.
    destruct (buildConfig_outcome (log (wld s)) c) as [e1|]; simpl; [done|].
    eexists. split; [reflexivity|]. split; [done|].
    by destruct (connect_outcome _ c).
  - assert (heap (wld s) !! fresh (dom (heap (wld s))) = None) as Hnew
      by apply not_elem_of_dom, is_fresh.
    eexists _, _, _. split_and!; [done|done|reflexivity|].
    rewrite lookup_alter_eq, lookup_insert_eq, Hnew. simpl.
    destruct (buildConfig_outcome _ _) as [e1|]; simpl.
    + by rewrite <- !app_assoc.
    + eexists. split; [reflexivity|]. rewrite <- !app_assoc. simpl.
      split; [done|]. by destruct (connect_outcome _ _).
Qed.

(** X27.  An acquisition changes nothing of the cluster but the floating
    slot, which is empty afterwards, and the registry entry for the bucket's
    identity hash, which is the client the bucket got; every other registry
    entry and the whole configuration stay as they were, no client object
    disappears, and no connection is closed and no tracer released. *)
Theorem X27_Bucket_frame bucketName opts s :
  let b := (Cluster_Bucket bucketName opts s).1 in
  let s' := (Cluster_Bucket bucketName opts s).2 in
  Cluster.clusterClient (this s') = None ∧
  is_Some (Bucket.cachedClient b) ∧
  Cluster.connections (this s') !! Bucket_hash b = Bucket.cachedClient b ∧
  (∀ h, h ≠ Bucket_hash b →
        Cluster.connections (this s') !! h = Cluster.connections (this s) !! h) ∧
  (Cluster.cSpec (this s'), Cluster.auth (this s'), Cluster.queryCache (this s'),
   Cluster.sb (this s'), Cluster.supportsEnhancedStatements (this s'),
   Cluster.supportsGCCCP (this s'))
  = (Cluster.cSpec (this s), Cluster.auth (this s), Cluster.queryCache (this s),
     Cluster.sb (this s), Cluster.supportsEnhancedStatements (this s),
     Cluster.supportsGCCCP (this s)) ∧
  (∀ c, is_Some (heap (wld s) !! c) → is_Some (heap (wld s') !! c)) ∧
  ∃ evs, log (wld s') = (log (wld s) ++ evs)%list ∧
         closes_of evs = [] ∧ releases_of evs = [].
Proof.
  intros b s'.
  destruct (Cluster.clusterClient (this s)) as [cli|] eqn:Hcc.
  - pose proof (Bucket_floating bucketName opts s cli Hcc) as Hb.
    cbv zeta in Hb. subst b s'. rewrite Hb. clear Hb. simpl.
    unfold Bucket_hash. simpl.
    split_and!; try done; try (by eexists);
      try (by rewrite lookup_insert_eq);
      try (by intros h Hne; rewrite lookup_insert_ne).
    intros c Hc. destruct (selectBucket_outcome _ _ _); [|done].
    by apply is_Some_alter.
  - pose proof (Bucket_no_floating_world bucketName opts s Hcc) as Hb.
    cbv zeta in Hb. subst b s'. rewrite Hb. clear Hb. simpl.
    unfold Bucket_hash. simpl.
    split_and!; try done; try (by eexists);
      try (by rewrite lookup_insert_eq);
      try (by intros h Hne; rewrite lookup_insert_ne).
    + intros c Hc. apply is_Some_alter.
      destruct (Cluster.connections (this s) !! _); [done|].
      by apply is_Some_insert.
    + destruct (Cluster.connections (this s) !! _); simpl;
        destruct (buildConfig_outcome _ _); simpl;
        rewrite <- ?app_assoc; by eexists.
Qed.

(** X28.  Acquiring the same bucket name twice in a row hands out the same
    client both times, and the second acquisition leaves the registry as the
    first one left it and creates no client; it builds the configuration of
    that client again, and connects it again if that succeeds. *)
Theorem X28_Bucket_twice bucketName opts1 opts2 s :
  let b1 := (Cluster_Bucket bucketName opts1 s).1 in
  let s1 := (Cluster_Bucket bucketName opts1 s).2 in
  let b2 := (Cluster_Bucket bucketName opts2 s1).1 in
  let s2 := (Cluster_Bucket bucketName opts2 s1).2 in
  Bucket.cachedClient b2 = Bucket.cachedClient b1 ∧
  this s2 = this s1 ∧
  dom (heap (wld s2)) = dom (heap (wld s1)) ∧
  ∃ cli r1,
    Bucket.cachedClient b1 = Some cli ∧
    log (wld s2)
    = (log (wld s1)
       ++ EvBuildConfig cli r1
          :: match r1 with
             | None =>
                 [EvConnect cli
                    (connect_outcome (log (wld s1) ++ [EvBuildConfig cli r1]) cli)]
             | Some _ => []
             end)%list.
Proof.
  intros b1 s1 b2 s2.
  assert (∃ cli,
    Bucket.cachedClient b1 = Some cli ∧
    Cluster.clusterClient (this s1) = None ∧
    Cluster.sb (this s1) = Cluster.sb (this s) ∧
    Cluster.connections (this s1)
      !! Hash {| clientStateBlock.BucketName := bucketName |} = Some cli)
    as (cli & Hb1 & Hcc1 & Hsb1 & Hreg1).
  { subst b1 s1.
    destruct (Cluster.clusterClient (this s)) as [cli|] eqn:Hcc.
    - pose proof (Bucket_floating bucketName opts1 s cli Hcc) as Hb.
      cbv zeta in Hb. rewrite Hb. simpl. unfold Bucket_hash. simpl.
      exists cli. by rewrite lookup_insert_eq.
    - pose proof (Bucket_no_floating_world bucketName opts1 s Hcc) as Hb.
      cbv zeta in Hb. rewrite Hb. simpl. unfold Bucket_hash. simpl.
      eexists. by rewrite lookup_insert_eq. }
  pose proof (Bucket_no_floating_world bucketName opts2 s1 Hcc1) as Hb.
  cbv zeta in Hb. unfold Bucket_hash in Hb. simpl in Hb.
  rewrite Hreg1 in Hb. simpl in Hb.
  subst b2 s2. rewrite Hb. clear Hb. simpl.
  rewrite Hb1. split_and!; [done| |by rewrite dom_alter_L|].
  - unfold Bucket_hash. simpl. rewrite insert_id by done.
    unfold Cluster.set_connections. by destruct (this s1).
  - eexists _, _. split; [done|]. reflexivity.
Qed.

End bucket_more.

(** ** Error enhancement, continued *)

(** X29.  What the enhancer returns is never one of the five transport
    errors, so that enhancing twice is enhancing once; it is [nil] exactly
    for [nil]; and it is the error it was given exactly when that is not a
    transport error.  The wrappers return what the enhancer returns,
    whatever bucket, scope, collection and key they are told; the wrapper
    that takes a collection panics when the collection is [nil], also for a
    [nil] error. *)
Theorem X29_enhancer_normal_form err coll docKey bucketName scopeName collName :
  isCoreErr (maybeEnhanceCoreErr err) = false ∧
  maybeEnhanceCoreErr (maybeEnhanceCoreErr err) = maybeEnhanceCoreErr err ∧
  (maybeEnhanceCoreErr err = None ↔ err = None) ∧
  (maybeEnhanceCoreErr err = err ↔ isCoreErr err = false) ∧
  maybeEnhanceCollKVErr err (Some coll) docKey
  = Returned (maybeEnhanceCoreErr err) ∧
  maybeEnhanceCollKVErr err None docKey = Panicked ∧
  maybeEnhanceKVErr err bucketName scopeName collName docKey
  = maybeEnhanceCoreErr err ∧
  maybeEnhanceViewError err = maybeEnhanceCoreErr err ∧
  maybeEnhanceQueryError err = maybeEnhanceCoreErr err ∧
  maybeEnhanceAnalyticsError err = maybeEnhanceCoreErr err ∧
  maybeEnhanceSearchError err = maybeEnhanceCoreErr err.
Proof.
  split_and!; try reflexivity.
  - by destruct err as [[]|].
  - by destruct err as [[]|].
  - by destruct err as [[]|].
  - destruct err as [[]|]; simpl; split; congruence.
Qed.

(** X23 at a connection for which every call succeeds and every provider is
    there. *)
Lemma X23_managers_after_Connect_witness :
  @Cluster_Users canonical_order MoreInputs.every_provider
    {| this := this Inputs.connected; wld := wld Inputs.connected |}
  = Returned
      (Some {| HTTPManager.httpClient :=
                 Some {| provider_client := 0%nat;
                         provider_service := httpService |};
               HTTPManager.globalTimeout := 75000000000;
               HTTPManager.defaultRetryStrategy :=
                 newRetryStrategyWrapper (NewBestEffortRetryStrategy None);
               HTTPManager.tracer := Some (thresholdLoggingTracer None) |},
       None).
Proof.
  destruct (@X23_managers_after_Connect canonical_order Inputs.obliging
              MoreInputs.every_provider "couchbase://localhost"
              ClusterOptions.zero Inputs.nothing_yet (this Inputs.connected)
              None (wld Inputs.connected))
    as (cli & Hcli & Husers & _).
  - by vm_compute.
  - rewrite Husers. vm_compute in Hcli. injection Hcli as <-. by vm_compute.
Defined.

(** X25 at a connection for which every call succeeds, and the bucket
    ["travel"]. *)
Lemma X25_connect_bucket_close_witness :
  let s1 := (@Cluster_Bucket Inputs.obliging "travel" None
               {| this := this Inputs.connected;
                  wld := wld Inputs.connected |}).2 in
  let s2 := (@Cluster_Close canonical_order Inputs.obliging None s1).2 in
  Cluster.connections (this s2) = ∅ ∧ Cluster.clusterClient (this s2) = None.
Proof.
  destruct (@X25_connect_bucket_close canonical_order Inputs.obliging
              "couchbase://localhost" ClusterOptions.zero Inputs.nothing_yet
              (this Inputs.connected) None (wld Inputs.connected)
              "travel" None None)
    as (cli & t & r & r' & evs & _ & _ & _ & _ & _ & Hconns & Hslot).
  - by vm_compute.
  - split; [exact Hconns|exact Hslot].
Defined.

(** X26 at a cluster that holds the bucket ["travel"], for the bucket
    ["beer"]. *)
Lemma X26_Bucket_connects_or_records_witness :
  ∃ cli,
    Bucket.cachedClient
      (@Cluster_Bucket Inputs.obliging "beer" None MoreInputs.one_bucket).1
    = Some cli.
Proof.
  destruct (@X26_Bucket_connects_or_records Inputs.obliging "beer" None
              MoreInputs.one_bucket) as (cli & created & r1 & Hb & _).
  - by vm_compute.
  - replace (Cluster.connections (this MoreInputs.one_bucket))
      with ({[ "travel" := 0%nat ]} : gmap string client) by (by vm_compute).
    intros h c [<- <-]%lookup_singleton_Some. vm_compute. eauto.
  - exists cli. exact Hb.
Defined.

(** ** Routing after shutdown *)

(** X30.  After [Close], a cluster-level request is still routed to the
    floating client if no bucket ever claimed it, closed though it is: it is
    returned if it then supports cluster-level operations, and the request
    fails with the unsupported error if it does not.  If the floating client
    was claimed, the request fails with "not connected to cluster", for the
    registry is empty. *)
Theorem X30_routing_after_Close (R : RangeOrder) (E : Env) opts s :
  let s' := (Cluster_Close opts s).2 in
  Cluster_clusterOrRandomClient s'
  = match Cluster.clusterClient (this s) with
    | Some cli =>
        if client_supportsGCCCP cli (wld s') then (Some cli, None)
        else (None,
              Some (errors_New
                      "cluster-level operations not supported due to cluster version"))
    | None => (None, Some (errors_New "not connected to cluster"))
    end.
Proof.
  destruct (Close_state opts s) as (evs & h & -> & _). simpl.
  unfold Cluster_clusterOrRandomClient, Cluster_randomClient, closed. simpl.
  destruct (stateBlock.Tracer (Cluster.sb (this s))); simpl;
    destruct (Cluster.clusterClient (this s)) as [cli|]; simpl;
    try (by destruct (client_supportsGCCCP cli _));
    by rewrite bool_decide_eq_true_2 by apply map_size_empty.
Qed.
